(** * adsb-go-dataset: the SBS1 line decoder and the batch forwarder

    A shallow embedding of [main.go]: the decoder [Parse] with its helpers
    [parseInt], [parseFloat], [parseBool] and [parseDateTime], the payload
    builder of [sendToService], the read loop of [runApp], and the checks
    of [initializeConfiguration] that come before a run.

    Go strings are byte sequences: they are modelled as [string], whose
    characters are the 256 values of [ascii].  Go's [int] is the 64-bit
    integer of the usual targets; integers are [Z] with the wrap-around of
    each conversion written out.  Floats are the IEEE 754 numbers of the
    Standard Library's [SpecFloat]. *)

From Stdlib Require Import ZArith List String Ascii Bool Lia ZifyBool Sorted.
From Stdlib Require Import SpecFloat.
Import ListNotations.

Local Open Scope string_scope.
Local Open Scope Z_scope.

(** ** Bytes *)

Definition byte_val (c : ascii) : Z := Z.of_N (N_of_ascii c).

Definition byte_in (lo hi : Z) (c : ascii) : bool :=
  (lo <=? byte_val c) && (byte_val c <=? hi).

(** ['0' <= c && c <= '9'] *)
Definition isDigit (c : ascii) : bool := byte_in 48 57 c.

(** ** Package strconv: Atoi, ParseInt, ParseUint, FormatInt *)

Module strconv.

Inductive Err : Set := ErrSyntax | ErrRange.

(** [strconv.IntSize]: the size in bits of [int]. *)
Definition IntSize : Z := 64.

Definition maxUint64 : Z := 2 ^ 64 - 1.

Definition uint64 (z : Z) : Z := z mod 2 ^ 64.

(** [lower(c)]: [c | ('x' - 'X')]. *)
Definition lower (c : ascii) : Z := Z.lor (byte_val c) 32.

(** The digit loop of [ParseUint(s, 10, 0)]: base 10, so no underscore is
    accepted and a letter is a digit that is too large for the base;
    [cutoff = maxUint64/10 + 1] and [maxVal = 1<<64 - 1]. *)
Fixpoint ParseUint_digits (s : string) (n : Z) : Z * option Err :=
  match s with
  | EmptyString => (n, None)
  | String c rest =>
      if isDigit c then
        let d := byte_val c - 48 in
        if maxUint64 / 10 + 1 <=? n then (maxUint64, Some ErrRange)
        else
          let n10 := uint64 (n * 10) in
          let n1 := uint64 (n10 + d) in
          if (n1 <? n10) || (maxUint64 <? n1) then (maxUint64, Some ErrRange)
          else ParseUint_digits rest n1
      else if (97 <=? lower c) && (lower c <=? 122) then
        (* d = lower(c) - 'a' + 10 >= base *)
        (0, Some ErrSyntax)
      else (0, Some ErrSyntax)
  end.

Definition ParseUint (s : string) : Z * option Err :=
  match s with
  | EmptyString => (0, Some ErrSyntax)
  | _ => ParseUint_digits s 0
  end.

(** [ParseInt(s, 10, 0)]. *)
Definition ParseInt (s : string) : Z * option Err :=
  match s with
  | EmptyString => (0, Some ErrSyntax)
  | String c rest =>
      let '(neg, s1) :=
        if Ascii.eqb c "+" then (false, rest)
        else if Ascii.eqb c "-" then (true, rest)
        else (false, s) in
      match ParseUint s1 with
      | (_, Some ErrSyntax) => (0, Some ErrSyntax)
      | (un, _) =>
          let cutoff := 2 ^ (IntSize - 1) in
          if negb neg && (cutoff <=? un) then (cutoff - 1, Some ErrRange)
          else if neg && (cutoff <? un) then (- cutoff, Some ErrRange)
          else (if neg then - un else un, None)
      end
  end.

(** The fast path of [Atoi]: at most 18 bytes, so the value fits [int]. *)
Fixpoint Atoi_fast_digits (s : string) (n : Z) : option Z :=
  match s with
  | EmptyString => Some n
  | String c rest =>
      let ch := (byte_val c - 48) mod 256 in
      if 9 <? ch then None else Atoi_fast_digits rest (n * 10 + ch)
  end.

Definition Atoi (s : string) : Z * option Err :=
  let sLen := Z.of_nat (String.length s) in
  if (0 <? sLen) && (sLen <? 19) then
    match s with
    | EmptyString => (0, Some ErrSyntax)
    | String c rest =>
        let signed := Ascii.eqb c "-" || Ascii.eqb c "+" in
        let s1 := if signed then rest else s in
        if signed && (Z.of_nat (String.length s1) <? 1) then (0, Some ErrSyntax)
        else
          match Atoi_fast_digits s1 0 with
          | None => (0, Some ErrSyntax)
          | Some n => (if Ascii.eqb c "-" then - n else n, None)
          end
    end
  else ParseInt s.

(** [FormatInt(i, 10)]: the decimal digits of [i], most significant first,
    after a ['-'] when [i] is negative. *)
Definition digit_char (d : Z) : ascii := ascii_of_N (Z.to_N (48 + d)).

Fixpoint format_digits (fuel : nat) (u : Z) (acc : string) : string :=
  match fuel with
  | O => acc
  | S fuel' =>
      let acc' := String (digit_char (u mod 10)) acc in
      if u <? 10 then acc' else format_digits fuel' (u / 10) acc'
  end.

Definition FormatInt (i : Z) : string :=
  let u := Z.abs i in
  let ds := format_digits (S (Z.to_nat (Z.log2 u))) u EmptyString in
  if i <? 0 then String "-" ds else ds.

End strconv.

(** ** Package unicode/utf8 and unicode.IsSpace *)

Module utf8.

Definition RuneError : Z := 0xFFFD.
Definition RuneSelf : Z := 0x80.
Definition UTFMax : nat := 4.

(** [s[i]]; every use is guarded by a length test. *)
Definition at_ (s : string) (i : nat) : Z :=
  match String.get i s with
  | Some c => byte_val c
  | None => 0
  end.

(** [s[n:]] *)
Fixpoint drop (n : nat) (s : string) : string :=
  match n, s with
  | O, _ => s
  | S n', String _ rest => drop n' rest
  | S _, EmptyString => EmptyString
  end.

(** [s[:n]] *)
Fixpoint take (n : nat) (s : string) : string :=
  match n, s with
  | O, _ => EmptyString
  | S n', String c rest => String c (take n' rest)
  | S _, EmptyString => EmptyString
  end.

(** The table [first] with [acceptRanges]: what the first byte of a sequence
    says about it. *)
Inductive First : Set :=
  | AS                                (* ASCII: size 1 *)
  | XX                                (* invalid: size 1 *)
  | Seq (size : nat) (lo hi : Z).     (* size and accepted second byte *)

Definition first (b : Z) : First :=
  if b <? 0x80 then AS
  else if b <? 0xC2 then XX
  else if b <=? 0xDF then Seq 2 0x80 0xBF
  else if b =? 0xE0 then Seq 3 0xA0 0xBF
  else if b <=? 0xEC then Seq 3 0x80 0xBF
  else if b =? 0xED then Seq 3 0x80 0x9F
  else if b <=? 0xEF then Seq 3 0x80 0xBF
  else if b =? 0xF0 then Seq 4 0x90 0xBF
  else if b <=? 0xF3 then Seq 4 0x80 0xBF
  else if b =? 0xF4 then Seq 4 0x80 0x8F
  else XX.

Definition cont (b : Z) : bool := (0x80 <=? b) && (b <=? 0xBF).

Definition DecodeRuneInString (s : string) : Z * nat :=
  match s with
  | EmptyString => (RuneError, 0%nat)
  | String c0 _ =>
      let s0 := byte_val c0 in
      match first s0 with
      | AS => (s0, 1%nat)
      | XX => (RuneError, 1%nat)
      | Seq sz lo hi =>
          if (String.length s <? sz)%nat then (RuneError, 1%nat)
          else
            let s1 := at_ s 1 in
            if (s1 <? lo) || (hi <? s1) then (RuneError, 1%nat)
            else if (sz <=? 2)%nat then
              (Z.lor (Z.shiftl (Z.land s0 0x1F) 6) (Z.land s1 0x3F), 2%nat)
            else
              let s2 := at_ s 2 in
              if negb (cont s2) then (RuneError, 1%nat)
              else if (sz <=? 3)%nat then
                (Z.lor (Z.lor (Z.shiftl (Z.land s0 0x0F) 12)
                              (Z.shiftl (Z.land s1 0x3F) 6))
                       (Z.land s2 0x3F), 3%nat)
              else
                let s3 := at_ s 3 in
                if negb (cont s3) then (RuneError, 1%nat)
                else
                  (Z.lor (Z.lor (Z.lor (Z.shiftl (Z.land s0 0x07) 18)
                                       (Z.shiftl (Z.land s1 0x3F) 12))
                                (Z.shiftl (Z.land s2 0x3F) 6))
                         (Z.land s3 0x3F), 4%nat)
      end
  end.

(** [RuneStart(b)]: [b] is not a continuation byte. *)
Definition RuneStart (b : Z) : bool := negb (Z.land b 0xC0 =? 0x80).

(** The backward search of [DecodeLastRuneInString] for the start of the last
    rune: [start] goes down to [lim] and stops at a start byte; the loop runs
    at most [UTFMax] times. *)
Fixpoint scan_back (fuel : nat) (s : string) (start lim : Z) : Z :=
  match fuel with
  | O => start
  | S fuel' =>
      if start <? lim then start
      else if RuneStart (at_ s (Z.to_nat start)) then start
      else scan_back fuel' s (start - 1) lim
  end.

Definition DecodeLastRuneInString (s : string) : Z * nat :=
  let end_ := Z.of_nat (String.length s) in
  if end_ =? 0 then (RuneError, 0%nat)
  else
    let r := at_ s (Z.to_nat (end_ - 1)) in
    if r <? RuneSelf then (r, 1%nat)
    else
      let lim := Z.max 0 (end_ - Z.of_nat UTFMax) in
      let start0 := scan_back UTFMax s (end_ - 2) lim in
      let start := if start0 <? lim then lim else start0 in
      let '(r', size) := DecodeRuneInString (drop (Z.to_nat start) s) in
      if negb (start + Z.of_nat size =? end_) then (RuneError, 1%nat)
      else (r', size).

End utf8.

Module unicode.

(** [unicode.IsSpace]: the Latin-1 white space, then the table [White_Space]. *)
Definition IsSpace (r : Z) : bool :=
  if (0 <=? r) && (r <=? 0xFF) then
    (r =? 9) || (r =? 10) || (r =? 11) || (r =? 12) || (r =? 13) || (r =? 32)
    || (r =? 0x85) || (r =? 0xA0)
  else
    (r =? 0x1680) || ((0x2000 <=? r) && (r <=? 0x200A))
    || ((0x2028 <=? r) && (r <=? 0x2029)) || (r =? 0x202F) || (r =? 0x205F)
    || (r =? 0x3000).

End unicode.

(** ** Package strings: TrimSpace and Split *)

Module strings.

(** The table [asciiSpace]: ['\t', '\n', '\v', '\f', '\r', ' ']. *)
Definition asciiSpace (b : Z) : bool :=
  (b =? 9) || (b =? 10) || (b =? 11) || (b =? 12) || (b =? 13) || (b =? 32).

(** [indexFunc(s, f, truth)]: the index of the first rune [r] of [s] with
    [f(r) == truth].  [rest] is [s[i:]]; an invalid byte is a rune of width 1.
    Every rune has at least one byte, so [String.length s] steps are enough. *)
Fixpoint indexFunc_from (fuel : nat) (rest : string) (i : nat)
    (f : Z -> bool) (truth : bool) : option nat :=
  match fuel with
  | O => None
  | S fuel' =>
      match rest with
      | EmptyString => None
      | _ =>
          let '(r, size) := utf8.DecodeRuneInString rest in
          if Bool.eqb (f r) truth then Some i
          else indexFunc_from fuel' (utf8.drop size rest) (i + size) f truth
      end
  end.

Definition indexFunc (s : string) (f : Z -> bool) (truth : bool) : option nat :=
  indexFunc_from (String.length s) s 0 f truth.

(** [lastIndexFunc(s, f, truth)]: [i] goes down from [len(s)] by the width of
    the last rune of [s[0:i]]. *)
Fixpoint lastIndexFunc_from (fuel : nat) (s : string) (i : nat)
    (f : Z -> bool) (truth : bool) : option nat :=
  match fuel with
  | O => None
  | S fuel' =>
      if (0 <? i)%nat then
        let '(r, size) := utf8.DecodeLastRuneInString (utf8.take i s) in
        let i' := (i - size)%nat in
        if Bool.eqb (f r) truth then Some i'
        else lastIndexFunc_from fuel' s i' f truth
      else None
  end.

Definition lastIndexFunc (s : string) (f : Z -> bool) (truth : bool) : option nat :=
  lastIndexFunc_from (S (String.length s)) s (String.length s) f truth.

Definition TrimLeftFunc (s : string) (f : Z -> bool) : string :=
  match indexFunc s f false with
  | None => EmptyString
  | Some i => utf8.drop i s
  end.

Definition TrimRightFunc (s : string) (f : Z -> bool) : string :=
  match lastIndexFunc s f false with
  | Some i =>
      if utf8.RuneSelf <=? utf8.at_ s i then
        let '(_, wid) := utf8.DecodeRuneInString (utf8.drop i s) in
        utf8.take (i + wid) s
      else utf8.take (i + 1) s
  | None => utf8.take 0 s
  end.

Definition TrimFunc (s : string) (f : Z -> bool) : string :=
  TrimRightFunc (TrimLeftFunc s f) f.

(** The two loops of [TrimSpace]: the ASCII fast path, which falls back to
    the Unicode functions at the first byte that is not ASCII. *)
Inductive Scan : Set :=
  | Stopped (i : nat)
  | NonASCII (i : nat).

(** [rest] is [s[start:]]. *)
Fixpoint scan_start (rest : string) (start : nat) : Scan :=
  match rest with
  | EmptyString => Stopped start
  | String c rest' =>
      if utf8.RuneSelf <=? byte_val c then NonASCII start
      else if asciiSpace (byte_val c) then scan_start rest' (S start)
      else Stopped start
  end.

Fixpoint scan_stop (s : string) (start stop : nat) : Scan :=
  match stop with
  | O => Stopped stop
  | S stop' =>
      if (start <? stop)%nat then
        let c := utf8.at_ s stop' in
        if utf8.RuneSelf <=? c then NonASCII stop
        else if asciiSpace c then scan_stop s start stop'
        else Stopped stop
      else Stopped stop
  end.

Definition TrimSpace (s : string) : string :=
  match scan_start s 0 with
  | NonASCII start => TrimFunc (utf8.drop start s) unicode.IsSpace
  | Stopped start =>
      match scan_stop s start (String.length s) with
      | NonASCII stop =>
          TrimRightFunc (utf8.drop start (utf8.take stop s)) unicode.IsSpace
      | Stopped stop => utf8.drop start (utf8.take stop s)
      end
  end.

(** [Split(s, sep)] for a separator of one byte: the fields between the
    separators, one more than there are separators. *)
Fixpoint Split (s : string) (sep : ascii) : list string :=
  match s with
  | EmptyString => [EmptyString]
  | String c rest =>
      if Ascii.eqb c sep then EmptyString :: Split rest sep
      else
        match Split rest sep with
        | f :: fs => String c f :: fs
        | [] => [String c EmptyString]
        end
  end.

End strings.

Definition bytes (l : list Z) : string :=
  string_of_list_ascii (map (fun b => ascii_of_N (Z.to_N b)) l).

(** ** Package time: Parse with the layout of [parseDateTime] *)

Module time.

(** A [Time] the layout can produce: a civil date and clock time in UTC (the
    layout has no zone), as [Date(year, month, day, hour, min, sec, nsec, UTC)]
    receives them. *)
Record Time : Set := Date {
  Year : Z; Month : Z; Day : Z;
  Hour : Z; Minute : Z; Second : Z; Nanosecond : Z }.

(** The elements [nextStdChunk] finds in a layout, those of this layout. *)
Inductive Std : Set :=
  | stdLongYear       (* "2006" *)
  | stdZeroMonth      (* "01" *)
  | stdZeroDay        (* "02" *)
  | stdHour           (* "15" *)
  | stdZeroMinute     (* "04" *)
  | stdZeroSecond.    (* "05" *)

(** The layout ["2006/01/02 15:04:05"] as [nextStdChunk] cuts it: each
    element with the literal prefix before it; nothing follows the last. *)
Definition layout : list (string * Std) :=
  [ ("", stdLongYear); ("/", stdZeroMonth); ("/", stdZeroDay);
    (" ", stdHour); (":", stdZeroMinute); (":", stdZeroSecond) ].

Definition isDigit_at (s : string) (i : nat) : bool :=
  match String.get i s with
  | Some c => isDigit c
  | None => false
  end.

Fixpoint cutspace (s : string) : string :=
  match s with
  | String c rest => if Ascii.eqb c " " then cutspace rest else s
  | EmptyString => s
  end.

(** [skip(value, prefix)]: a space of the prefix stands for any run of spaces
    of the value, every other byte for itself. *)
Fixpoint skip_loop (fuel : nat) (value prefix : string) : option string :=
  match prefix with
  | EmptyString => Some value
  | String p prefix' =>
      match fuel with
      | O => None
      | S fuel' =>
          if Ascii.eqb p " " then
            match value with
            | String v _ =>
                if negb (Ascii.eqb v " ") then None
                else skip_loop fuel' (cutspace value) (cutspace prefix)
            | EmptyString => skip_loop fuel' (cutspace value) (cutspace prefix)
            end
          else
            match value with
            | String v value' =>
                if Ascii.eqb v p then skip_loop fuel' value' prefix' else None
            | EmptyString => None
            end
      end
  end.

Definition skip (value prefix : string) : option string :=
  skip_loop (String.length prefix) value prefix.

(** [leadingInt(s)]: the leading digits of [s] as a number and the rest;
    [None] when the number passes [1<<63]. *)
Fixpoint leadingInt_loop (s : string) (x : Z) : option (Z * string) :=
  match s with
  | EmptyString => Some (x, s)
  | String c rest =>
      if negb (isDigit c) then Some (x, s)
      else if 2 ^ 63 / 10 <? x then None
      else
        let x' := x * 10 + (byte_val c - 48) in
        if 2 ^ 63 <? x' then None else leadingInt_loop rest x'
  end.

Definition leadingInt (s : string) : option (Z * string) := leadingInt_loop s 0.

(** [atoi(s)] of package time. *)
Definition atoi (s : string) : option Z :=
  let '(neg, s1) :=
    match s with
    | String c rest =>
        if Ascii.eqb c "-" || Ascii.eqb c "+" then (Ascii.eqb c "-", rest)
        else (false, s)
    | EmptyString => (false, s)
    end in
  match leadingInt s1 with
  | Some (q, EmptyString) => Some (if neg then - q else q)
  | _ => None
  end.

(** [getnum(s, fixed)]: one or two digits, exactly two when [fixed]. *)
Definition getnum (s : string) (fixed : bool) : option (Z * string) :=
  if negb (isDigit_at s 0) then None
  else if negb (isDigit_at s 1) then
    if fixed then None else Some (utf8.at_ s 0 - 48, utf8.drop 1 s)
  else Some ((utf8.at_ s 0 - 48) * 10 + (utf8.at_ s 1 - 48), utf8.drop 2 s).

Definition commaOrPeriod (b : Z) : bool := (b =? 46) || (b =? 44).

(** The end of the run of digits that starts at [n]. *)
Fixpoint digits_end (fuel : nat) (value : string) (n : nat) : nat :=
  match fuel with
  | O => n
  | S fuel' =>
      if (n <? String.length value)%nat && isDigit_at value n
      then digits_end fuel' value (S n) else n
  end.

(** [parseNanoseconds(value, nbytes)]: digits past the ninth are dropped. *)
Definition parseNanoseconds (value : string) (nbytes : nat) : option Z :=
  if negb (commaOrPeriod (utf8.at_ value 0)) then None
  else
    let value := if (10 <? nbytes)%nat then utf8.take 10 value else value in
    let nbytes := if (10 <? nbytes)%nat then 10%nat else nbytes in
    match atoi (utf8.take (nbytes - 1) (utf8.drop 1 value)) with
    | None => None
    | Some ns =>
        if ns <? 0 then None
        else Some (ns * 10 ^ Z.of_nat (10 - nbytes))
    end.

Definition isLeap (year : Z) : bool :=
  (year mod 4 =? 0) && (negb (year mod 100 =? 0) || (year mod 400 =? 0)).

Definition daysBefore : list Z :=
  [0; 31; 59; 90; 120; 151; 181; 212; 243; 273; 304; 334; 365].

Definition daysIn (m year : Z) : Z :=
  if (m =? 2) && isLeap year then 29
  else nth (Z.to_nat m) daysBefore 0 - nth (Z.to_nat (m - 1)) daysBefore 0.

(** One element of the layout read from [value] into the fields parsed so
    far; [None] is an error, a bad format or a value out of range alike. *)
Definition parse_std (std : Std) (value : string) (t : Time)
    : option (Time * string) :=
  let '(Date year month day hour min sec nsec) := t in
  match std with
  | stdLongYear =>
      if (String.length value <? 4)%nat || negb (isDigit_at value 0) then None
      else
        match atoi (utf8.take 4 value) with
        | Some y => Some (Date y month day hour min sec nsec, utf8.drop 4 value)
        | None => None
        end
  | stdZeroMonth =>
      match getnum value true with
      | Some (m, value') =>
          if (m <=? 0) || (12 <? m) then None
          else Some (Date year m day hour min sec nsec, value')
      | None => None
      end
  | stdZeroDay =>
      (* any one- or two-digit day here, validated at the end *)
      match getnum value true with
      | Some (d, value') => Some (Date year month d hour min sec nsec, value')
      | None => None
      end
  | stdHour =>
      match getnum value false with
      | Some (h, value') =>
          if (h <? 0) || (24 <=? h) then None
          else Some (Date year month day h min sec nsec, value')
      | None => None
      end
  | stdZeroMinute =>
      match getnum value true with
      | Some (mi, value') =>
          if (mi <? 0) || (60 <=? mi) then None
          else Some (Date year month day hour mi sec nsec, value')
      | None => None
      end
  | stdZeroSecond =>
      match getnum value true with
      | Some (s, value') =>
          if (s <? 0) || (60 <=? s) then None
          else if (2 <=? String.length value')%nat
                  && commaOrPeriod (utf8.at_ value' 0) && isDigit_at value' 1
          then
            (* a fractional second in the input, none in the layout *)
            let n := digits_end (String.length value') value' 2 in
            match parseNanoseconds value' n with
            | Some ns => Some (Date year month day hour min s ns, utf8.drop n value')
            | None => None
            end
          else Some (Date year month day hour min s nsec, value')
      | None => None
      end
  end.

Fixpoint parse_chunks (chunks : list (string * Std)) (value : string) (t : Time)
    : option Time :=
  match chunks with
  | [] =>
      (* end of the layout: extra text is an error *)
      if (String.length value =? 0)%nat then Some t else None
  | (prefix, std) :: chunks' =>
      match skip value prefix with
      | None => None
      | Some value1 =>
          match parse_std std value1 t with
          | None => None
          | Some (t', value2) => parse_chunks chunks' value2 t'
          end
      end
  end.

(** [time.Parse("2006/01/02 15:04:05", value)].  The layout sets every
    field but the nanoseconds, which stay 0 unless the text has a fractional
    second; the day is checked against the month at the end. *)
Definition Parse (value : string) : option Time :=
  match parse_chunks layout value (Date 0 1 1 0 0 0 0) with
  | None => None
  | Some t =>
      if (Day t <? 1) || (daysIn (Month t) (Year t) <? Day t) then None
      else Some t
  end.

(** Days from 1970-01-01 to a civil date, and [Time.Unix()]. *)
Definition days_from_civil (y m d : Z) : Z :=
  let y' := if m <=? 2 then y - 1 else y in
  let era := y' / 400 in
  let yoe := y' - era * 400 in
  let mp := (m + 9) mod 12 in
  let doy := (153 * mp + 2) / 5 + d - 1 in
  era * 146097 + (yoe * 365 + yoe / 4 - yoe / 100 + doy) - 719468.

Definition Unix (t : Time) : Z :=
  days_from_civil (Year t) (Month t) (Day t) * 86400
  + Hour t * 3600 + Minute t * 60 + Second t.

End time.

(** ** Floating point

    [strconv.ParseFloat] and the conversion [float32(f)] belong to the Go
    runtime.  The decoder is written over an interface that has them as
    members; what holds of the decoder for each implementation is stated so,
    and [go_floats] below is the implementation with the IEEE 754 formats. *)

Class Floats : Type := {
  float64 : Type;
  float32 : Type;
  (** the constant [0] of type [float32] *)
  float32_zero : float32;
  (** the conversion [float32(f)] *)
  float32_of_float64 : float64 -> float32;
  (** [strconv.ParseFloat(s, bitSize)] *)
  strconv_ParseFloat : string -> Z -> float64 * option strconv.Err
}.

(** ** main.go: the decoder *)

Section Decoder.

Context {FL : Floats}.

(** [int32(i)]: the low 32 bits of [i], read as a signed number. *)
Definition int32 (i : Z) : Z := (i + 2 ^ 31) mod 2 ^ 32 - 2 ^ 31.

Record SBS1Message : Type := {
  Timestamp : string;
  MessageType : string;
  TransmissionType : Z;
  SessionID : string;
  AircraftID : string;
  Icao24 : string;
  FlightID : string;
  GeneratedDate : option time.Time;
  LoggedDate : option time.Time;
  Callsign : string;
  Altitude : Z;
  GroundSpeed : float32;
  Track : float32;
  Lat : float32;
  Lon : float32;
  VerticalRate : Z;
  Squawk : Z;
  Alert : bool;
  Emergency : bool;
  Spi : bool;
  OnGround : bool }.

(** [NewSBS1Message()]; [now] is what [time.Now().UnixNano()] returns at the
    call.  Every field but [Timestamp] has the zero value of its type. *)
Definition NewSBS1Message (now : Z) : SBS1Message := {|
  Timestamp := strconv.FormatInt now;
  MessageType := "";
  TransmissionType := 0;
  SessionID := "";
  AircraftID := "";
  Icao24 := "";
  FlightID := "";
  GeneratedDate := None;
  LoggedDate := None;
  Callsign := "";
  Altitude := 0;
  GroundSpeed := float32_zero;
  Track := float32_zero;
  Lat := float32_zero;
  Lon := float32_zero;
  VerticalRate := 0;
  Squawk := 0;
  Alert := false;
  Emergency := false;
  Spi := false;
  OnGround := false |}.

Definition parseInt (s : string) : Z :=
  match strconv.Atoi s with
  | (i, None) => int32 i
  | (_, Some _) => 0
  end.

Definition parseFloat (s : string) : float32 :=
  match strconv_ParseFloat s 32 with
  | (f, None) => float32_of_float64 f
  | (_, Some _) => float32_zero
  end.

Definition parseBool (s : string) : bool :=
  match strconv.Atoi s with
  | (b, None) => negb (b =? 0)
  | (_, Some _) => false
  end.

(** [fmt.Sprintf("%s %s", date, timeStr)] is [date ++ " " ++ timeStr]. *)
Definition parseDateTime (date timeStr : string) : option time.Time :=
  time.Parse (date ++ " " ++ timeStr)%string.

(** [parts[i]]; [Parse] reads it only past its test of [len(parts)]. *)
Definition index (parts : list string) (i : nat) : string :=
  nth i parts EmptyString.

Definition Parse (now : Z) (msg : string) : SBS1Message * bool :=
  let sbs1 := NewSBS1Message now in
  let parts := strings.Split (strings.TrimSpace msg) "," in
  if (List.length parts <? 22)%nat || negb (String.eqb (index parts 0) "MSG")
  then (sbs1, false)
  else
    ({| Timestamp := Timestamp sbs1;
        MessageType := "MSG";
        TransmissionType := parseInt (index parts 1);
        SessionID := index parts 2;
        AircraftID := index parts 3;
        Icao24 := index parts 4;
        FlightID := index parts 5;
        GeneratedDate := parseDateTime (index parts 6) (index parts 7);
        LoggedDate := parseDateTime (index parts 8) (index parts 9);
        Callsign := strings.TrimSpace (index parts 10);
        Altitude := parseInt (index parts 11);
        GroundSpeed := parseFloat (index parts 12);
        Track := parseFloat (index parts 13);
        Lat := parseFloat (index parts 14);
        Lon := parseFloat (index parts 15);
        VerticalRate := parseInt (index parts 16);
        Squawk := parseInt (index parts 17);
        Alert := parseBool (index parts 18);
        Emergency := parseBool (index parts 19);
        Spi := parseBool (index parts 20);
        OnGround := parseBool (index parts 21) |}, true).

(** ** main.go: the payload of [sendToService] *)

Record Attrs : Type := {
  attrs_message : SBS1Message;
  attrs_source : string;
  attrs_collector : string;
  attrs_parser : string }.

Record Event : Type := {
  event_parser : string;
  event_ts : string;
  event_sev : Z;
  event_attrs : Attrs }.

Record Payload : Type := {
  session : string;
  sessionInfo : list (string * string);
  events : list Event;
  threads : list string }.

Definition event_of (message : SBS1Message) : Event := {|
  event_parser := "adsb";
  event_ts := Timestamp message;
  event_sev := 3;
  event_attrs := {|
    attrs_message := message;
    attrs_source := "dump1090-fa";
    attrs_collector := "imichaelmoore/adsb-go-dataset";
    attrs_parser := "adsb" |} |}.

(** The payload built from a batch; [uuid] is what [uuid.New()] returns. *)
Definition payload_of (uuid : string) (messages : list SBS1Message) : Payload := {|
  session := uuid;
  sessionInfo := [];
  events := map event_of messages;
  threads := [] |}.

(** What the rest of [sendToService] does with the payload, the sink: it
    marshals it and posts it.  Either an error comes back (from
    [json.Marshal], [http.NewRequest] or [client.Do]) or a response whose
    body is logged whatever its status. *)
Inductive SinkResult : Set :=
  | Response (body : string)
  | SendError (err : string).

(** The world a run sees. *)
Record World : Type := {
  (** [net.Dial]: an error, or a connection, which is the lines the scanner
      yields until [Scan()] is false *)
  dial : string + list string;
  (** [time.Now().UnixNano()] at the call of [Parse] for line [n] *)
  clock : nat -> Z;
  (** [uuid.New()] in the [n]-th call of [sendToService] *)
  uuid_New : nat -> string;
  (** the sink in the [n]-th call of [sendToService] *)
  sink : nat -> Payload -> SinkResult;
  (** the largest capacity [make([]SBS1Message, 0, n)] allocates: the
      elements have to fit the address space of the runtime *)
  max_cap : Z }.

Inductive Effect : Type :=
  | Log (line : string)
  | Send (payload : Payload) (result : SinkResult)
  | Close.

(** [sendToService(messages)], the [n]-th call of a run: its effects and the
    error it returns. *)
Definition sendToService (w : World) (n : nat) (messages : list SBS1Message)
    : list Effect * option string :=
  let sending :=
    Log ("Sending " ++ strconv.FormatInt (Z.of_nat (List.length messages))
         ++ " messages to the service")%string in
  let payload := payload_of (uuid_New w n) messages in
  match sink w n payload with
  | SendError err => ([sending; Send payload (SendError err)], Some err)
  | Response body =>
      ([sending; Send payload (Response body); Log ("Response: " ++ body)%string],
       None)
  end.

(** ** main.go: the read loop of [runApp] *)

(** The state of the loop: the slice [messages], how many lines were read
    and how many times [sendToService] was called, and the effects so far. *)
Record State : Type := {
  messages : list SBS1Message;
  lines_read : nat;
  sends_done : nat;
  trace : list Effect }.

Definition log_error (prefix : string) (err : option string) : list Effect :=
  match err with
  | Some e => [Log (prefix ++ " " ++ e)%string]
  | None => []
  end.

(** One turn of [for scanner.Scan()]. *)
Definition read_line (w : World) (BATCH_SIZE : Z) (st : State) (msg : string)
    : State :=
  let '(parsed, ok) := Parse (clock w (lines_read st)) msg in
  if ok then
    let messages' := (messages st ++ [parsed])%list in
    if Z.of_nat (List.length messages') >=? BATCH_SIZE then
      let '(effects, err) := sendToService w (sends_done st) messages' in
      {| messages := [];
         lines_read := S (lines_read st);
         sends_done := S (sends_done st);
         trace := (trace st ++ effects
                   ++ log_error "Error sending messages:" err)%list |}
    else
      {| messages := messages';
         lines_read := S (lines_read st);
         sends_done := sends_done st;
         trace := trace st |}
  else
    {| messages := messages st;
       lines_read := S (lines_read st);
       sends_done := sends_done st;
       trace := trace st |}.

Definition read_loop (w : World) (BATCH_SIZE : Z) (st : State)
    (lines : list string) : State :=
  fold_left (read_line w BATCH_SIZE) lines st.

(** What is left to do when the stream has ended. *)
Definition flush_rest (w : World) (st : State) : list Effect :=
  if (0 <? List.length (messages st))%nat then
    let '(effects, err) := sendToService w (sends_done st) (messages st) in
    (effects ++ log_error "Error sending remaining messages:" err)%list
  else [].

Inductive Exit : Set :=
  | Return (err : option string)
  | Fatal                           (* [log.Fatal]: exit status 1 *)
  | Panic (msg : string).

Definition start (st_trace : list Effect) : State :=
  {| messages := []; lines_read := 0; sends_done := 0; trace := st_trace |}.

(** [runApp()]: the effects of the run and how it ends.  [make] panics on a
    capacity that is negative or too large; the deferred [conn.Close()] runs
    on every way out of the function but [log.Fatal]. *)
Definition runApp (w : World) (BATCH_SIZE : Z) : list Effect * Exit :=
  let starting := Log "Starting application..." in
  match dial w with
  | inl err =>
      ([starting; Log ("Error connecting to DUMP1090:" ++ err)%string], Fatal)
  | inr lines =>
      if (BATCH_SIZE <? 0) || (max_cap w <? BATCH_SIZE) then
        ([starting; Close], Panic "makeslice: cap out of range")
      else
        let st := read_loop w BATCH_SIZE (start [starting]) lines in
        ((trace st ++ flush_rest w st
          ++ [Log "Exiting application..."; Close])%list, Return None)
  end.

(** ** Observations of a run, in the words of the specification *)

(** The records of the accepted lines of a stream, in arrival order; line
    [k + i] is decoded at [clock (k + i)]. *)
Fixpoint accepted_records (clock : nat -> Z) (k : nat) (lines : list string)
    : list SBS1Message :=
  match lines with
  | [] => []
  | msg :: lines' =>
      let '(parsed, ok) := Parse (clock k) msg in
      if ok then parsed :: accepted_records clock (S k) lines'
      else accepted_records clock (S k) lines'
  end.

(** The flushes of a trace: the payloads handed to the sink, in order. *)
Fixpoint flushes (t : list Effect) : list Payload :=
  match t with
  | [] => []
  | Send payload _ :: t' => payload :: flushes t'
  | _ :: t' => flushes t'
  end.

(** The records a payload carries, one per event. *)
Definition records_of (p : Payload) : list SBS1Message :=
  map (fun e => attrs_message (event_attrs e)) (events p).

End Decoder.

(** The words of the specification about field texts: a text is numeric
    when it is an optional sign followed by one or more decimal digits. *)
Fixpoint all_digits (s : string) : bool :=
  match s with
  | EmptyString => true
  | String c rest => isDigit c && all_digits rest
  end.

Definition numeric_text (s : string) : bool :=
  match s with
  | EmptyString => false
  | String c rest =>
      if Ascii.eqb c "+" || Ascii.eqb c "-"
      then negb (String.eqb rest "") && all_digits rest
      else all_digits s
  end.

(** A runtime whose [ParseFloat] accepts no text, as Go's rejects the empty
    text: it stands for the Go runtime on lines whose float fields are
    empty. *)
Definition no_floats : Floats := {|
  float64 := unit;
  float32 := unit;
  float32_zero := tt;
  float32_of_float64 := fun f => f;
  strconv_ParseFloat := fun _ _ => (tt, Some strconv.ErrSyntax) |}.

(** Lines of a feed, for the examples: a position report without its float
    fields, the same with a twenty-third field, and a line of another kind. *)
Definition sample_line : string :=
  "MSG,3,1,1,A1B2C3,1,2023/05/01,12:00:00,2023/05/01,12:00:01.250, UAL123 ,35000,,,,,-64,1200,0,x,7,1".

Definition long_line : string := (sample_line ++ ",extra")%string.

Definition other_line : string := "STA,,5,179,400AE7,10103,2008/11/28,14:58:51.153,2008/11/28,14:58:51.153,RM".

(** The number a text of digits denotes, read from the left after [n], and
    the number a numeric text denotes. *)
Definition digit_val (c : ascii) : Z := byte_val c - 48.

Fixpoint decimal_from (n : Z) (s : string) : Z :=
  match s with
  | EmptyString => n
  | String c rest => decimal_from (n * 10 + digit_val c) rest
  end.

Definition signed_value (s : string) : Z :=
  match s with
  | String c rest =>
      if Ascii.eqb c "-" then - decimal_from 0 rest
      else if Ascii.eqb c "+" then decimal_from 0 rest
      else decimal_from 0 s
  | EmptyString => 0
  end.

(** A line written from its fields: [strings.Join(fields, sep)] for a
    separator of one byte; and whether a text holds a given byte. *)
Fixpoint Join (fields : list string) (sep : ascii) : string :=
  match fields with
  | [] => ""
  | [f] => f
  | f :: fields' => f ++ String sep (Join fields' sep)
  end.

Fixpoint has_byte (sep : ascii) (s : string) : bool :=
  match s with
  | EmptyString => false
  | String c rest => Ascii.eqb c sep || has_byte sep rest
  end.

(** The words of the specification about dates: the pattern
    [YYYY/MM/DD HH:MM:SS] read to the letter, nineteen bytes that are digits
    but for the two slashes, the space and the two colons; and the civil
    time such a text denotes. *)
Definition read_pattern (s : string) : option time.Time :=
  match s with
  | String y1 (String y2 (String y3 (String y4 (String p1
    (String m1 (String m2 (String p2
    (String d1 (String d2 (String p3
    (String h1 (String h2 (String p4
    (String i1 (String i2 (String p5
    (String s1 (String s2 EmptyString)))))))))))))))))) =>
      if forallb isDigit [y1; y2; y3; y4; m1; m2; d1; d2; h1; h2; i1; i2; s1; s2]
         && Ascii.eqb p1 "/" && Ascii.eqb p2 "/" && Ascii.eqb p3 " "
         && Ascii.eqb p4 ":" && Ascii.eqb p5 ":"
      then
        Some (time.Date
                (((digit_val y1 * 10 + digit_val y2) * 10 + digit_val y3) * 10
                 + digit_val y4)
                (digit_val m1 * 10 + digit_val m2)
                (digit_val d1 * 10 + digit_val d2)
                (digit_val h1 * 10 + digit_val h2)
                (digit_val i1 * 10 + digit_val i2)
                (digit_val s1 * 10 + digit_val s2)
                0)
      else None
  | _ => None
  end.

Definition matches_pattern (s : string) : bool :=
  match read_pattern s with
  | Some _ => true
  | None => false
  end.

(** A month of the year, a day of that month, and a time of the day. *)
Definition valid_time (t : time.Time) : bool :=
  (1 <=? time.Month t) && (time.Month t <=? 12)
  && (time.Hour t <? 24) && (time.Minute t <? 60) && (time.Second t <? 60)
  && (1 <=? time.Day t) && (time.Day t <=? time.daysIn (time.Month t) (time.Year t)).

(** The words of the specification about batches: a stream of records cut
    into batches, a batch closed when it has [batchSize] records, and what
    is left in the buffer when the stream ends. *)
Fixpoint cut {A : Type} (batchSize : Z) (buffer records : list A)
    : list (list A) * list A :=
  match records with
  | [] => ([], buffer)
  | r :: records' =>
      let buffer' := (buffer ++ [r])%list in
      if Z.of_nat (List.length buffer') >=? batchSize then
        let '(batches, rest) := cut batchSize [] records' in
        (buffer' :: batches, rest)
      else cut batchSize buffer' records'
  end.

(** The payloads of consecutive batches, the first one made in call [n] of
    [sendToService]. *)
Fixpoint payloads {FL : Floats} (w : World) (n : nat)
    (batches : list (list SBS1Message)) : list Payload :=
  match batches with
  | [] => []
  | b :: batches' => payload_of (uuid_New w n) b :: payloads w (S n) batches'
  end.

(** Worlds for the examples: a feed of the given lines, a clock that ticks
    once a line, and a sink that answers as [answer] says. *)
Definition feed (lines : list string) (answer : nat -> SinkResult)
    : World (FL := no_floats) := {|
  dial := inr lines;
  clock := fun n => 1682942400000000000 + Z.of_nat n;
  uuid_New := fun n => ("session-" ++ strconv.FormatInt (Z.of_nat n))%string;
  sink := fun n _ => answer n;
  max_cap := 2 ^ 40 |}.

Definition sink_ok (n : nat) : SinkResult := Response "{}".

Definition sink_down (n : nat) : SinkResult := SendError "connection refused".

(** A line whose optional fields are damaged. *)
Definition garbled_line : string :=
  "MSG,x,1,1,A1B2C3,1,garbage,12:00:00,2023/05/01,12:00:00,,3500O,,,,,,99999999999999999999,yes,0,-1,+0".

(** Streams with two, three and five accepted lines. *)
Definition lines_two : list string := [sample_line; other_line; long_line].

Definition lines_three : list string :=
  [sample_line; other_line; long_line; ""; sample_line].

Definition lines_five : list string :=
  [sample_line; long_line; other_line; sample_line; sample_line; long_line].

(** ** Floating point as the Go runtime has it

    A [float64] and a [float32] are IEEE 754 numbers of the formats binary64
    and binary32: [spec_float] with a mantissa of 53 bits below the exponent
    1024, and of 24 bits below 128.  The conversion [float32(f)] rounds to
    the nearest number of binary32, to the even one of two that are as near;
    what is too large becomes an infinity.  [strconv.ParseFloat] stays a
    parameter. *)

Definition binary64 (f : spec_float) : bool := valid_binary 53 1024 f.

Definition binary32 (f : spec_float) : bool := valid_binary 24 128 f.

(** [float32(f)] *)
Definition narrow32 (f : spec_float) : spec_float :=
  match f with
  | S754_finite s m e => binary_round 24 128 s m e
  | _ => f
  end.

Definition go_floats (ParseFloat : string -> Z -> spec_float * option strconv.Err)
    : Floats := {|
  float64 := spec_float;
  float32 := spec_float;
  float32_zero := S754_zero false;
  float32_of_float64 := narrow32;
  strconv_ParseFloat := ParseFloat |}.

(** The number [m * 2^e] in binary64. *)
Definition float64_of (m e : Z) : spec_float := binary_normalize 53 1024 m e false.

(** What [ParseFloat(s, 32)] returns on the float texts of the examples,
    the nearest number of binary32 as a [float64]: [451.5 = 903 * 2^-1],
    [51.5 = 103 * 2^-1], and for [-0.1] the number [-13421773 * 2^-27].  The
    empty text is a syntax error. *)
Definition sample_ParseFloat (s : string) (bitSize : Z)
    : spec_float * option strconv.Err :=
  if String.eqb s "451.5" then (float64_of 903 (-1), None)
  else if String.eqb s "51.5" then (float64_of 103 (-1), None)
  else if String.eqb s "-0.1" then (float64_of (-13421773) (-27), None)
  else (S754_zero false, Some strconv.ErrSyntax).

Definition position_line : string :=
  "MSG,3,1,1,A1B2C3,1,2023/05/01,12:00:00,2023/05/01,12:00:01.250,UAL123,35000,451.5,,51.5,-0.1,-64,1200,0,0,0,0".

(** What [k] shifts make of a record: the mantissa without its [k] low
    bits, the last bit shifted out, and whether a bit below it was set. *)
Definition shifted (k : Z) (mrs res : shr_record) : Prop :=
  shr_m res = shr_m mrs / 2 ^ k
  /\ shr_r res = Z.testbit (shr_m mrs) (k - 1)
  /\ shr_s res
     = shr_r mrs || shr_s mrs || negb (shr_m mrs mod 2 ^ (k - 1) =? 0).

(** The words of the specification about dates, as amended: the texts the
    layout reads.  A run of spaces, the nanoseconds of a fraction (its first
    nine digits, as if zeros followed them), a fraction (nothing, or a period
    or a comma and one digit or more), a time of the day (an hour of one or
    two digits, [:MM:SS] and a fraction) and the whole text. *)
Fixpoint drop_spaces (s : string) : string :=
  match s with
  | String c rest => if Ascii.eqb c " " then drop_spaces rest else s
  | EmptyString => s
  end.

Definition fraction_nanos (ds : string) : Z :=
  decimal_from 0 (utf8.take 9 ds) * 10 ^ Z.of_nat (9 - String.length ds).

Definition read_fraction (s : string) : option Z :=
  match s with
  | EmptyString => Some 0
  | String c ds =>
      if (Ascii.eqb c "." || Ascii.eqb c ",")
         && negb (String.eqb ds "") && all_digits ds
      then Some (fraction_nanos ds)
      else None
  end.

Definition read_hour (s : string) : option (Z * string) :=
  match s with
  | String h1 rest =>
      if isDigit h1 then
        match rest with
        | String h2 rest' =>
            if isDigit h2 then Some (digit_val h1 * 10 + digit_val h2, rest')
            else Some (digit_val h1, rest)
        | EmptyString => Some (digit_val h1, rest)
        end
      else None
  | EmptyString => None
  end.

Definition read_clock (s : string) : option (Z * Z * Z * Z) :=
  match read_hour s with
  | Some (hour,
          String p4 (String i1 (String i2 (String p5 (String s1 (String s2
            frac)))))) =>
      if Ascii.eqb p4 ":" && isDigit i1 && isDigit i2
         && Ascii.eqb p5 ":" && isDigit s1 && isDigit s2
      then
        match read_fraction frac with
        | Some ns =>
            Some (hour, digit_val i1 * 10 + digit_val i2,
                  digit_val s1 * 10 + digit_val s2, ns)
        | None => None
        end
      else None
  | _ => None
  end.

Definition read_layout (s : string) : option time.Time :=
  match s with
  | String y1 (String y2 (String y3 (String y4 (String p1
    (String m1 (String m2 (String p2
    (String d1 (String d2 (String p3 rest)))))))))) =>
      if isDigit y1 && isDigit y2 && isDigit y3 && isDigit y4
         && Ascii.eqb p1 "/" && isDigit m1 && isDigit m2
         && Ascii.eqb p2 "/" && isDigit d1 && isDigit d2
         && Ascii.eqb p3 " "
      then
        match read_clock (drop_spaces rest) with
        | Some (hour, minute, second, ns) =>
            let t :=
              time.Date
                (((digit_val y1 * 10 + digit_val y2) * 10 + digit_val y3) * 10
                 + digit_val y4)
                (digit_val m1 * 10 + digit_val m2)
                (digit_val d1 * 10 + digit_val d2)
                hour minute second ns in
            if valid_time t then Some t else None
        | None => None
        end
      else None
  | _ => None
  end.

(** What the layout makes of the text after the seconds: the fraction it
    reads when there is one, with nothing after it. *)
Definition after_seconds (frac : string) : option Z :=
  if (2 <=? String.length frac)%nat
     && time.commaOrPeriod (utf8.at_ frac 0) && time.isDigit_at frac 1
  then
    let n := time.digits_end (String.length frac) frac 2 in
    match time.parseNanoseconds frac n with
    | Some ns =>
        if (String.length (utf8.drop n frac) =? 0)%nat then Some ns else None
    | None => None
    end
  else if (String.length frac =? 0)%nat then Some 0 else None.

Section EndOfStream.

Context {FL : Floats}.

(** The state when [runApp] is past its last [if]: the flush at the end of
    the stream sends the slice and leaves it as it is, there is no
    [messages = messages[:0]] after it. *)
Definition end_of_stream (w : World) (st : State) : State :=
  if (0 <? List.length (messages st))%nat then
    let '(effects, err) := sendToService w (sends_done st) (messages st) in
    {| messages := messages st;
       lines_read := lines_read st;
       sends_done := S (sends_done st);
       trace := (trace st ++ effects
                 ++ log_error "Error sending remaining messages:" err)%list |}
  else st.

End EndOfStream.

(** ** Further observations *)

(** How many times a byte occurs in a text. *)
Fixpoint count_byte (sep : ascii) (s : string) : nat :=
  match s with
  | EmptyString => 0
  | String c rest =>
      ((if Ascii.eqb c sep then 1 else 0) + count_byte sep rest)%nat
  end.

(** The bytes of a text before its first separator. *)
Fixpoint first_field (sep : ascii) (s : string) : string :=
  match s with
  | EmptyString => EmptyString
  | String c rest =>
      if Ascii.eqb c sep then EmptyString else String c (first_field sep rest)
  end.

(** A text of ASCII white space only. *)
Fixpoint ascii_spaces (s : string) : bool :=
  match s with
  | EmptyString => true
  | String c rest => strings.asciiSpace (byte_val c) && ascii_spaces rest
  end.

Section Outcomes.

Context {FL : Floats}.

(** A trace in which every answer of the sink is logged right after it: a
    response with its body, an error with its text. *)
Inductive outcomes_logged : list Effect -> Prop :=
  | logged_nil : outcomes_logged []
  | logged_log line t : outcomes_logged t -> outcomes_logged (Log line :: t)
  | logged_close t : outcomes_logged t -> outcomes_logged (Close :: t)
  | logged_response payload body t :
      outcomes_logged t ->
      outcomes_logged
        (Send payload (Response body) :: Log ("Response: " ++ body) :: t)
  | logged_error payload err prefix t :
      prefix = "Error sending messages:"
      \/ prefix = "Error sending remaining messages:" ->
      outcomes_logged t ->
      outcomes_logged
        (Send payload (SendError err) :: Log (prefix ++ " " ++ err) :: t).

End Outcomes.

(** ** main.go: the configuration and [main] *)

(** The five variables of the configuration. *)
Record Config : Set := {
  BATCH_SIZE : Z;
  DATASET_API_WRITE_TOKEN : string;
  DUMP1090_HOST : string;
  DUMP1090_PORT : string;
  COLLECTOR_SOURCE : string }.

(** What [app.Run(os.Args)] makes of the arguments and the environment
    before it calls the action: an error of its own, nothing to run (the
    help was asked for), or the five variables set from the flags, the
    environment and the defaults.  What the library prints itself is not
    part of the trace. *)
Inductive Parsed : Set :=
  | BadUsage (err : string)
  | NoAction
  | Configured (cfg : Config).

Definition token_error : string :=
  "dataset_api_write_token is not set. Please provide it as a command-line argument or set the DATASET_API_WRITE_TOKEN environment variable. Example: --dataset_api_write_token=YOUR_TOKEN or export DATASET_API_WRITE_TOKEN=YOUR_TOKEN".

Definition host_error : string :=
  "dump1090_host is not set. Please provide it as a command-line argument or set the DUMP1090_HOST environment variable. Example: --dump1090_host=YOUR_HOST or export DUMP1090_HOST=YOUR_HOST".

Section Main.

Context {FL : Floats}.

(** The world a run meets when it dials [address] and posts with the bearer
    token [token]. *)
Definition Env : Type := string -> string -> World.

(** The [Action] of the application. *)
Definition Action (env : Env) (cfg : Config) : list Effect * Exit :=
  if String.eqb (DATASET_API_WRITE_TOKEN cfg) "" then
    ([], Return (Some token_error))
  else if String.eqb (DUMP1090_HOST cfg) "" then
    ([], Return (Some host_error))
  else
    runApp (env (DUMP1090_HOST cfg ++ ":" ++ DUMP1090_PORT cfg)%string
                (DATASET_API_WRITE_TOKEN cfg))
           (BATCH_SIZE cfg).

(** [initializeConfiguration()]: an error of [app.Run] goes to
    [log.Fatal]. *)
Definition initializeConfiguration (env : Env) (parsed : Parsed)
    : list Effect * Exit :=
  let '(t, exit) :=
    match parsed with
    | BadUsage err => ([], Return (Some err))
    | NoAction => ([], Return None)
    | Configured cfg => Action env cfg
    end in
  match exit with
  | Return (Some err) => ((t ++ [Log err])%list, Fatal)
  | _ => (t, exit)
  end.

Definition main (env : Env) (parsed : Parsed) : list Effect * Exit :=
  initializeConfiguration env parsed.

End Main.

(** * Properties *)

(** ** The library functions on sample inputs *)

Example TrimSpace_examples :
  strings.TrimSpace "  abc  " = "abc" /\
  strings.TrimSpace "" = "" /\
  strings.TrimSpace "   " = "" /\
  strings.TrimSpace " a b " = "a b" /\
  strings.TrimSpace (bytes [9;10;13;32;65;11;12]) = "A" /\
  strings.TrimSpace (bytes [0xC2;0xA0;65;0xE2;0x80;0x83;32]) = "A" /\
  strings.TrimSpace (bytes [32;0xC2;65;0xC2]) = bytes [0xC2;65;0xC2] /\
  strings.TrimSpace (bytes [65;0xE3;0x80;0x80]) = "A" /\
  strings.TrimSpace (bytes [65;0xE3;0x80;0x81;32]) = bytes [65;0xE3;0x80;0x81] /\
  strings.TrimSpace (bytes [0xE1;0x9A;0x80;0xC2;0x85]) = "" /\
  strings.TrimSpace (bytes [0xE1;0x9A;0xC2;0x85]) = bytes [0xE1;0x9A] /\
  strings.TrimSpace (bytes [65;0xFF;32;32]) = bytes [65;0xFF].
Proof. repeat split; vm_compute; reflexivity. Qed.

Example Split_examples :
  strings.Split "" "," = [""] /\
  strings.Split "a,b,,c" "," = ["a"; "b"; ""; "c"] /\
  strings.Split "," "," = [""; ""] /\
  strings.Split "MSG" "," = ["MSG"].
Proof. repeat split; vm_compute; reflexivity. Qed.

Example time_Parse_examples :
  time.Parse "2023/05/01 12:00:00" = Some (time.Date 2023 5 1 12 0 0 0) /\
  time.Parse "garbage 12:00:00" = None /\
  time.Parse "2023/05/01 9:00:00" = Some (time.Date 2023 5 1 9 0 0 0) /\
  time.Parse "2023/05/01   12:00:00" = Some (time.Date 2023 5 1 12 0 0 0) /\
  time.Parse "2023/05/01 12:00:00.250" = Some (time.Date 2023 5 1 12 0 0 250000000) /\
  time.Parse "2023/05/01 12:00:00,5" = Some (time.Date 2023 5 1 12 0 0 500000000) /\
  time.Parse "2023/05/01 12:00:00.1234567891" = Some (time.Date 2023 5 1 12 0 0 123456789) /\
  time.Parse "2023/05/01 12:00:00." = None /\
  time.Parse "2023/05/01 12:00:00 " = None /\
  time.Parse "2023/5/01 12:00:00" = None /\
  time.Parse "2023/02/29 12:00:00" = None /\
  time.Parse "2024/02/29 12:00:00" = Some (time.Date 2024 2 29 12 0 0 0) /\
  time.Parse "2023/13/01 12:00:00" = None /\
  time.Parse "2023/05/01 24:00:00" = None /\
  time.Parse "2023/05/01 12:00:60" = None /\
  time.Parse "2023/05/0112:00:00" = None /\
  time.Parse " 12:00:00" = None /\
  time.Parse "" = None /\
  time.Unix (time.Date 2023 5 1 12 0 0 0) = 1682942400 /\
  time.Unix (time.Date 1970 1 1 0 0 0 0) = 0 /\
  time.Unix (time.Date 2000 3 1 0 0 0 0) = 951868800.
Proof. repeat split; vm_compute; reflexivity. Qed.

Example Atoi_examples :
  strconv.Atoi "35000" = (35000, None) /\
  strconv.Atoi "-64" = (-64, None) /\
  strconv.Atoi "+7" = (7, None) /\
  strconv.Atoi "" = (0, Some strconv.ErrSyntax) /\
  strconv.Atoi "-" = (0, Some strconv.ErrSyntax) /\
  strconv.Atoi "12a" = (0, Some strconv.ErrSyntax) /\
  strconv.Atoi " 1" = (0, Some strconv.ErrSyntax) /\
  strconv.Atoi "1_000" = (0, Some strconv.ErrSyntax) /\
  strconv.Atoi "0x10" = (0, Some strconv.ErrSyntax) /\
  strconv.Atoi "9223372036854775807" = (9223372036854775807, None) /\
  strconv.Atoi "9223372036854775808" = (9223372036854775807, Some strconv.ErrRange) /\
  strconv.Atoi "-9223372036854775808" = (-9223372036854775808, None) /\
  strconv.Atoi "-9223372036854775809" = (-9223372036854775808, Some strconv.ErrRange) /\
  strconv.Atoi "99999999999999999999999" = (9223372036854775807, Some strconv.ErrRange).
Proof. repeat split; vm_compute; reflexivity. Qed.

Example FormatInt_examples :
  strconv.FormatInt 0 = "0" /\
  strconv.FormatInt 1682942400000000000 = "1682942400000000000" /\
  strconv.FormatInt (-42) = "-42" /\ strconv.FormatInt 1000 = "1000".
Proof. repeat split; vm_compute; reflexivity. Qed.

(** ** Bytes and integer texts *)

Lemma byte_val_range (c : ascii) : 0 <= byte_val c < 256.
Proof.
  unfold byte_val. pose proof (N_ascii_bounded c). lia.
Qed.

Lemma isDigit_spec (c : ascii) :
  isDigit c = true <-> 48 <= byte_val c <= 57.
Proof.
  unfold isDigit, byte_in. rewrite andb_true_iff, !Z.leb_le. tauto.
Qed.

Lemma fast_digit_spec (c : ascii) :
  (9 <? (byte_val c - 48) mod 256) = negb (isDigit c).
Proof.
  pose proof (byte_val_range c) as Hc.
  destruct (isDigit c) eqn:Hd; cbn [negb].
  - apply isDigit_spec in Hd. rewrite Z.mod_small by lia. lia.
  - apply Z.ltb_lt.
    destruct (Z_lt_ge_dec (byte_val c) 48) as [Hlt | Hge].
    + replace ((byte_val c - 48) mod 256) with (byte_val c + 208); [lia |].
      apply Z.mod_unique with (q := -1); lia.
    + rewrite Z.mod_small by lia.
      destruct (Z_le_gt_dec (byte_val c) 57) as [Hle | Hgt]; [| lia].
      assert (isDigit c = true) by (apply isDigit_spec; lia). congruence.
Qed.

Lemma Atoi_fast_digits_all (s : string) :
  forall n m, strconv.Atoi_fast_digits s n = Some m -> all_digits s = true.
Proof.
  induction s as [| c rest IH]; intros n m H; [reflexivity |].
  cbn [strconv.Atoi_fast_digits all_digits] in *.
  rewrite fast_digit_spec in H.
  destruct (isDigit c); cbn [negb andb] in *; [eauto | discriminate].
Qed.

Lemma ParseUint_digits_all (s : string) :
  forall n v, strconv.ParseUint_digits s n = (v, None) -> all_digits s = true.
Proof.
  induction s as [| c rest IH]; intros n v H; [reflexivity |].
  cbn [strconv.ParseUint_digits all_digits] in *.
  destruct (isDigit c); cbn [andb].
  - destruct (strconv.maxUint64 / 10 + 1 <=? n); [discriminate |].
    match type of H with
    | (if ?b then _ else _) = _ => destruct b; [discriminate | eauto]
    end.
  - destruct ((97 <=? strconv.lower c) && (strconv.lower c <=? 122));
      discriminate.
Qed.

Lemma ParseUint_digits_range (s : string) :
  forall n v, strconv.ParseUint_digits s n = (v, Some strconv.ErrRange) ->
              v = strconv.maxUint64.
Proof.
  induction s as [| c rest IH]; intros n v H; [discriminate |].
  cbn [strconv.ParseUint_digits] in H.
  destruct (isDigit c).
  - destruct (strconv.maxUint64 / 10 + 1 <=? n); [congruence |].
    match type of H with
    | (if ?b then _ else _) = _ => destruct b; [congruence | eauto]
    end.
  - destruct ((97 <=? strconv.lower c) && (strconv.lower c <=? 122));
      discriminate.
Qed.

Lemma ParseUint_ok (t : string) (u : Z) :
  strconv.ParseUint t = (u, None) ->
  negb (String.eqb t "") && all_digits t = true.
Proof.
  destruct t as [| c' t']; [discriminate |].
  intros Hu. cbn [String.eqb negb andb]. eapply ParseUint_digits_all, Hu.
Qed.

Lemma ParseUint_range (t : string) (u : Z) :
  strconv.ParseUint t = (u, Some strconv.ErrRange) -> u = strconv.maxUint64.
Proof.
  destruct t as [| c' t']; [discriminate |].
  apply ParseUint_digits_range.
Qed.

Lemma ParseInt_ok_numeric (s : string) (v : Z) :
  strconv.ParseInt s = (v, None) -> numeric_text s = true.
Proof.
  destruct s as [| c rest]; [discriminate |].
  unfold strconv.ParseInt, numeric_text.
  destruct (Ascii.eqb c "+") eqn:Hplus; cbn [orb].
  - destruct (strconv.ParseUint rest) as [un [[|] |]] eqn:HU;
      cbn [negb andb]; intros H.
    + discriminate.
    + apply ParseUint_range in HU. subst un. vm_compute in H. discriminate.
    + eapply ParseUint_ok, HU.
  - destruct (Ascii.eqb c "-") eqn:Hminus.
    + destruct (strconv.ParseUint rest) as [un [[|] |]] eqn:HU;
        cbn [negb andb]; intros H.
      * discriminate.
      * apply ParseUint_range in HU. subst un. vm_compute in H. discriminate.
      * eapply ParseUint_ok, HU.
    + destruct (strconv.ParseUint (String c rest)) as [un [[|] |]] eqn:HU;
        cbn [negb andb]; intros H.
      * discriminate.
      * apply ParseUint_range in HU. subst un. vm_compute in H. discriminate.
      * apply ParseUint_ok in HU. cbn [String.eqb negb andb] in HU. exact HU.
Qed.

(** A text [Atoi] accepts is numeric. *)
Lemma Atoi_ok_numeric (s : string) (v : Z) :
  strconv.Atoi s = (v, None) -> numeric_text s = true.
Proof.
  unfold strconv.Atoi.
  destruct ((0 <? Z.of_nat (String.length s))
            && (Z.of_nat (String.length s) <? 19));
    [| apply ParseInt_ok_numeric].
  destruct s as [| c rest]; [discriminate |].
  unfold numeric_text.
  destruct (Ascii.eqb c "-") eqn:Hminus; cbn [orb andb].
  - rewrite orb_true_r.
    destruct rest as [| c' rest']; [discriminate |].
    cbn [String.eqb negb andb].
    replace (Z.of_nat (String.length (String c' rest')) <? 1) with false
      by (symmetry; apply Z.ltb_ge; cbn [String.length]; lia).
    destruct (strconv.Atoi_fast_digits (String c' rest') 0) eqn:Hd;
      [| discriminate].
    intros _. eapply Atoi_fast_digits_all, Hd.
  - rewrite orb_false_r.
    destruct (Ascii.eqb c "+") eqn:Hplus; cbn [andb].
    + destruct rest as [| c' rest']; [discriminate |].
      cbn [String.eqb negb andb].
      replace (Z.of_nat (String.length (String c' rest')) <? 1) with false
        by (symmetry; apply Z.ltb_ge; cbn [String.length]; lia).
      destruct (strconv.Atoi_fast_digits (String c' rest') 0) eqn:Hd;
        [| discriminate].
      intros _. eapply Atoi_fast_digits_all, Hd.
    + destruct (strconv.Atoi_fast_digits (String c rest) 0) eqn:Hd;
        [| discriminate].
      intros _. eapply Atoi_fast_digits_all, Hd.
Qed.

Lemma int32_range (i : Z) : - 2 ^ 31 <= int32 i < 2 ^ 31.
Proof.
  unfold int32.
  pose proof (Z.mod_pos_bound (i + 2 ^ 31) (2 ^ 32) ltac:(lia)). lia.
Qed.

Lemma int32_small (i : Z) : - 2 ^ 31 <= i < 2 ^ 31 -> int32 i = i.
Proof.
  intros H. unfold int32. rewrite Z.mod_small by lia. lia.
Qed.

Lemma int32_congruent (i : Z) : (int32 i - i) mod 2 ^ 32 = 0.
Proof.
  unfold int32.
  rewrite (Z.mod_eq (i + 2 ^ 31) (2 ^ 32)) by lia.
  replace (_ - _ - _ - _) with (- ((i + 2 ^ 31) / 2 ^ 32) * 2 ^ 32) by lia.
  apply Z.mod_mul. lia.
Qed.

Lemma Split_length (s : string) (sep : ascii) :
  (1 <= List.length (strings.Split s sep))%nat.
Proof.
  induction s as [| c rest IH]; cbn [strings.Split List.length]; [lia |].
  destruct (Ascii.eqb c sep); cbn [List.length]; [lia |].
  destruct (strings.Split rest sep); cbn [List.length] in *; lia.
Qed.

(** ** Texts of the date pattern *)

Lemma digit_val_range (c : ascii) : isDigit c = true -> 0 <= digit_val c <= 9.
Proof. intros H. apply isDigit_spec in H. unfold digit_val. lia. Qed.

Lemma getnum_two (a b : ascii) (rest : string) (fixed : bool) :
  isDigit a = true -> isDigit b = true ->
  time.getnum (String a (String b rest)) fixed
  = Some (digit_val a * 10 + digit_val b, rest).
Proof.
  intros Ha Hb. unfold time.getnum, time.isDigit_at. cbn.
  rewrite Ha, Hb. reflexivity.
Qed.

Lemma atoi_four (a b c d : ascii) :
  isDigit a = true -> isDigit b = true -> isDigit c = true -> isDigit d = true ->
  time.atoi (String a (String b (String c (String d ""))))
  = Some (((digit_val a * 10 + digit_val b) * 10 + digit_val c) * 10 + digit_val d).
Proof.
  intros Ha Hb Hc Hd.
  pose proof (digit_val_range a Ha). pose proof (digit_val_range b Hb).
  pose proof (digit_val_range c Hc). pose proof (digit_val_range d Hd).
  assert (Hsign : forall x, isDigit x = true ->
            Ascii.eqb x "-" || Ascii.eqb x "+" = false).
  { intros x Hx. apply isDigit_spec in Hx.
    apply orb_false_iff; split; apply Ascii.eqb_neq; intros ->;
      unfold byte_val in Hx; cbn in Hx; lia. }
  unfold time.atoi. rewrite (Hsign a Ha).
  unfold time.leadingInt. cbn [time.leadingInt_loop].
  rewrite Ha, Hb, Hc, Hd. cbn [negb].
  fold (digit_val a) (digit_val b) (digit_val c) (digit_val d).
  change (2 ^ 63 / 10) with 922337203685477580.
  change (2 ^ 63) with 9223372036854775808.
  repeat match goal with
  | |- context [?x <? ?y] =>
      let E := fresh in
      destruct (x <? y) eqn:E; [apply Z.ltb_lt in E; lia | clear E]
  end.
  f_equal. 
Qed.

Lemma skip_byte (p : ascii) (value : string) :
  Ascii.eqb p " " = false ->
  time.skip (String p value) (String p "") = Some value.
Proof.
  intros Hp. unfold time.skip. cbn. rewrite Hp, Ascii.eqb_refl. reflexivity.
Qed.

Lemma skip_space_digit (c : ascii) (value : string) :
  isDigit c = true ->
  time.skip (String " " (String c value)) " " = Some (String c value).
Proof.
  intros Hc. unfold time.skip. cbn.
  assert (Ascii.eqb c " " = false) as ->.
  { apply Ascii.eqb_neq. intros ->. apply isDigit_spec in Hc.
    unfold byte_val in Hc; cbn in Hc; lia. }
  reflexivity.
Qed.

Ltac use_digits :=
  repeat match goal with
  | H : isDigit ?c = true |- context [isDigit ?c] => rewrite H
  end.

Ltac forget_digits :=
  repeat match goal with
  | H : isDigit _ = true |- _ => clear H
  end.

Ltac rhs_false :=
  forget_digits;
  match goal with
  | |- _ = (if ?b then _ else _) => replace b with false by lia
  end; reflexivity.

Lemma time_Parse_pattern (s : string) (t : time.Time) :
  read_pattern s = Some t ->
  time.Parse s = if valid_time t then Some t else None.
Proof.
  unfold read_pattern.
  destruct s as [| y1 [| y2 [| y3 [| y4 [| p1 [| m1 [| m2 [| p2 [| d1 [| d2
    [| p3 [| h1 [| h2 [| p4 [| i1 [| i2 [| p5 [| s1 [| s2 [| ? ?]]]]]]]]]]]]]]]]]]]];
    try discriminate.
  match goal with
  | |- (if ?b then _ else _) = _ -> _ => destruct b eqn:Hb; [| discriminate]
  end.
  do 5 (apply andb_true_iff in Hb; destruct Hb as [Hb ?]).
  cbn [forallb] in Hb.
  do 14 (apply andb_true_iff in Hb; destruct Hb as [? Hb]).
  repeat match goal with
  | H : Ascii.eqb _ _ = true |- _ => apply Ascii.eqb_eq in H; subst
  end.
  intros [= <-].
  repeat match goal with
  | H : isDigit ?c = true |- _ =>
      lazymatch goal with
      | _ : 0 <= digit_val c <= 9 |- _ => fail
      | _ => pose proof (digit_val_range c H)
      end
  end.
  unfold time.Parse, time.layout.
  cbn [time.parse_chunks].
  change (time.skip ?v "") with (Some v).
  cbn [time.parse_std String.length Nat.ltb Nat.leb orb].
  unfold time.isDigit_at at 1. cbn [String.get].
  use_digits.
  cbn [negb utf8.take utf8.drop].
  rewrite atoi_four by assumption.
  cbn [time.parse_chunks].
  rewrite skip_byte by reflexivity.
  cbn [time.parse_std]. rewrite getnum_two by assumption.
  unfold valid_time.
  cbn [time.Year time.Month time.Day time.Hour time.Minute time.Second].
  set (Y := ((digit_val y1 * 10 + digit_val y2) * 10 + digit_val y3) * 10
            + digit_val y4).
  set (M := digit_val m1 * 10 + digit_val m2).
  set (D := digit_val d1 * 10 + digit_val d2).
  set (Hh := digit_val h1 * 10 + digit_val h2).
  set (Mi := digit_val i1 * 10 + digit_val i2).
  set (Ss := digit_val s1 * 10 + digit_val s2).
  destruct ((M <=? 0) || (12 <? M)) eqn:EM; [rhs_false |].
  rewrite skip_byte by reflexivity.
  cbn [time.parse_std]. rewrite getnum_two by assumption. fold D.
  rewrite skip_space_digit by assumption.
  cbn [time.parse_std]. rewrite getnum_two by assumption. fold Hh.
  destruct ((Hh <? 0) || (24 <=? Hh)) eqn:EH; [rhs_false |].
  rewrite skip_byte by reflexivity.
  cbn [time.parse_std]. rewrite getnum_two by assumption. fold Mi.
  destruct ((Mi <? 0) || (60 <=? Mi)) eqn:EMi; [rhs_false |].
  rewrite skip_byte by reflexivity.
  cbn [time.parse_std]. rewrite getnum_two by assumption. fold Ss.
  destruct ((Ss <? 0) || (60 <=? Ss)) eqn:ES; [rhs_false |].
  cbn [String.length Nat.leb andb Nat.eqb time.Day time.Month time.Year].
  destruct ((D <? 1) || (time.daysIn M Y <? D)) eqn:ED; [rhs_false |].
  forget_digits.
  match goal with
  | |- _ = (if ?b then _ else _) => replace b with true by lia
  end.
  reflexivity.
Qed.

(** ** Integer texts and their values *)

Lemma decimal_from_app (a b : string) :
  forall n, decimal_from n (a ++ b) = decimal_from (decimal_from n a) b.
Proof. induction a as [| c a IH]; intros n; cbn; auto. Qed.

Lemma all_digits_app (a b : string) :
  all_digits (a ++ b) = all_digits a && all_digits b.
Proof.
  induction a as [| c a IH]; cbn; [reflexivity |].
  now rewrite IH, andb_assoc.
Qed.

Lemma digit_char_spec (d : Z) :
  0 <= d <= 9 ->
  isDigit (strconv.digit_char d) = true
  /\ digit_val (strconv.digit_char d) = d.
Proof.
  intros Hd.
  assert (d = 0 \/ d = 1 \/ d = 2 \/ d = 3 \/ d = 4 \/ d = 5 \/ d = 6 \/ d = 7
          \/ d = 8 \/ d = 9) as Hcases by lia.
  repeat destruct Hcases as [-> | Hcases]; try subst d; split; reflexivity.
Qed.

Lemma string_app_assoc (a b c : string) : (a ++ b) ++ c = a ++ (b ++ c).
Proof. induction a as [| x a IH]; cbn; [reflexivity | now rewrite IH]. Qed.

(** The digits [format_digits] puts before [acc] are those of [u]. *)
Lemma format_digits_spec (fuel : nat) :
  forall u acc,
  0 <= u -> Z.log2 u < Z.of_nat fuel ->
  exists ds,
    strconv.format_digits fuel u acc = ds ++ acc
    /\ ds <> ""
    /\ all_digits ds = true
    /\ decimal_from 0 ds = u.
Proof.
  induction fuel as [| fuel IH]; intros u acc Hu Hfuel.
  - pose proof (Z.log2_nonneg u). lia.
  - cbn [strconv.format_digits].
    pose proof (Z.mod_pos_bound u 10 ltac:(lia)) as Hmod.
    destruct (digit_char_spec (u mod 10) ltac:(lia)) as [Hdig Hval].
    destruct (u <? 10) eqn:Hlt.
    + exists (String (strconv.digit_char (u mod 10)) "").
      cbn. rewrite Hdig, Hval. repeat split; try discriminate.
      rewrite Z.mod_small; lia.
    + assert (Hdiv : 0 <= u / 10) by (apply Z.div_pos; lia).
      assert (Hlog : Z.log2 (u / 10) < Z.of_nat fuel).
      { assert (Hle : Z.log2 (u / 10) <= Z.log2 (u / 2)).
        { apply Z.log2_le_mono. apply Z.div_le_compat_l; lia. }
        pose proof (Z.log2_shiftr u 1 ltac:(lia)) as Hs.
        rewrite Z.shiftr_div_pow2 in Hs by lia.
        change (2 ^ 1) with 2 in Hs.
        pose proof (Z.log2_le_mono 2 u ltac:(lia)) as H2.
        change (Z.log2 2) with 1 in H2. lia. }
      destruct (IH (u / 10) (String (strconv.digit_char (u mod 10)) acc)
                  Hdiv Hlog) as (ds & Heq & Hne & Hall & Hdec).
      exists (ds ++ String (strconv.digit_char (u mod 10)) "").
      rewrite Heq, string_app_assoc. cbn [append].
      split; [reflexivity |]. split; [destruct ds; discriminate |].
      rewrite all_digits_app, decimal_from_app, Hall, Hdec. cbn.
      rewrite Hdig, Hval. split; [reflexivity |].
      pose proof (Z.div_mod u 10 ltac:(lia)). lia.
Qed.

Lemma digit_not_sign (c : ascii) :
  isDigit c = true -> Ascii.eqb c "-" = false /\ Ascii.eqb c "+" = false.
Proof.
  intros Hc. apply isDigit_spec in Hc.
  split; apply Ascii.eqb_neq; intros ->; unfold byte_val in Hc; cbn in Hc; lia.
Qed.

Lemma Atoi_fast_digits_value (s : string) :
  forall n, all_digits s = true ->
  strconv.Atoi_fast_digits s n = Some (decimal_from n s).
Proof.
  induction s as [| c s IH]; intros n Hs; [reflexivity |].
  cbn [all_digits] in Hs. apply andb_true_iff in Hs. destruct Hs as [Hc Hs].
  cbn [strconv.Atoi_fast_digits decimal_from].
  rewrite fast_digit_spec, Hc. cbn [negb].
  pose proof (proj1 (isDigit_spec c) Hc).
  rewrite Z.mod_small by lia. now apply IH.
Qed.

Lemma decimal_from_ge (s : string) :
  forall n, all_digits s = true -> 0 <= n -> n <= decimal_from n s.
Proof.
  induction s as [| c s IH]; intros n Hs Hn; cbn [decimal_from]; [lia |].
  cbn [all_digits] in Hs. apply andb_true_iff in Hs. destruct Hs as [Hc Hs].
  pose proof (digit_val_range c Hc).
  specialize (IH (n * 10 + digit_val c) Hs ltac:(lia)). lia.
Qed.

Lemma ParseUint_digits_value (s : string) :
  forall n, all_digits s = true -> 0 <= n ->
  decimal_from n s <= strconv.maxUint64 ->
  strconv.ParseUint_digits s n = (decimal_from n s, None).
Proof.
  induction s as [| c s IH]; intros n Hs Hn Hmax; [reflexivity |].
  cbn [all_digits] in Hs. apply andb_true_iff in Hs. destruct Hs as [Hc Hs].
  cbn [strconv.ParseUint_digits decimal_from] in *.
  rewrite Hc.
  pose proof (digit_val_range c Hc) as Hd. unfold digit_val in *.
  pose proof (decimal_from_ge s (n * 10 + (byte_val c - 48)) Hs ltac:(lia)).
  unfold strconv.maxUint64, strconv.uint64 in *.
  change (2 ^ 64) with 18446744073709551616 in *.
  change ((18446744073709551616 - 1) / 10 + 1) with 1844674407370955162.
  replace (1844674407370955162 <=? n) with false by lia.
  rewrite (Z.mod_small (n * 10)) by lia.
  rewrite (Z.mod_small (n * 10 + (byte_val c - 48))) by lia.
  replace ((n * 10 + (byte_val c - 48) <? n * 10)
           || (18446744073709551616 - 1 <? n * 10 + (byte_val c - 48)))
    with false by lia.
  apply IH; [assumption | lia | assumption].
Qed.

(** [Atoi] reads back what [FormatInt] writes, for every [int64]. *)
Lemma Atoi_FormatInt (i : Z) :
  - 2 ^ 63 <= i < 2 ^ 63 -> strconv.Atoi (strconv.FormatInt i) = (i, None).
Proof.
  intros Hi. unfold strconv.FormatInt.
  destruct (format_digits_spec (S (Z.to_nat (Z.log2 (Z.abs i)))) (Z.abs i) ""
              ltac:(lia) ltac:(pose proof (Z.log2_nonneg (Z.abs i)); lia))
    as (ds & Heq & Hne & Hall & Hdec).
  rewrite Heq. clear Heq.
  assert (Hnil : forall a : string, a ++ "" = a)
    by (induction a as [| x a IHa]; cbn; [| rewrite IHa]; reflexivity).
  rewrite Hnil.
  destruct ds as [| c ds]; [congruence |].
  pose proof Hall as Hall'. cbn [all_digits] in Hall'.
  apply andb_true_iff in Hall'. destruct Hall' as [Hc _].
  destruct (digit_not_sign c Hc) as [Hminus Hplus].
  assert (Hu : strconv.ParseUint (String c ds) = (Z.abs i, None)).
  { unfold strconv.ParseUint. rewrite <- Hdec.
    apply ParseUint_digits_value; [assumption | lia |].
    rewrite Hdec. unfold strconv.maxUint64. lia. }
  unfold strconv.Atoi.
  destruct (i <? 0) eqn:Hneg.
  - destruct (_ && _).
    + rewrite Ascii.eqb_refl. cbn [orb andb String.length].
      replace (Z.of_nat (S (String.length ds)) <? 1) with false by lia.
      rewrite Atoi_fast_digits_value, Hdec by assumption.
      f_equal. lia.
    + unfold strconv.ParseInt. cbn [Ascii.eqb Bool.eqb]. rewrite Hu.
      unfold strconv.IntSize. cbn [negb andb].
      replace (2 ^ (64 - 1) <? Z.abs i) with false by lia.
      f_equal. lia.
  - destruct (_ && _).
    + rewrite Hminus, Hplus. cbn [orb andb].
      rewrite Atoi_fast_digits_value, Hdec by assumption.
      f_equal. lia.
    + unfold strconv.ParseInt. rewrite Hminus, Hplus, Hu.
      unfold strconv.IntSize. cbn [negb andb].
      replace (2 ^ (64 - 1) <=? Z.abs i) with false by lia.
      f_equal. lia.
Qed.

Lemma ParseUint_digits_overflow (s : string) :
  forall n, all_digits s = true -> 0 <= n <= strconv.maxUint64 ->
  strconv.maxUint64 < decimal_from n s ->
  strconv.ParseUint_digits s n = (strconv.maxUint64, Some strconv.ErrRange).
Proof.
  induction s as [| c s IH]; intros n Hs Hn Hover;
    [cbn [decimal_from] in Hover; lia |].
  cbn [all_digits] in Hs. apply andb_true_iff in Hs. destruct Hs as [Hc Hs].
  cbn [strconv.ParseUint_digits decimal_from] in *.
  rewrite Hc.
  pose proof (digit_val_range c Hc) as Hd. unfold digit_val in *.
  destruct (_ <=? n) eqn:Hcut; [reflexivity |].
  unfold strconv.maxUint64, strconv.uint64 in *.
  change (2 ^ 64) with 18446744073709551616 in *.
  change ((18446744073709551616 - 1) / 10 + 1) with 1844674407370955162 in Hcut.
  rewrite (Z.mod_small (n * 10)) by lia.
  destruct (Z_le_gt_dec (n * 10 + (byte_val c - 48)) 18446744073709551615)
    as [Hfit | Hwrap].
  - rewrite (Z.mod_small (n * 10 + (byte_val c - 48))) by lia.
    replace ((n * 10 + (byte_val c - 48) <? n * 10)
             || (18446744073709551616 - 1 <? n * 10 + (byte_val c - 48)))
      with false by lia.
    apply IH; [assumption | lia | assumption].
  - replace ((n * 10 + (byte_val c - 48)) mod 18446744073709551616)
      with (n * 10 + (byte_val c - 48) - 18446744073709551616)
      by (apply Z.mod_unique with (q := 1); lia).
    replace (_ || _) with true by lia. reflexivity.
Qed.

Lemma decimal_from_bound (s : string) :
  forall n, all_digits s = true -> 0 <= n ->
  decimal_from n s + 1 <= (n + 1) * 10 ^ Z.of_nat (String.length s).
Proof.
  induction s as [| c s IH]; intros n Hs Hn; [cbn; lia |].
  cbn [all_digits] in Hs. apply andb_true_iff in Hs. destruct Hs as [Hc Hs].
  pose proof (digit_val_range c Hc) as Hd.
  cbn [decimal_from String.length].
  specialize (IH (n * 10 + digit_val c) Hs ltac:(lia)).
  rewrite Nat2Z.inj_succ, Z.pow_succ_r by lia.
  pose proof (Z.pow_pos_nonneg 10 (Z.of_nat (String.length s)) ltac:(lia)
                ltac:(lia)).
  nia.
Qed.

Lemma ParseUint_numeric (s : string) :
  s <> "" -> all_digits s = true ->
  strconv.ParseUint s
  = if decimal_from 0 s <=? strconv.maxUint64 then (decimal_from 0 s, None)
    else (strconv.maxUint64, Some strconv.ErrRange).
Proof.
  intros Hne Hs. destruct s as [| c s]; [congruence |].
  unfold strconv.ParseUint.
  destruct (_ <=? _) eqn:E.
  - apply ParseUint_digits_value; [assumption | lia | lia].
  - apply ParseUint_digits_overflow; [assumption | | lia].
    unfold strconv.maxUint64. lia.
Qed.

Ltac compare_cases :=
  repeat match goal with
  | |- context [?a <? ?b] => destruct (Z.ltb_spec a b)
  | |- context [?a <=? ?b] => destruct (Z.leb_spec a b)
  end;
  cbn [negb andb orb]; try reflexivity; try lia.

Lemma ParseInt_numeric (s : string) :
  numeric_text s = true ->
  strconv.ParseInt s
  = if signed_value s <? - 2 ^ 63 then (- 2 ^ 63, Some strconv.ErrRange)
    else if 2 ^ 63 <=? signed_value s then (2 ^ 63 - 1, Some strconv.ErrRange)
    else (signed_value s, None).
Proof.
  destruct s as [| c s]; [discriminate |].
  unfold numeric_text, strconv.ParseInt, signed_value.
  assert (Hpos : forall t, all_digits t = true -> 0 <= decimal_from 0 t)
    by (intros t Ht; apply decimal_from_ge; [assumption | lia]).
  assert (Hne : forall t, negb (String.eqb t "") = true -> t <> "")
    by (intros t Ht ->; discriminate).
  unfold strconv.IntSize.
  change (2 ^ (64 - 1)) with 9223372036854775808.
  change (2 ^ 63) with 9223372036854775808.
  destruct (Ascii.eqb c "+") eqn:Hplus; cbn [orb].
  - assert (Ascii.eqb c "-" = false) as ->
      by (apply Ascii.eqb_eq in Hplus; subst; reflexivity).
    intros H. apply andb_true_iff in H. destruct H as [H1 H2].
    rewrite (ParseUint_numeric s (Hne s H1) H2).
    specialize (Hpos s H2). unfold strconv.maxUint64.
    change (2 ^ 64 - 1) with 18446744073709551615.
    compare_cases.
  - destruct (Ascii.eqb c "-") eqn:Hminus; cbn [orb].
    + intros H. apply andb_true_iff in H. destruct H as [H1 H2].
      rewrite (ParseUint_numeric s (Hne s H1) H2).
      specialize (Hpos s H2). unfold strconv.maxUint64.
      change (2 ^ 64 - 1) with 18446744073709551615.
      compare_cases.
    + intros H2.
      rewrite (ParseUint_numeric (String c s) ltac:(discriminate) H2).
      specialize (Hpos _ H2). unfold strconv.maxUint64.
      change (2 ^ 64 - 1) with 18446744073709551615.
      compare_cases.
Qed.

(** What [Atoi] makes of a numeric text: its value when that is an [int],
    a range error otherwise. *)
Lemma Atoi_numeric (s : string) :
  numeric_text s = true ->
  strconv.Atoi s
  = if signed_value s <? - 2 ^ 63 then (- 2 ^ 63, Some strconv.ErrRange)
    else if 2 ^ 63 <=? signed_value s then (2 ^ 63 - 1, Some strconv.ErrRange)
    else (signed_value s, None).
Proof.
  intros Hnum. unfold strconv.Atoi.
  destruct (_ && _) eqn:Hfast; [| now apply ParseInt_numeric].
  apply andb_true_iff in Hfast. destruct Hfast as [_ Hlen].
  apply Z.ltb_lt in Hlen.
  destruct s as [| c s]; [discriminate |].
  cbn [String.length] in Hlen.
  assert (Hsmall : forall t, all_digits t = true ->
            (String.length t <= 18)%nat ->
            0 <= decimal_from 0 t < 10 ^ 18).
  { intros t Ht Hl.
    pose proof (decimal_from_bound t 0 Ht ltac:(lia)) as Hb.
    pose proof (decimal_from_ge t 0 Ht ltac:(lia)).
    pose proof (Z.pow_le_mono_r 10 (Z.of_nat (String.length t)) 18
                  ltac:(lia) ltac:(lia)).
    lia. }
  unfold numeric_text in Hnum. unfold signed_value.
  change (2 ^ 63) with 9223372036854775808.
  change (10 ^ 18) with 1000000000000000000 in Hsmall.
  destruct (Ascii.eqb c "-") eqn:Hminus.
  - rewrite orb_true_r in Hnum. cbn [orb andb].
    apply andb_true_iff in Hnum. destruct Hnum as [Hne Hall].
    destruct s as [| c' s']; [discriminate |].
    replace (Z.of_nat (String.length (String c' s')) <? 1) with false
      by (cbn [String.length]; lia).
    rewrite (Atoi_fast_digits_value _ 0 Hall).
    specialize (Hsmall _ Hall ltac:(lia)). compare_cases.
  - destruct (Ascii.eqb c "+") eqn:Hplus; cbn [orb andb] in Hnum |- *.
    + apply andb_true_iff in Hnum. destruct Hnum as [Hne Hall].
      destruct s as [| c' s']; [discriminate |].
      replace (Z.of_nat (String.length (String c' s')) <? 1) with false
        by (cbn [String.length]; lia).
      rewrite (Atoi_fast_digits_value _ 0 Hall).
      specialize (Hsmall _ Hall ltac:(lia)). compare_cases.
    + rewrite (Atoi_fast_digits_value _ 0 Hnum).
      specialize (Hsmall _ Hnum ltac:(cbn [String.length]; lia)).
      compare_cases.
Qed.

(** ** White space: the scans of [TrimSpace] have fuel enough *)

Lemma drop_length (n : nat) (s : string) :
  String.length (utf8.drop n s) = (String.length s - n)%nat.
Proof.
  revert s. induction n as [| n IH]; intros [| c s]; cbn; auto.
Qed.

Lemma take_length (n : nat) (s : string) :
  String.length (utf8.take n s) = Nat.min n (String.length s).
Proof.
  revert s. induction n as [| n IH]; intros [| c s]; cbn; auto.
Qed.

(** A rune of a text that is not empty has one to four bytes, all in the
    text. *)
Lemma DecodeRuneInString_size (s : string) :
  s <> "" ->
  (1 <= snd (utf8.DecodeRuneInString s) <= 4)%nat
  /\ (snd (utf8.DecodeRuneInString s) <= String.length s)%nat.
Proof.
  destruct s as [| c0 s]; [congruence | intros _].
  unfold utf8.DecodeRuneInString.
  destruct (utf8.first (byte_val c0)) as [| | sz lo hi] eqn:Hf;
    cbn [snd String.length]; try lia.
  assert (Hsz : (2 <= sz <= 4)%nat).
  { unfold utf8.first in Hf.
    repeat match type of Hf with
    | (if ?b then _ else _) = _ => destruct b
    end; inversion Hf; lia. }
  destruct (_ <? sz)%nat eqn:Hlen; cbn [snd]; [lia |].
  apply Nat.ltb_ge in Hlen. cbn [String.length] in Hlen.
  repeat match goal with
  | |- context [if ?b then _ else _] => destruct b eqn:?; cbn [snd]
  end; lia.
Qed.

Lemma indexFunc_from_fuel (f : Z -> bool) (truth : bool) (fuel : nat) :
  forall rest i,
  (String.length rest <= fuel)%nat ->
  strings.indexFunc_from fuel rest i f truth
  = strings.indexFunc_from (String.length rest) rest i f truth.
Proof.
  induction fuel as [fuel IH] using lt_wf_ind. intros rest i Hlen.
  destruct rest as [| c rest]; [destruct fuel; reflexivity |].
  destruct fuel as [| fuel]; [cbn in Hlen; lia |].
  cbn [String.length strings.indexFunc_from] in Hlen |- *.
  destruct (DecodeRuneInString_size (String c rest) ltac:(discriminate))
    as [Hsize Hin].
  destruct (utf8.DecodeRuneInString (String c rest)) as [r size].
  cbn [snd String.length] in Hsize, Hin.
  destruct (Bool.eqb (f r) truth); [reflexivity |].
  pose proof (drop_length size (String c rest)) as Hd.
  cbn [String.length] in Hd.
  rewrite (IH fuel) by lia.
  rewrite (IH (String.length rest)) by lia.
  reflexivity.
Qed.

Lemma scan_back_le (fuel : nat) (s : string) (lim : Z) :
  forall start, utf8.scan_back fuel s start lim <= start.
Proof.
  induction fuel as [| fuel IH]; intros start; cbn [utf8.scan_back]; [lia |].
  destruct (start <? lim); [lia |].
  destruct (utf8.RuneStart _); [lia |].
  specialize (IH (start - 1)). lia.
Qed.

Lemma DecodeLastRuneInString_size (s : string) :
  s <> "" ->
  (1 <= snd (utf8.DecodeLastRuneInString s) <= String.length s)%nat.
Proof.
  intros Hs.
  assert (Hlen : (1 <= String.length s)%nat)
    by (destruct s; [congruence | cbn; lia]).
  unfold utf8.DecodeLastRuneInString.
  replace (Z.of_nat (String.length s) =? 0) with false by lia.
  destruct (_ <? utf8.RuneSelf); cbn [snd]; [lia |].
  set (end_ := Z.of_nat (String.length s)) in *.
  set (lim := Z.max 0 (end_ - Z.of_nat utf8.UTFMax)).
  pose proof (scan_back_le utf8.UTFMax s lim (end_ - 2)) as Hsb.
  set (start0 := utf8.scan_back utf8.UTFMax s (end_ - 2) lim) in *.
  set (start := if start0 <? lim then lim else start0).
  assert (Hstart : 0 <= start <= end_ - 1).
  { subst start lim. unfold utf8.UTFMax in *.
    destruct (start0 <? _) eqn:E; lia. }
  destruct (utf8.DecodeRuneInString _) as [r size].
  destruct (negb _) eqn:E; cbn [snd]; [lia |].
  apply negb_false_iff, Z.eqb_eq in E. lia.
Qed.

Lemma lastIndexFunc_from_fuel (f : Z -> bool) (truth : bool) (s : string)
    (fuel : nat) :
  forall i,
  (i < fuel)%nat -> (i <= String.length s)%nat ->
  strings.lastIndexFunc_from fuel s i f truth
  = strings.lastIndexFunc_from (S i) s i f truth.
Proof.
  induction fuel as [fuel IH] using lt_wf_ind. intros i Hi Hlen.
  destruct fuel as [| fuel]; [lia |].
  cbn [strings.lastIndexFunc_from].
  destruct (0 <? i)%nat eqn:Hpos; [| reflexivity].
  apply Nat.ltb_lt in Hpos.
  assert (Hne : utf8.take i s <> "").
  { intros H. pose proof (take_length i s) as Ht. rewrite H in Ht.
    cbn in Ht. lia. }
  pose proof (DecodeLastRuneInString_size _ Hne) as Hsize.
  rewrite take_length in Hsize.
  destruct (utf8.DecodeLastRuneInString (utf8.take i s)) as [r size].
  cbn [snd] in Hsize.
  destruct (Bool.eqb (f r) truth); [reflexivity |].
  rewrite (IH fuel) by lia.
  rewrite (IH i) by lia.
  reflexivity.
Qed.

(** ** Lines written from fields *)

Lemma Split_field (f : string) (sep : ascii) :
  has_byte sep f = false -> strings.Split f sep = [f].
Proof.
  induction f as [| c f IH]; cbn [has_byte strings.Split]; [reflexivity |].
  intros H. apply orb_false_iff in H. destruct H as [Hc Hf].
  now rewrite Hc, IH.
Qed.

Lemma Split_append (f rest : string) (sep : ascii) :
  has_byte sep f = false ->
  strings.Split (f ++ String sep rest) sep = f :: strings.Split rest sep.
Proof.
  induction f as [| c f IH]; cbn [has_byte append strings.Split].
  - intros _. now rewrite Ascii.eqb_refl.
  - intros H. apply orb_false_iff in H. destruct H as [Hc Hf].
    now rewrite Hc, IH.
Qed.

(** Splitting undoes joining, for fields that are free of the separator. *)
Lemma Split_Join (fields : list string) (sep : ascii) :
  fields <> [] ->
  forallb (fun f => negb (has_byte sep f)) fields = true ->
  strings.Split (Join fields sep) sep = fields.
Proof.
  induction fields as [| f fields IH]; [congruence | intros _ Hall].
  cbn [forallb] in Hall. apply andb_true_iff in Hall.
  destruct Hall as [Hf Hall]. apply negb_true_iff in Hf.
  destruct fields as [| g fields].
  - cbn [Join]. now apply Split_field.
  - change (Join (f :: g :: fields) sep)
      with (f ++ String sep (Join (g :: fields) sep)).
    rewrite Split_append by assumption.
    now rewrite IH.
Qed.

Lemma take_all (s : string) : utf8.take (String.length s) s = s.
Proof. induction s as [| c s IH]; cbn; [| rewrite IH]; reflexivity. Qed.

(** A text that begins and ends with ASCII bytes that are not white space
    is left as it is. *)
Lemma TrimSpace_tight (s : string) :
  s <> "" ->
  utf8.at_ s 0 < utf8.RuneSelf ->
  strings.asciiSpace (utf8.at_ s 0) = false ->
  utf8.at_ s (String.length s - 1) < utf8.RuneSelf ->
  strings.asciiSpace (utf8.at_ s (String.length s - 1)) = false ->
  strings.TrimSpace s = s.
Proof.
  intros Hne H0 Hs0 Hl Hsl. unfold strings.TrimSpace.
  destruct s as [| c s]; [congruence |].
  cbn [utf8.at_ String.get] in H0, Hs0.
  cbn [strings.scan_start].
  replace (utf8.RuneSelf <=? byte_val c) with false by lia.
  rewrite Hs0.
  cbn [String.length] in *. cbn [strings.scan_stop Nat.ltb Nat.leb].
  replace (S (String.length s) - 1)%nat with (String.length s) in Hl, Hsl by lia.
  replace (utf8.RuneSelf <=? utf8.at_ (String c s) (String.length s))
    with false by lia.
  rewrite Hsl.
  change (S (String.length s)) with (String.length (String c s)).
  rewrite take_all. reflexivity.
Qed.

(** ** The texts the layout reads *)

Lemma digit_is_no_sign (c : ascii) :
  isDigit c = true -> Ascii.eqb c "-" || Ascii.eqb c "+" = false.
Proof.
  intros Hx. apply isDigit_spec in Hx.
  apply orb_false_iff; split; apply Ascii.eqb_neq; intros ->;
    unfold byte_val in Hx; cbn in Hx; lia.
Qed.

(** [leadingInt] on digits: their number, while it stays small. *)
Lemma leadingInt_loop_digits (s : string) :
  forall x, all_digits s = true -> 0 <= x ->
  decimal_from x s < 10 ^ 18 ->
  time.leadingInt_loop s x = Some (decimal_from x s, "").
Proof.
  induction s as [| c s IH]; intros x Hs Hx Hb; [reflexivity |].
  cbn [all_digits] in Hs. apply andb_prop in Hs. destruct Hs as [Hc Hs].
  cbn [time.leadingInt_loop decimal_from] in *. rewrite Hc. cbn [negb].
  pose proof (digit_val_range c Hc) as Hd.
  pose proof (decimal_from_ge s (x * 10 + digit_val c)) as Hge.
  unfold digit_val in *.
  change (2 ^ 63 / 10) with 922337203685477580.
  change (2 ^ 63) with 9223372036854775808.
  change (10 ^ 18) with 1000000000000000000 in *.
  clear Hc.
  assert (Hge' : x * 10 + (byte_val c - 48) <= decimal_from (x * 10 + (byte_val c - 48)) s)
    by (apply Hge; lia).
  replace (922337203685477580 <? x) with false by lia.
  replace (9223372036854775808 <? x * 10 + (byte_val c - 48)) with false by lia.
  apply IH; [exact Hs | lia | exact Hb].
Qed.

Lemma time_atoi_digits (s : string) :
  all_digits s = true -> (String.length s <= 9)%nat ->
  time.atoi s = Some (decimal_from 0 s).
Proof.
  intros Hs Hlen.
  assert (Hb : decimal_from 0 s < 10 ^ 18).
  { pose proof (decimal_from_bound s 0 Hs ltac:(lia)) as Hb.
    assert (10 ^ Z.of_nat (String.length s) <= 10 ^ 9)
      by (apply Z.pow_le_mono_r; lia).
    change (10 ^ 9) with 1000000000 in *.
    change (10 ^ 18) with 1000000000000000000. lia. }
  unfold time.atoi, time.leadingInt.
  destruct s as [| c s]; [reflexivity |].
  assert (Hc : isDigit c = true)
    by (cbn [all_digits] in Hs; apply andb_prop in Hs; tauto).
  rewrite (digit_is_no_sign c Hc).
  rewrite (leadingInt_loop_digits _ 0 Hs ltac:(lia) Hb). reflexivity.
Qed.

(** [atoi] fails on a text that begins with a digit and has another byte. *)
Lemma leadingInt_loop_rest (s : string) :
  forall x, all_digits s = false ->
  match time.leadingInt_loop s x with
  | Some (_, EmptyString) => False
  | _ => True
  end.
Proof.
  induction s as [| c s IH]; intros x Hs; [discriminate |].
  cbn [all_digits] in Hs. cbn [time.leadingInt_loop].
  destruct (isDigit c); cbn [negb andb] in *; [| exact I].
  destruct (_ <? x); [exact I |].
  destruct (2 ^ 63 <? _); [exact I |]. apply IH, Hs.
Qed.

Lemma time_atoi_not_digits (c : ascii) (s : string) :
  isDigit c = true -> all_digits s = false ->
  time.atoi (String c s) = None.
Proof.
  intros Hc Hs. unfold time.atoi, time.leadingInt.
  rewrite (digit_is_no_sign c Hc).
  assert (Hall : all_digits (String c s) = false)
    by (cbn [all_digits]; rewrite Hc; exact Hs).
  pose proof (leadingInt_loop_rest (String c s) 0 Hall) as H.
  destruct (time.leadingInt_loop (String c s) 0) as [[q [| ? ?]] |];
    [destruct H | reflexivity ..].
Qed.

Lemma stage_year (value : string) (t : time.Time) :
  time.parse_std time.stdLongYear value t
  = match value with
    | String y1 (String y2 (String y3 (String y4 rest))) =>
        if isDigit y1 && isDigit y2 && isDigit y3 && isDigit y4 then
          Some (time.Date
                  (((digit_val y1 * 10 + digit_val y2) * 10 + digit_val y3) * 10
                   + digit_val y4)
                  (time.Month t) (time.Day t) (time.Hour t) (time.Minute t)
                  (time.Second t) (time.Nanosecond t), rest)
        else None
    | _ => None
    end.
Proof.
  destruct t as [year month day hour min sec nsec].
  destruct value as [| y1 [| y2 [| y3 [| y4 rest]]]]; try reflexivity.
  cbn [time.parse_std String.length Nat.ltb Nat.leb orb utf8.take utf8.drop
       time.Month time.Day time.Hour time.Minute time.Second time.Nanosecond].
  unfold time.isDigit_at. cbn [String.get].
  destruct (isDigit y1) eqn:H1; cbn [negb andb]; [| reflexivity].
  destruct (isDigit y2 && isDigit y3 && isDigit y4) eqn:H234.
  - apply andb_prop in H234. destruct H234 as [H23 H4].
    apply andb_prop in H23. destruct H23 as [H2 H3].
    rewrite (atoi_four y1 y2 y3 y4 H1 H2 H3 H4). reflexivity.
  - rewrite time_atoi_not_digits; [reflexivity | exact H1 |].
    cbn [all_digits]. rewrite andb_true_r, andb_assoc. exact H234.
Qed.

Lemma stage_skip_byte (p : ascii) (value : string) :
  Ascii.eqb p " " = false ->
  time.skip value (String p "")
  = match value with
    | String v rest => if Ascii.eqb v p then Some rest else None
    | EmptyString => None
    end.
Proof.
  intros Hp. unfold time.skip. cbn [String.length time.skip_loop].
  rewrite Hp. destruct value as [| v rest]; [reflexivity |].
  destruct (Ascii.eqb v p); reflexivity.
Qed.

Lemma stage_skip_space (value : string) :
  time.skip value " "
  = match value with
    | String v rest =>
        if Ascii.eqb v " " then Some (drop_spaces rest) else None
    | EmptyString => Some ""
    end.
Proof.
  assert (Hcut : forall s, time.cutspace s = drop_spaces s).
  { induction s as [| c s IH]; cbn; [| rewrite IH]; reflexivity. }
  unfold time.skip. cbn [String.length time.skip_loop Ascii.eqb Bool.eqb].
  destruct value as [| v rest]; [reflexivity |].
  destruct (Ascii.eqb v " ") eqn:Hv; cbn [negb]; [| reflexivity].
  cbn [time.cutspace Ascii.eqb Bool.eqb time.skip_loop]. rewrite Hv.
  rewrite Hcut. reflexivity.
Qed.

Lemma stage_getnum_fixed (value : string) :
  time.getnum value true
  = match value with
    | String a (String b rest) =>
        if isDigit a && isDigit b
        then Some (digit_val a * 10 + digit_val b, rest) else None
    | _ => None
    end.
Proof.
  unfold time.getnum, time.isDigit_at, utf8.at_, digit_val.
  destruct value as [| a [| b rest]]; cbn [String.get utf8.drop];
    try reflexivity.
  - destruct (isDigit a); reflexivity.
  - destruct (isDigit a), (isDigit b); reflexivity.
Qed.

Lemma stage_getnum_hour (value : string) :
  time.getnum value false = read_hour value.
Proof.
  unfold time.getnum, time.isDigit_at, utf8.at_, digit_val, read_hour.
  destruct value as [| a [| b rest]]; cbn [String.get utf8.drop];
    try reflexivity.
  - destruct (isDigit a); reflexivity.
  - destruct (isDigit a), (isDigit b); reflexivity.
Qed.

Lemma byte_val_eqb (c d : ascii) : (byte_val c =? byte_val d) = Ascii.eqb c d.
Proof.
  destruct (Ascii.eqb_spec c d) as [-> | Hne]; [apply Z.eqb_refl |].
  apply Z.eqb_neq. intros H. apply Hne.
  rewrite <- (ascii_N_embedding c), <- (ascii_N_embedding d).
  f_equal. unfold byte_val in H. lia.
Qed.

Lemma commaOrPeriod_byte (c : ascii) :
  time.commaOrPeriod (byte_val c) = Ascii.eqb c "." || Ascii.eqb c ",".
Proof.
  unfold time.commaOrPeriod.
  change 46 with (byte_val "."). change 44 with (byte_val ",").
  now rewrite !byte_val_eqb.
Qed.

Lemma drop_get (value : string) :
  forall n, (n < String.length value)%nat ->
  exists c, String.get n value = Some c
            /\ utf8.drop n value = String c (utf8.drop (S n) value).
Proof.
  induction value as [| v value IH]; intros n Hn; cbn in Hn; [lia |].
  destruct n as [| n]; [exists v; split; reflexivity |].
  destruct (IH n ltac:(lia)) as (c & Hg & Hd). exists c. split; assumption.
Qed.

Lemma drop_none (value : string) :
  forall n, (String.length value <= n)%nat -> utf8.drop n value = "".
Proof.
  induction value as [| v value IH]; intros [| n] Hn; cbn in *;
    try reflexivity; [lia | apply IH; lia].
Qed.

Lemma digits_end_all (value : string) (fuel : nat) :
  forall n, (n <= String.length value)%nat ->
  (String.length value - n <= fuel)%nat ->
  all_digits (utf8.drop n value) = true ->
  time.digits_end fuel value n = String.length value.
Proof.
  induction fuel as [| fuel IH]; intros n Hn Hf Hall; cbn [time.digits_end];
    [lia |].
  destruct (Nat.ltb_spec n (String.length value)) as [Hlt | Hge];
    cbn [andb]; [| lia].
  destruct (drop_get value n Hlt) as (c & Hg & Hd).
  rewrite Hd in Hall. cbn [all_digits] in Hall.
  apply andb_prop in Hall. destruct Hall as [Hc Hall].
  unfold time.isDigit_at. rewrite Hg, Hc. apply IH; [lia | lia | exact Hall].
Qed.

Lemma digits_end_stop (value : string) (fuel : nat) :
  forall n, (n <= String.length value)%nat ->
  all_digits (utf8.drop n value) = false ->
  (time.digits_end fuel value n < String.length value)%nat.
Proof.
  induction fuel as [| fuel IH]; intros n Hn Hall.
  - cbn [time.digits_end].
    destruct (Nat.ltb_spec n (String.length value)) as [Hlt | Hge]; [lia |].
    rewrite drop_none in Hall by lia. discriminate.
  - cbn [time.digits_end].
    destruct (Nat.ltb_spec n (String.length value)) as [Hlt | Hge];
      cbn [andb].
    + destruct (drop_get value n Hlt) as (c & Hg & Hd).
      rewrite Hd in Hall. cbn [all_digits] in Hall.
      unfold time.isDigit_at. rewrite Hg.
      destruct (isDigit c); cbn [andb] in Hall; [| lia].
      apply IH; [lia | exact Hall].
    + rewrite drop_none in Hall by lia. discriminate.
Qed.

Lemma all_digits_take (n : nat) :
  forall s, all_digits s = true -> all_digits (utf8.take n s) = true.
Proof.
  induction n as [| n IH]; intros [| c s] H; cbn [utf8.take all_digits] in *;
    try reflexivity.
  apply andb_prop in H. destruct H as [-> H]. now apply IH.
Qed.

Lemma take_ge (n : nat) :
  forall s, (String.length s <= n)%nat -> utf8.take n s = s.
Proof.
  induction n as [| n IH]; intros [| c s] H; cbn in *; try reflexivity;
    [lia | rewrite IH by lia; reflexivity].
Qed.

(** A fraction whose digits run to the end of the text. *)
Lemma parseNanoseconds_fraction (c : ascii) (ds : string) :
  Ascii.eqb c "." || Ascii.eqb c "," = true ->
  all_digits ds = true ->
  time.parseNanoseconds (String c ds) (S (String.length ds))
  = Some (fraction_nanos ds).
Proof.
  intros Hc Hds. unfold time.parseNanoseconds, fraction_nanos.
  change (utf8.at_ (String c ds) 0) with (byte_val c).
  rewrite commaOrPeriod_byte, Hc. cbn [negb].
  assert (Hpos : forall s, all_digits s = true -> 0 <= decimal_from 0 s)
    by (intros s Hs; apply decimal_from_ge; [exact Hs | lia]).
  destruct (Nat.ltb_spec 10 (S (String.length ds))) as [Hlong | Hshort].
  - change (utf8.take 10 (String c ds)) with (String c (utf8.take 9 ds)).
    change (utf8.drop 1 (String c (utf8.take 9 ds))) with (utf8.take 9 ds).
    change (10 - 1)%nat with 9%nat. change (10 - 10)%nat with 0%nat.
    rewrite (take_ge 9 (utf8.take 9 ds)) by (rewrite take_length; lia).
    rewrite time_atoi_digits
      by (try apply all_digits_take; try rewrite take_length; auto; lia).
    pose proof (Hpos _ (all_digits_take 9 ds Hds)).
    replace (decimal_from 0 (utf8.take 9 ds) <? 0) with false by lia.
    replace (9 - String.length ds)%nat with 0%nat by lia. reflexivity.
  - change (utf8.drop 1 (String c ds)) with ds.
    replace (S (String.length ds) - 1)%nat with (String.length ds) by lia.
    replace (10 - S (String.length ds))%nat with (9 - String.length ds)%nat by lia.
    rewrite (take_ge (String.length ds) ds) by lia.
    rewrite (take_ge 9 ds) by lia.
    rewrite time_atoi_digits by (auto; lia).
    pose proof (Hpos _ Hds).
    replace (decimal_from 0 ds <? 0) with false by lia.
    reflexivity.
Qed.

Lemma after_seconds_fraction (frac : string) :
  after_seconds frac = read_fraction frac.
Proof.
  unfold after_seconds, read_fraction.
  destruct frac as [| c [| d ds]]; [reflexivity | |].
  - cbn. now rewrite andb_false_r.
  - change (utf8.at_ (String c (String d ds)) 0) with (byte_val c).
    rewrite commaOrPeriod_byte.
    change (time.isDigit_at (String c (String d ds)) 1) with (isDigit d).
    cbn [String.length Nat.leb String.eqb negb andb all_digits].
    rewrite andb_true_r.
    destruct (Ascii.eqb c "." || Ascii.eqb c ",") eqn:Hc; cbn [andb];
      [| reflexivity].
    destruct (isDigit d) eqn:Hd; cbn [andb]; [| reflexivity].
    destruct (all_digits ds) eqn:Hds.
    + rewrite (digits_end_all (String c (String d ds))) ; cbn [String.length utf8.drop];
        [| lia | lia | exact Hds].
      change (S (S (String.length ds))) with (S (String.length (String d ds))).
      rewrite parseNanoseconds_fraction
        by (auto; cbn [all_digits]; rewrite Hd; exact Hds).
      cbn [String.length utf8.drop].
      rewrite (drop_none ds (String.length ds)) by lia. reflexivity.
    + pose proof (digits_end_stop (String c (String d ds))
                    (String.length (String c (String d ds))) 2
                    ltac:(cbn [String.length]; lia) Hds) as Hn.
      cbv zeta.
      destruct (time.parseNanoseconds _ _); [| reflexivity].
      rewrite drop_length.
      match goal with
      | |- (if ?b then _ else _) = _ => replace b with false; [reflexivity |]
      end.
      symmetry. apply Nat.eqb_neq. cbn [String.length] in *. lia.
Qed.

Lemma parse_chunks_cons (prefix : string) (std : time.Std)
    (chunks : list (string * time.Std)) (value : string) (t : time.Time) :
  time.parse_chunks ((prefix, std) :: chunks) value t
  = match time.skip value prefix with
    | None => None
    | Some value1 =>
        match time.parse_std std value1 t with
        | None => None
        | Some (t', value2) => time.parse_chunks chunks value2 t'
        end
    end.
Proof. reflexivity. Qed.

Lemma stage_second (value : string) (y m d h mi : Z) :
  time.parse_chunks [(":", time.stdZeroSecond)] value (time.Date y m d h mi 0 0)
  = match value with
    | String p5 (String s1 (String s2 frac)) =>
        if Ascii.eqb p5 ":" && isDigit s1 && isDigit s2 then
          if 60 <=? digit_val s1 * 10 + digit_val s2 then None
          else
            match read_fraction frac with
            | Some ns =>
                Some (time.Date y m d h mi
                        (digit_val s1 * 10 + digit_val s2) ns)
            | None => None
            end
        else None
    | _ => None
    end.
Proof.
  rewrite parse_chunks_cons, stage_skip_byte by reflexivity.
  cbn [time.parse_chunks].
  destruct value as [| p5 value]; [reflexivity |].
  destruct (Ascii.eqb p5 ":"); cbn [andb];
    [| destruct value as [| ? [| ? ?]]; reflexivity].
  cbn [time.parse_std]. rewrite stage_getnum_fixed.
  destruct value as [| s1 [| s2 frac]]; try reflexivity.
  destruct (isDigit s1) eqn:H1; cbn [andb]; [| reflexivity].
  destruct (isDigit s2) eqn:H2; cbn [andb]; [| reflexivity].
  pose proof (digit_val_range s1 H1). pose proof (digit_val_range s2 H2).
  replace (digit_val s1 * 10 + digit_val s2 <? 0) with false by lia.
  cbn [orb].
  destruct (60 <=? digit_val s1 * 10 + digit_val s2); [reflexivity |].
  rewrite <- after_seconds_fraction. unfold after_seconds.
  destruct (_ && _ && _); cbv zeta.
  - destruct (time.parseNanoseconds _ _); [| reflexivity].
    destruct (_ =? 0)%nat; reflexivity.
  - destruct (String.length frac =? 0)%nat; reflexivity.
Qed.

(** From the run of spaces on. *)
Lemma stage_clock (value : string) (y m d : Z) :
  time.parse_chunks
    [(" ", time.stdHour); (":", time.stdZeroMinute); (":", time.stdZeroSecond)]
    value (time.Date y m d 0 0 0 0)
  = match value with
    | String p3 rest =>
        if Ascii.eqb p3 " " then
          match read_clock (drop_spaces rest) with
          | Some (hour, minute, second, ns) =>
              if (24 <=? hour) || (60 <=? minute) || (60 <=? second) then None
              else Some (time.Date y m d hour minute second ns)
          | None => None
          end
        else None
    | EmptyString => None
    end.
Proof.
  rewrite parse_chunks_cons, stage_skip_space.
  destruct value as [| p3 rest]; [reflexivity |].
  destruct (Ascii.eqb p3 " "); [| reflexivity].
  generalize (drop_spaces rest). clear rest p3. intros value.
  cbn [time.parse_std]. rewrite stage_getnum_hour. unfold read_clock.
  assert (Hh : forall hour v, read_hour value = Some (hour, v) -> 0 <= hour).
  { unfold read_hour. destruct value as [| h1 [| h2 v2]]; [discriminate | |].
    - destruct (isDigit h1) eqn:H1; [| discriminate]. intros ? ? [= <- <-].
      apply digit_val_range in H1. lia.
    - destruct (isDigit h1) eqn:H1; [| discriminate].
      apply digit_val_range in H1.
      destruct (isDigit h2) eqn:H2; intros ? ? [= <- <-]; [| lia].
      apply digit_val_range in H2. lia. }
  destruct (read_hour value) as [[hour v] |]; [| reflexivity].
  specialize (Hh hour v eq_refl).
  replace (hour <? 0) with false by lia. cbn [orb].
  destruct (24 <=? hour) eqn:Hr.
  { destruct v as [| ? [| ? [| ? [| ? [| ? [| ? ?]]]]]]; try reflexivity.
    destruct (_ && _); [| reflexivity].
    destruct (read_fraction _); [| reflexivity].
    rewrite Hr. reflexivity. }
  rewrite parse_chunks_cons, stage_skip_byte by reflexivity.
  destruct v as [| p4 v]; [reflexivity |].
  destruct (Ascii.eqb p4 ":"); cbn [andb];
    [| destruct v as [| ? [| ? [| ? [| ? [| ? ?]]]]]; reflexivity].
  cbn [time.parse_std]. rewrite stage_getnum_fixed.
  destruct v as [| i1 [| i2 v]]; try reflexivity.
  destruct (isDigit i1) eqn:H1; cbn [andb];
    [| destruct v as [| ? [| ? [| ? ?]]]; reflexivity].
  destruct (isDigit i2) eqn:H2; cbn [andb];
    [| destruct v as [| ? [| ? [| ? ?]]]; reflexivity].
  pose proof (digit_val_range i1 H1). pose proof (digit_val_range i2 H2).
  replace (digit_val i1 * 10 + digit_val i2 <? 0) with false by lia.
  cbn [orb].
  destruct (60 <=? digit_val i1 * 10 + digit_val i2) eqn:Hmi.
  { destruct v as [| ? [| ? [| ? ?]]]; try reflexivity.
    destruct (_ && _); [| reflexivity].
    destruct (read_fraction _); [| reflexivity].
    rewrite Hr, Hmi. reflexivity. }
  rewrite stage_second.
  destruct v as [| p5 [| s1 [| s2 frac]]]; try reflexivity.
  destruct (_ && _ && _); [| reflexivity].
  destruct (read_fraction frac) as [ns |];
    [rewrite Hr, Hmi; cbn [orb] |
     destruct (60 <=? digit_val s1 * 10 + digit_val s2)]; reflexivity.
Qed.

Lemma valid_time_ranges (y m d h mi se ns : Z) :
  0 <= h -> 0 <= mi -> 0 <= se ->
  valid_time (time.Date y m d h mi se ns)
  = negb ((m <=? 0) || (12 <? m))
    && negb ((24 <=? h) || (60 <=? mi) || (60 <=? se))
    && negb ((d <? 1) || (time.daysIn m y <? d)).
Proof.
  intros Hh Hmi Hse. unfold valid_time.
  cbn [time.Year time.Month time.Day time.Hour time.Minute time.Second].
  generalize (time.daysIn m y). intros n. lia.
Qed.

Lemma read_clock_nonneg (value : string) (h mi se ns : Z) :
  read_clock value = Some (h, mi, se, ns) -> 0 <= h /\ 0 <= mi /\ 0 <= se.
Proof.
  unfold read_clock, read_hour.
  destruct value as [| h1 value]; [discriminate |].
  destruct (isDigit h1) eqn:H1; [| discriminate].
  apply digit_val_range in H1.
  assert (Hrest : forall hour v, 0 <= hour ->
            match v with
            | String p4 (String i1 (String i2 (String p5 (String s1 (String s2
                frac))))) =>
                if Ascii.eqb p4 ":" && isDigit i1 && isDigit i2
                   && Ascii.eqb p5 ":" && isDigit s1 && isDigit s2
                then
                  match read_fraction frac with
                  | Some ns =>
                      Some (hour, digit_val i1 * 10 + digit_val i2,
                            digit_val s1 * 10 + digit_val s2, ns)
                  | None => None
                  end
                else None
            | _ => None
            end = Some (h, mi, se, ns) -> 0 <= h /\ 0 <= mi /\ 0 <= se).
  { intros hour v Hhour.
    destruct v as [| p4 [| i1 [| i2 [| p5 [| s1 [| s2 frac]]]]]];
      try discriminate.
    destruct (_ && _) eqn:Hc; [| discriminate].
    destruct (read_fraction frac); [| discriminate]. intros [= <- <- <- <-].
    repeat (apply andb_prop in Hc; destruct Hc as [Hc ?]).
    repeat match goal with
           | H : isDigit _ = true |- _ => apply digit_val_range in H
           end.
    lia. }
  destruct value as [| h2 v2]; [discriminate |].
  destruct (isDigit h2) eqn:H2.
  - apply digit_val_range in H2.
    apply (Hrest (digit_val h1 * 10 + digit_val h2) v2). lia.
  - apply (Hrest (digit_val h1) (String h2 v2)). lia.
Qed.

(** [time.Parse] reads a text exactly as the amended words say. *)
Lemma time_Parse_layout (s : string) : time.Parse s = read_layout s.
Proof.
  unfold time.Parse, time.layout, read_layout.
  rewrite parse_chunks_cons. change (time.skip s "") with (Some s).
  cbv iota. rewrite stage_year.
  cbn [time.Month time.Day time.Hour time.Minute time.Second time.Nanosecond].
  destruct s as [| y1 [| y2 [| y3 [| y4 s]]]]; try reflexivity.
  destruct (isDigit y1 && isDigit y2 && isDigit y3 && isDigit y4);
    [| destruct s as [| ? [| ? [| ? [| ? [| ? [| ? [| ? ?]]]]]]]; reflexivity].
  set (y := ((digit_val y1 * 10 + digit_val y2) * 10 + digit_val y3) * 10
            + digit_val y4).
  rewrite parse_chunks_cons, stage_skip_byte by reflexivity.
  destruct s as [| p1 s]; [reflexivity |].
  destruct (Ascii.eqb p1 "/"); cbn [andb];
    [| destruct s as [| ? [| ? [| ? [| ? [| ? [| ? ?]]]]]]; reflexivity].
  cbn [time.parse_std]. rewrite stage_getnum_fixed.
  destruct s as [| m1 [| m2 s]]; try reflexivity.
  destruct (isDigit m1 && isDigit m2); cbn [andb];
    [| destruct s as [| ? [| ? [| ? [| ? ?]]]]; reflexivity].
  set (m := digit_val m1 * 10 + digit_val m2).
  assert (Htail : forall v,
            time.parse_chunks
              [("/", time.stdZeroDay); (" ", time.stdHour);
               (":", time.stdZeroMinute); (":", time.stdZeroSecond)]
              v (time.Date y m 1 0 0 0 0)
            = match v with
              | String p2 (String d1 (String d2 (String p3 rest))) =>
                  if Ascii.eqb p2 "/" && isDigit d1 && isDigit d2
                     && Ascii.eqb p3 " "
                  then
                    match read_clock (drop_spaces rest) with
                    | Some (hour, minute, second, ns) =>
                        if (24 <=? hour) || (60 <=? minute) || (60 <=? second)
                        then None
                        else Some (time.Date y m
                                     (digit_val d1 * 10 + digit_val d2)
                                     hour minute second ns)
                    | None => None
                    end
                  else None
              | _ => None
              end).
  { intros v. rewrite parse_chunks_cons, stage_skip_byte by reflexivity.
    destruct v as [| p2 v]; [reflexivity |].
    destruct (Ascii.eqb p2 "/"); cbn [andb];
      [| destruct v as [| ? [| ? [| ? ?]]]; reflexivity].
    cbn [time.parse_std]. rewrite stage_getnum_fixed.
    destruct v as [| d1 [| d2 v]]; try reflexivity.
    destruct (isDigit d1 && isDigit d2);
      [| destruct v as [| ? ?]; reflexivity].
    rewrite stage_clock. destruct v as [| p3 rest]; reflexivity. }
  destruct ((m <=? 0) || (12 <? m)) eqn:Hmonth.
  - (* a month out of range *)
    destruct s as [| p2 [| d1 [| d2 [| p3 rest]]]]; try reflexivity.
    destruct (_ && _); [| reflexivity].
    destruct (read_clock (drop_spaces rest)) as [[[[h mi] se] ns] |] eqn:Hclock;
      [| reflexivity].
    destruct (read_clock_nonneg _ _ _ _ _ Hclock) as (Hh & Hmi & Hse).
    rewrite valid_time_ranges by assumption. rewrite Hmonth. reflexivity.
  - rewrite Htail.
    destruct s as [| p2 [| d1 [| d2 [| p3 rest]]]]; try reflexivity.
    destruct (_ && _); [| reflexivity].
    destruct (read_clock (drop_spaces rest)) as [[[[h mi] se] ns] |] eqn:Hclock;
      [| reflexivity].
    destruct (read_clock_nonneg _ _ _ _ _ Hclock) as (Hh & Hmi & Hse).
    rewrite valid_time_ranges by assumption. rewrite Hmonth. cbn [negb andb].
    clear Hmonth.
    destruct ((24 <=? h) || (60 <=? mi) || (60 <=? se)); [reflexivity |].
    cbn [negb andb time.Day time.Month time.Year].
    destruct (_ || _); reflexivity.
Qed.

(** ** The decoder *)

Section DecoderFacts.

Context {FL : Floats}.

Lemma Parse_unfold (now : Z) (msg : string) :
  let parts := strings.Split (strings.TrimSpace msg) "," in
  Parse now msg =
  if (List.length parts <? 22)%nat || negb (String.eqb (index parts 0) "MSG")
  then (NewSBS1Message now, false)
  else
    ({| Timestamp := strconv.FormatInt now;
        MessageType := "MSG";
        TransmissionType := parseInt (index parts 1);
        SessionID := index parts 2;
        AircraftID := index parts 3;
        Icao24 := index parts 4;
        FlightID := index parts 5;
        GeneratedDate := parseDateTime (index parts 6) (index parts 7);
        LoggedDate := parseDateTime (index parts 8) (index parts 9);
        Callsign := strings.TrimSpace (index parts 10);
        Altitude := parseInt (index parts 11);
        GroundSpeed := parseFloat (index parts 12);
        Track := parseFloat (index parts 13);
        Lat := parseFloat (index parts 14);
        Lon := parseFloat (index parts 15);
        VerticalRate := parseInt (index parts 16);
        Squawk := parseInt (index parts 17);
        Alert := parseBool (index parts 18);
        Emergency := parseBool (index parts 19);
        Spi := parseBool (index parts 20);
        OnGround := parseBool (index parts 21) |}, true).
Proof. reflexivity. Qed.

(** The test of [Parse] in the words of the specification. *)
Lemma structural_test (parts : list string) :
  (List.length parts <? 22)%nat || negb (String.eqb (index parts 0) "MSG") = false
  <-> (22 <= List.length parts)%nat /\ hd_error parts = Some "MSG".
Proof.
  rewrite orb_false_iff, Nat.ltb_ge, negb_false_iff, String.eqb_eq.
  destruct parts as [| p0 ps]; cbn [index nth hd_error List.length].
  - split; intros [H _]; lia.
  - split; intros [H1 H2]; split; congruence.
Qed.

Lemma Parse_accepted (now : Z) (msg : string) :
  snd (Parse now msg) = true <->
  (22 <= List.length (strings.Split (strings.TrimSpace msg) ","))%nat
  /\ hd_error (strings.Split (strings.TrimSpace msg) ",") = Some "MSG".
Proof.
  rewrite <- structural_test, Parse_unfold. cbv zeta.
  destruct (_ || _); cbn [snd]; split; congruence.
Qed.

(** The record of an accepted line. *)
Lemma Parse_accepted_record (now : Z) (msg : string) :
  snd (Parse now msg) = true ->
  let parts := strings.Split (strings.TrimSpace msg) "," in
  fst (Parse now msg) =
  {| Timestamp := strconv.FormatInt now;
     MessageType := "MSG";
     TransmissionType := parseInt (index parts 1);
     SessionID := index parts 2;
     AircraftID := index parts 3;
     Icao24 := index parts 4;
     FlightID := index parts 5;
     GeneratedDate := parseDateTime (index parts 6) (index parts 7);
     LoggedDate := parseDateTime (index parts 8) (index parts 9);
     Callsign := strings.TrimSpace (index parts 10);
     Altitude := parseInt (index parts 11);
     GroundSpeed := parseFloat (index parts 12);
     Track := parseFloat (index parts 13);
     Lat := parseFloat (index parts 14);
     Lon := parseFloat (index parts 15);
     VerticalRate := parseInt (index parts 16);
     Squawk := parseInt (index parts 17);
     Alert := parseBool (index parts 18);
     Emergency := parseBool (index parts 19);
     Spi := parseBool (index parts 20);
     OnGround := parseBool (index parts 21) |}.
Proof.
  rewrite Parse_unfold. cbv zeta.
  destruct (_ || _); cbn [snd fst]; [discriminate | reflexivity].
Qed.

(** A line written from 22 fields or more, the first of them ["MSG"], none
    with a comma, and no white space around the line: the record takes its
    fields from them. *)
Lemma Parse_Join (now : Z) (fields : list string) :
  (22 <= List.length fields)%nat ->
  hd_error fields = Some "MSG" ->
  forallb (fun f => negb (has_byte "," f)) fields = true ->
  strings.TrimSpace (Join fields ",") = Join fields "," ->
  let field i := nth i fields "" in
  Parse now (Join fields ",") =
  ({| Timestamp := strconv.FormatInt now;
      MessageType := "MSG";
      TransmissionType := parseInt (field 1%nat);
      SessionID := field 2%nat;
      AircraftID := field 3%nat;
      Icao24 := field 4%nat;
      FlightID := field 5%nat;
      GeneratedDate := parseDateTime (field 6%nat) (field 7%nat);
      LoggedDate := parseDateTime (field 8%nat) (field 9%nat);
      Callsign := strings.TrimSpace (field 10%nat);
      Altitude := parseInt (field 11%nat);
      GroundSpeed := parseFloat (field 12%nat);
      Track := parseFloat (field 13%nat);
      Lat := parseFloat (field 14%nat);
      Lon := parseFloat (field 15%nat);
      VerticalRate := parseInt (field 16%nat);
      Squawk := parseInt (field 17%nat);
      Alert := parseBool (field 18%nat);
      Emergency := parseBool (field 19%nat);
      Spi := parseBool (field 20%nat);
      OnGround := parseBool (field 21%nat) |}, true).
Proof.
  intros Hlen Hhd Hcommas Htight field.
  assert (Hne : fields <> []) by (destruct fields; [discriminate | congruence]).
  rewrite Parse_unfold. cbv zeta.
  rewrite Htight, (Split_Join fields "," Hne Hcommas).
  replace (_ || _) with false
    by (symmetry; apply structural_test; auto).
  reflexivity.
Qed.

(** The timestamp of every record, accepted or not, is the clock reading at
    the call in decimal digits. *)
Lemma Timestamp_is_clock (now : Z) (msg : string) :
  - 2 ^ 63 <= now < 2 ^ 63 ->
  strconv.Atoi (Timestamp (fst (Parse now msg))) = (now, None).
Proof.
  intros Hnow. rewrite Parse_unfold. cbv zeta.
  destruct (_ || _); cbn [fst Timestamp NewSBS1Message];
    now apply Atoi_FormatInt.
Qed.

(** C1. [Parse] returns [false] exactly for the lines that, trimmed and split
    on [','], have fewer than 22 fields or a first field other than ["MSG"];
    every other line is accepted, one with more than 22 fields too.  Neither
    the clock nor any other field takes part in the decision. *)
Theorem Parse_rejects_iff (now : Z) (msg : string) :
  let parts := strings.Split (strings.TrimSpace msg) "," in
  (snd (Parse now msg) = false <->
   (List.length parts < 22)%nat \/ hd_error parts <> Some "MSG")
  /\ (snd (Parse now msg) = true <->
      (22 <= List.length parts)%nat /\ hd_error parts = Some "MSG").
Proof.
  intros parts. split; [| apply Parse_accepted].
  pose proof (Parse_accepted now msg) as Hacc. fold parts in Hacc.
  destruct (snd (Parse now msg)).
  - split; [discriminate |].
    destruct Hacc as [Hacc _]. specialize (Hacc eq_refl).
    intros [H | H]; [lia | tauto].
  - split; [intros _ | reflexivity].
    destruct (Nat.lt_ge_cases (List.length parts) 22) as [Hlt | Hge];
      [now left | right].
    intros Hhd. destruct Hacc as [_ Hacc].
    specialize (Hacc (conj Hge Hhd)). discriminate.
Qed.

(** C10. The record that comes with [accepted = false] holds the decode-time
    timestamp and nothing else: its kind is the empty string, which is not
    the kind ["MSG"] of a decoded record, and every other field is the zero
    value of its type. *)
Theorem Parse_rejected_record (now : Z) (msg : string) :
  snd (Parse now msg) = false ->
  let rec := fst (Parse now msg) in
  rec = NewSBS1Message now
  /\ Timestamp rec = strconv.FormatInt now
  /\ MessageType rec = "" /\ MessageType rec <> "MSG"
  /\ TransmissionType rec = 0
  /\ SessionID rec = "" /\ AircraftID rec = "" /\ Icao24 rec = ""
  /\ FlightID rec = ""
  /\ GeneratedDate rec = None /\ LoggedDate rec = None
  /\ Callsign rec = ""
  /\ Altitude rec = 0
  /\ GroundSpeed rec = float32_zero /\ Track rec = float32_zero
  /\ Lat rec = float32_zero /\ Lon rec = float32_zero
  /\ VerticalRate rec = 0 /\ Squawk rec = 0
  /\ Alert rec = false /\ Emergency rec = false /\ Spi rec = false
  /\ OnGround rec = false.
Proof.
  rewrite Parse_unfold. cbv zeta.
  destruct (_ || _); cbn [snd fst]; [intros _ | discriminate].
  cbn. repeat split. discriminate.
Qed.

(** C2. The record of an accepted line takes every field from its position
    among the fields of the trimmed line, which are at least 22: the four
    identifiers as they stand, the callsign trimmed, the numbers and flags
    through [parseInt], [parseFloat] and [parseBool]; its kind is ["MSG"]. *)
Theorem Parse_field_positions (now : Z) (msg : string) :
  snd (Parse now msg) = true ->
  let parts := strings.Split (strings.TrimSpace msg) "," in
  let field i := nth i parts "" in
  let rec := fst (Parse now msg) in
  (22 <= List.length parts)%nat
  /\ field 0%nat = "MSG"
  /\ MessageType rec = "MSG"
  /\ TransmissionType rec = parseInt (field 1%nat)
  /\ SessionID rec = field 2%nat
  /\ AircraftID rec = field 3%nat
  /\ Icao24 rec = field 4%nat
  /\ FlightID rec = field 5%nat
  /\ Callsign rec = strings.TrimSpace (field 10%nat)
  /\ Altitude rec = parseInt (field 11%nat)
  /\ GroundSpeed rec = parseFloat (field 12%nat)
  /\ Track rec = parseFloat (field 13%nat)
  /\ Lat rec = parseFloat (field 14%nat)
  /\ Lon rec = parseFloat (field 15%nat)
  /\ VerticalRate rec = parseInt (field 16%nat)
  /\ Squawk rec = parseInt (field 17%nat)
  /\ Alert rec = parseBool (field 18%nat)
  /\ Emergency rec = parseBool (field 19%nat)
  /\ Spi rec = parseBool (field 20%nat)
  /\ OnGround rec = parseBool (field 21%nat).
Proof.
  intros Hok. pose proof Hok as Hacc. apply Parse_accepted in Hacc.
  destruct Hacc as [Hlen Hhd]. cbv zeta.
  rewrite (Parse_accepted_record now msg Hok). cbv zeta.
  split; [exact Hlen |]. split.
  - destruct (strings.Split (strings.TrimSpace msg) ",");
      cbn in Hhd |- *; congruence.
  - cbn. unfold index. repeat split.
Qed.

(** The lines of [parseInt], [parseFloat] and [parseBool]. *)
Lemma parseInt_ok (s : string) (i : Z) :
  strconv.Atoi s = (i, None) -> parseInt s = int32 i.
Proof. unfold parseInt. now intros ->. Qed.

Lemma parseInt_default (s : string) :
  snd (strconv.Atoi s) <> None -> parseInt s = 0.
Proof.
  unfold parseInt. destruct (strconv.Atoi s) as [i [e |]]; cbn [snd]; congruence.
Qed.

Lemma parseBool_default (s : string) :
  snd (strconv.Atoi s) <> None -> parseBool s = false.
Proof.
  unfold parseBool. destruct (strconv.Atoi s) as [i [e |]]; cbn [snd]; congruence.
Qed.

Lemma parseFloat_default (s : string) :
  snd (strconv_ParseFloat s 32) <> None -> parseFloat s = float32_zero.
Proof.
  unfold parseFloat.
  destruct (strconv_ParseFloat s 32) as [f [e |]]; cbn [snd]; congruence.
Qed.

Lemma Atoi_not_numeric (s : string) :
  numeric_text s = false -> snd (strconv.Atoi s) <> None.
Proof.
  intros Hn. destruct (strconv.Atoi s) as [v [e |]] eqn:HA; cbn [snd];
    [discriminate |].
  apply Atoi_ok_numeric in HA. congruence.
Qed.

(** C3. A numeric or boolean field whose text fails to parse takes the
    default of its type, [0], [0.0] or [false], and the line is accepted all
    the same: acceptance is the test of the field count and the tag.  A flag
    is [true] for a text that parses as an integer other than zero, [false]
    for ["0"] and [false] for every text that is not numeric.  A text parses
    as an integer when it is numeric and its value is an [int]. *)
Theorem field_defaults (now : Z) (msg : string) :
  let parts := strings.Split (strings.TrimSpace msg) "," in
  let field i := nth i parts "" in
  let rec := fst (Parse now msg) in
  ((22 <= List.length parts)%nat -> hd_error parts = Some "MSG" ->
   snd (Parse now msg) = true
   /\ Forall (fun '(get, i) =>
                snd (strconv.Atoi (field i)) <> None -> get rec = 0)
        [(TransmissionType, 1%nat); (Altitude, 11%nat);
         (VerticalRate, 16%nat); (Squawk, 17%nat)]
   /\ Forall (fun '(get, i) =>
                snd (strconv_ParseFloat (field i) 32) <> None ->
                get rec = float32_zero)
        [(GroundSpeed, 12%nat); (Track, 13%nat); (Lat, 14%nat); (Lon, 15%nat)]
   /\ Forall (fun '(get, i) =>
                (snd (strconv.Atoi (field i)) <> None -> get rec = false)
                /\ (numeric_text (field i) = false -> get rec = false)
                /\ (field i = "0" -> get rec = false)
                /\ (forall b, strconv.Atoi (field i) = (b, None) -> b <> 0 ->
                              get rec = true))
        [(Alert, 18%nat); (Emergency, 19%nat); (Spi, 20%nat);
         (OnGround, 21%nat)])
  /\ (forall s, snd (strconv.Atoi s) <> None ->
                parseInt s = 0 /\ parseBool s = false)
  /\ (forall s, snd (strconv_ParseFloat s 32) <> None ->
                parseFloat s = float32_zero)
  /\ (forall s b, strconv.Atoi s = (b, None) -> b <> 0 -> parseBool s = true)
  /\ parseBool "1" = true
  /\ parseBool "0" = false
  /\ (forall s, numeric_text s = false -> parseBool s = false)
  /\ (forall s, numeric_text s = true ->
                - 2 ^ 63 <= signed_value s < 2 ^ 63 ->
                parseBool s = negb (signed_value s =? 0))
  /\ (forall s, numeric_text s = false
                \/ ~ - 2 ^ 63 <= signed_value s < 2 ^ 63 ->
                parseInt s = 0 /\ parseBool s = false).
Proof.
  intros parts field rec.
  assert (Hnz : forall s b, strconv.Atoi s = (b, None) -> b <> 0 ->
                            parseBool s = true).
  { intros s b HA Hb. unfold parseBool. rewrite HA.
    apply negb_true_iff, Z.eqb_neq, Hb. }
  assert (Hnn : forall s, numeric_text s = false -> parseBool s = false).
  { intros s Hs. apply parseBool_default, Atoi_not_numeric, Hs. }
  assert (Hin : forall s, numeric_text s = true ->
                  - 2 ^ 63 <= signed_value s < 2 ^ 63 ->
                  parseBool s = negb (signed_value s =? 0)).
  { intros s Hs Hr. unfold parseBool. rewrite (Atoi_numeric s Hs).
    compare_cases. }
  assert (Hout : forall s, numeric_text s = false
                           \/ ~ - 2 ^ 63 <= signed_value s < 2 ^ 63 ->
                  snd (strconv.Atoi s) <> None).
  { intros s [Hs | Hr]; [now apply Atoi_not_numeric |].
    destruct (numeric_text s) eqn:Hs; [| now apply Atoi_not_numeric].
    rewrite (Atoi_numeric s Hs). compare_cases; cbn [snd]; discriminate. }
  split; [| repeat split; auto using parseInt_default, parseBool_default,
                                  parseFloat_default].
  intros Hlen Hhd.
  assert (Hok : snd (Parse now msg) = true) by (apply Parse_accepted; auto).
  split; [exact Hok |].
  assert (Hflag : forall s, (snd (strconv.Atoi s) <> None -> parseBool s = false)
            /\ (numeric_text s = false -> parseBool s = false)
            /\ (s = "0" -> parseBool s = false)
            /\ (forall b, strconv.Atoi s = (b, None) -> b <> 0 ->
                          parseBool s = true)).
  { intros s. repeat split; eauto using parseBool_default.
    intros ->. reflexivity. }
  subst rec. rewrite (Parse_accepted_record now msg Hok). cbv zeta.
  fold parts. unfold index. fold field.
  repeat split; repeat constructor;
    cbn [TransmissionType Altitude VerticalRate Squawk GroundSpeed Track Lat
         Lon Alert Emergency Spi OnGround];
    auto using parseInt_default, parseFloat_default; apply Hflag.
Qed.

(** C4, as amended.  For an accepted line [generatedAt] is read from fields
    6 and 7 joined by a space, and [loggedAt] from fields 8 and 9 by the
    same rule; the line is accepted whatever these fields hold.  The joined
    text gives an instant exactly when it is [YYYY/MM/DD], one space or
    more, an hour of one or two digits, [:MM:SS], and then nothing or a
    period or a comma with one digit or more, and the numbers are a day of
    the calendar and a time of the day; the instant has these numbers, and
    the first nine digits of the fraction as nanoseconds.  Every other text
    gives null.  So a text of the pattern [YYYY/MM/DD HH:MM:SS] gives the
    instant it denotes, or null when that is no date or time. *)
Theorem parseDateTime_layout (now : Z) (msg : string) :
  snd (Parse now msg) = true ->
  let parts := strings.Split (strings.TrimSpace msg) "," in
  let field i := nth i parts "" in
  let rec := fst (Parse now msg) in
  GeneratedDate rec = read_layout (field 6%nat ++ " " ++ field 7%nat)%string
  /\ LoggedDate rec = read_layout (field 8%nat ++ " " ++ field 9%nat)%string
  /\ (forall now' msg',
        let parts' := strings.Split (strings.TrimSpace msg') "," in
        List.length parts' = List.length parts ->
        (forall i, ~ In i [6; 7; 8; 9]%nat -> nth i parts' "" = field i) ->
        snd (Parse now' msg') = true)
  /\ (forall date timeStr,
        parseDateTime date timeStr = read_layout (date ++ " " ++ timeStr)%string)
  /\ (forall date timeStr t,
        read_pattern (date ++ " " ++ timeStr)%string = Some t ->
        parseDateTime date timeStr = if valid_time t then Some t else None)
  /\ parseDateTime "2023/05/01" "12:00:00" = Some (time.Date 2023 5 1 12 0 0 0)
  /\ time.Unix (time.Date 2023 5 1 12 0 0 0) = 1682942400
  /\ parseDateTime "garbage" "12:00:00" = None
  /\ parseDateTime "2023/02/29" "12:00:00" = None
  /\ parseDateTime "2023/05/01" "24:00:00" = None
  /\ parseDateTime "2023/05/01" "12:00:00xyz" = None
  /\ parseDateTime "2023/05/01" "12:00:00." = None
  /\ parseDateTime "2023/05/01" "12:00:00.25x" = None
  /\ parseDateTime "2023/5/1" "12:00:00" = None
  /\ parseDateTime "2023/05/01" "9:00:00" = Some (time.Date 2023 5 1 9 0 0 0)
  /\ parseDateTime "2023/05/01 " " 12:00:00" = Some (time.Date 2023 5 1 12 0 0 0)
  /\ parseDateTime "2023/05/01" "12:00:00.250"
     = Some (time.Date 2023 5 1 12 0 0 250000000)
  /\ parseDateTime "2023/05/01" "12:00:00,5"
     = Some (time.Date 2023 5 1 12 0 0 500000000)
  /\ parseDateTime "2023/05/01" "12:00:00.1234567891"
     = Some (time.Date 2023 5 1 12 0 0 123456789).
Proof.
  intros Hok parts field rec.
  assert (Hrec : GeneratedDate rec = parseDateTime (field 6%nat) (field 7%nat)
                 /\ LoggedDate rec = parseDateTime (field 8%nat) (field 9%nat)).
  { subst rec. revert Hok. rewrite Parse_unfold. cbv zeta.
    destruct (_ || _); cbn [snd fst]; [discriminate | intros _].
    split; reflexivity. }
  destruct Hrec as [Hg Hl].
  split; [rewrite Hg; apply time_Parse_layout |].
  split; [rewrite Hl; apply time_Parse_layout |].
  split.
  { intros now' msg' parts' Hlen Hsame. apply Parse_accepted. fold parts'.
    apply Parse_accepted in Hok. fold parts in Hok. destruct Hok as [H22 Hhd].
    split; [lia |].
    specialize (Hsame 0%nat ltac:(cbn; lia)). unfold field in Hsame.
    destruct parts' as [| p0' ps']; [cbn in Hlen; lia |].
    destruct parts as [| p0 ps]; [discriminate |].
    cbn in Hsame, Hhd |- *. congruence. }
  split; [intros date timeStr; apply time_Parse_layout |].
  split; [intros date timeStr t Ht; apply time_Parse_pattern, Ht |].
  repeat split; vm_compute; reflexivity.
Qed.

End DecoderFacts.

(** ** Binary floating point: rounding to a format *)

Lemma digits2_log2 (m : positive) :
  Zpos (digits2_pos m) = Z.log2 (Zpos m) + 1.
Proof.
  induction m as [m IH | m IH |]; cbn [digits2_pos]; [| | reflexivity].
  - rewrite Pos2Z.inj_succ, IH.
    replace (Zpos m~1) with (2 * Zpos m + 1) by lia.
    rewrite Z.log2_succ_double by lia. lia.
  - rewrite Pos2Z.inj_succ, IH.
    replace (Zpos m~0) with (2 * Zpos m) by lia.
    rewrite Z.log2_double by lia. lia.
Qed.

Lemma Zdigits2_log2 (m : Z) : 0 < m -> Zdigits2 m = Z.log2 m + 1.
Proof. destruct m as [| p | p]; try lia. intros _. apply digits2_log2. Qed.

Lemma Zdigits2_shiftr (m n : Z) :
  0 < m -> 0 <= n -> 0 < m / 2 ^ n ->
  Zdigits2 (m / 2 ^ n) = Zdigits2 m - n.
Proof.
  intros Hm Hn Hq. rewrite !Zdigits2_log2 by assumption.
  rewrite <- Z.shiftr_div_pow2 by assumption.
  rewrite Z.log2_shiftr by assumption.
  assert (n <= Z.log2 m).
  { apply Z.log2_le_pow2; [assumption |].
    destruct (Z_lt_le_dec m (2 ^ n)) as [Hlt | Hle]; [| assumption].
    rewrite Z.div_small in Hq by lia. lia. }
  lia.
Qed.

Lemma Zdigits2_small (m n : Z) :
  0 < m -> 0 <= n -> m / 2 ^ n = 0 -> Zdigits2 m <= n.
Proof.
  intros Hm Hn Hq. rewrite Zdigits2_log2 by assumption.
  assert (m < 2 ^ n).
  { apply Z.div_small_iff in Hq; [| pose proof (Z.pow_pos_nonneg 2 n); lia].
    lia. }
  assert (Z.log2 m < n) by (apply Z.log2_lt_pow2; assumption). lia.
Qed.

Lemma Zdigits2_mono (a b : Z) : 0 < a -> a <= b -> Zdigits2 a <= Zdigits2 b.
Proof.
  intros Ha Hab. rewrite !Zdigits2_log2 by lia.
  pose proof (Z.log2_le_mono a b Hab). lia.
Qed.

Lemma shr_1_m (mrs : shr_record) :
  0 <= shr_m mrs -> shr_m (shr_1 mrs) = shr_m mrs / 2.
Proof.
  destruct mrs as [m r s]. cbn [shr_m]. intros Hm.
  destruct m as [| q | q]; [reflexivity | | lia].
  destruct q as [q | q |]; cbn [shr_1 shr_m].
  - replace (Zpos q~1) with (2 * Zpos q + 1) by lia.
    apply Z.div_unique with (r := 1); lia.
  - replace (Zpos q~0) with (2 * Zpos q) by lia.
    apply Z.div_unique with (r := 0); lia.
  - reflexivity.
Qed.

Lemma iter_shr_1_m (p : positive) :
  forall mrs, 0 <= shr_m mrs ->
  shr_m (iter_pos shr_1 p mrs) = shr_m mrs / 2 ^ Zpos p.
Proof.
  assert (Hdiv : forall a b c, 0 <= a -> 0 < b -> 0 < c -> a / b / c = a / (b * c)).
  { intros. apply Z.div_div; lia. }
  induction p as [p IH | p IH |]; intros mrs Hm; cbn [iter_pos].
  - assert (H1 : 0 <= shr_m (shr_1 mrs))
      by (rewrite shr_1_m by assumption; apply Z.div_pos; lia).
    assert (H2 : 0 <= shr_m (iter_pos shr_1 p (shr_1 mrs)))
      by (rewrite IH by assumption; apply Z.div_pos; lia).
    rewrite IH, IH, shr_1_m by assumption.
    pose proof (Z.pow_pos_nonneg 2 (Zpos p) ltac:(lia) ltac:(lia)).
    rewrite (Hdiv (shr_m mrs) 2 (2 ^ Zpos p)) by lia.
    rewrite (Hdiv (shr_m mrs) (2 * 2 ^ Zpos p) (2 ^ Zpos p)) by lia.
    f_equal.
    replace (Zpos p~1) with (1 + (Zpos p + Zpos p)) by lia.
    rewrite !Z.pow_add_r by lia. ring.
  - assert (H2 : 0 <= shr_m (iter_pos shr_1 p mrs))
      by (rewrite IH by assumption; apply Z.div_pos; lia).
    rewrite IH, IH by assumption.
    pose proof (Z.pow_pos_nonneg 2 (Zpos p) ltac:(lia) ltac:(lia)).
    rewrite (Hdiv (shr_m mrs) (2 ^ Zpos p) (2 ^ Zpos p)) by lia.
    f_equal.
    replace (Zpos p~0) with (Zpos p + Zpos p) by lia.
    rewrite !Z.pow_add_r by lia. ring.
  - rewrite shr_1_m by assumption. reflexivity.
Qed.

(** [shr] by [n] bits: the mantissa is divided by [2^n]. *)
Lemma shr_m_e (mrs : shr_record) (e n : Z) :
  0 <= shr_m mrs ->
  shr_m (fst (shr mrs e n)) = shr_m mrs / 2 ^ Z.max 0 n
  /\ snd (shr mrs e n) = e + Z.max 0 n.
Proof.
  intros Hm. destruct n as [| p | p]; cbn [shr fst snd].
  - rewrite Z.div_1_r. lia.
  - rewrite iter_shr_1_m by assumption. split; [f_equal; f_equal |]; lia.
  - rewrite Z.div_1_r. lia.
Qed.

Section Round.

Variables prec emax : Z.
Hypothesis prec_pos : 0 < prec.

Lemma shr_record_of_loc_m (m : Z) (l : location) :
  shr_m (shr_record_of_loc m l) = m.
Proof. destruct l as [| []]; reflexivity. Qed.

(** [shr_fexp] on a mantissa whose exponent is not above the one of its
    format: the exponent becomes that one, and a mantissa that is not zero
    is canonical. *)
Lemma shr_fexp_canonical (m e : Z) (l : location) :
  0 < m -> e <= fexp prec emax (Zdigits2 m + e) ->
  let '(mrs, e') := shr_fexp prec emax m e l in
  e' = fexp prec emax (Zdigits2 m + e)
  /\ shr_m mrs = m / 2 ^ (e' - e)
  /\ (0 < shr_m mrs -> Zdigits2 (shr_m mrs) + e' = Zdigits2 m + e).
Proof.
  intros Hm He. unfold shr_fexp.
  set (n := fexp prec emax (Zdigits2 m + e) - e).
  pose proof (shr_m_e (shr_record_of_loc m l) e n) as H.
  rewrite shr_record_of_loc_m in H. specialize (H ltac:(lia)).
  destruct (shr (shr_record_of_loc m l) e n) as [mrs e']. cbn [fst snd] in H.
  destruct H as [Hmrs He'].
  replace (Z.max 0 n) with n in * by lia.
  assert (Hn : e' - e = n) by lia.
  split; [lia |]. split; [rewrite Hn; exact Hmrs |].
  intros Hpos. rewrite Hmrs in *.
  rewrite Zdigits2_shiftr by lia. lia.
Qed.

Lemma round_nearest_even_cases (m : Z) (l : location) :
  round_nearest_even m l = m \/ round_nearest_even m l = m + 1.
Proof.
  destruct l as [| []]; cbn [round_nearest_even]; auto.
  destruct (Z.even m); auto.
Qed.

Lemma iter_xO (m d : positive) :
  Zpos (Pos.iter xO m d) = Zpos m * 2 ^ Zpos d.
Proof.
  induction d as [| d IH] using Pos.peano_ind.
  - cbn [Pos.iter]. lia.
  - rewrite Pos.iter_succ, Pos2Z.inj_xO, IH, Pos2Z.inj_succ, Z.pow_succ_r by lia.
    ring.
Qed.

(** [shl_align] leaves the exponent at or below the one of the format. *)
Lemma shl_align_fexp (mx : positive) (ex : Z) :
  let '(mz, ez) :=
    shl_align mx ex (fexp prec emax (Zpos (digits2_pos mx) + ex)) in
  ez <= fexp prec emax (Zdigits2 (Zpos mz) + ez).
Proof.
  unfold shl_align.
  destruct (fexp prec emax (Zpos (digits2_pos mx) + ex) - ex) as [| d | d] eqn:Hd;
    cbn [Zdigits2]; try lia.
  rewrite !digits2_log2, iter_xO, Z.log2_mul_pow2 by lia.
  rewrite digits2_log2 in Hd.
  match goal with
  | |- _ <= fexp _ _ ?A =>
      replace A with (Z.log2 (Zpos mx) + 1 + ex) by lia
  end.
  lia.
Qed.

Lemma fexp_mono (a b : Z) : a <= b -> fexp prec emax a <= fexp prec emax b.
Proof. unfold fexp. lia. Qed.

(** Rounding gives a number of the format. *)
Lemma binary_round_valid (sx : bool) (mx : positive) (ex : Z) :
  valid_binary prec emax (binary_round prec emax sx mx ex) = true.
Proof.
  unfold binary_round.
  pose proof (shl_align_fexp mx ex) as Halign.
  destruct (shl_align mx ex _) as [mz ez].
  unfold binary_round_aux.
  pose proof (shr_fexp_canonical (Zpos mz) ez loc_Exact ltac:(lia) Halign) as H1.
  destruct (shr_fexp prec emax (Zpos mz) ez loc_Exact) as [mrs1 e1].
  destruct H1 as (He1 & Hm1 & Hd1).
  set (m2 := round_nearest_even (shr_m mrs1) (loc_of_shr_record mrs1)).
  assert (Hm1pos : 0 <= shr_m mrs1).
  { rewrite Hm1. apply Z.div_pos; [lia |].
    apply Z.pow_pos_nonneg; lia. }
  assert (Hm2 : m2 = shr_m mrs1 \/ m2 = shr_m mrs1 + 1)
    by apply round_nearest_even_cases.
  destruct (Z.eq_dec m2 0) as [Hz | Hnz].
  { (* the mantissa is rounded to zero *)
    rewrite Hz. unfold shr_fexp.
    pose proof (shr_m_e (shr_record_of_loc 0 loc_Exact) e1
                  (fexp prec emax (Zdigits2 0 + e1) - e1) ltac:(cbn; lia)) as H.
    destruct (shr _ e1 _) as [mrs2 e2]. cbn [fst snd shr_m shr_record_of_loc] in H.
    destruct H as [-> _]. rewrite Z.div_0_l; [reflexivity |].
    apply Z.pow_nonzero; lia. }
  assert (Hpos2 : 0 < m2) by lia.
  assert (Hle : e1 <= fexp prec emax (Zdigits2 m2 + e1)).
  { destruct (Z.eq_dec (shr_m mrs1) 0) as [H0 | H0].
    - (* all the bits were shifted out: the exponent is the least one *)
      assert (Hsmall : Zdigits2 (Zpos mz) <= e1 - ez).
      { apply Zdigits2_small; [lia | lia |]. rewrite <- Hm1. exact H0. }
      assert (He : e1 = emin prec emax) by (unfold fexp in *; lia).
      unfold fexp. lia.
    - rewrite He1 at 1. rewrite <- (Hd1 ltac:(lia)). apply fexp_mono.
      assert (Zdigits2 (shr_m mrs1) <= Zdigits2 m2)
        by (apply Zdigits2_mono; lia).
      lia. }
  pose proof (shr_fexp_canonical m2 e1 loc_Exact Hpos2 Hle) as H2.
  destruct (shr_fexp prec emax m2 e1 loc_Exact) as [mrs2 e2].
  destruct H2 as (He2 & Hm2' & Hd2).
  destruct (shr_m mrs2) as [| m3 | m3] eqn:Hm3; [reflexivity | | reflexivity].
  destruct (e2 <=? emax - prec) eqn:Hmax; [| reflexivity].
  cbn [valid_binary]. unfold bounded, canonical_mantissa.
  rewrite Hmax, andb_true_r. apply Z.eqb_eq.
  specialize (Hd2 ltac:(lia)). cbn [Zdigits2] in Hd2. rewrite Hd2. lia.
Qed.

(** A number of the format is rounded to itself. *)
Lemma binary_round_exact (sx : bool) (mx : positive) (ex : Z) :
  bounded prec emax mx ex = true ->
  binary_round prec emax sx mx ex = S754_finite sx mx ex.
Proof.
  unfold bounded, canonical_mantissa. intros H.
  apply andb_prop in H. destruct H as [Hc Hb]. apply Z.eqb_eq in Hc.
  unfold binary_round, shl_align. rewrite Hc, Z.sub_diag.
  unfold binary_round_aux, shr_fexp. cbn [Zdigits2].
  rewrite Hc, Z.sub_diag.
  cbn [shr shr_record_of_loc shr_m loc_of_shr_record round_nearest_even
       Zdigits2].
  rewrite Hc, Z.sub_diag. cbn [shr shr_record_of_loc shr_m].
  rewrite Hb. reflexivity.
Qed.

End Round.

Lemma shifted_1 (mrs : shr_record) :
  0 <= shr_m mrs -> shifted 1 mrs (shr_1 mrs).
Proof.
  intros Hm. split; [rewrite shr_1_m by assumption; reflexivity |].
  destruct mrs as [m r s]. cbn [shr_m shr_r shr_s] in *.
  change (2 ^ (1 - 1)) with 1. rewrite Z.mod_1_r. cbn [Z.eqb negb].
  rewrite orb_false_r.
  destruct m as [| [q | q |] | q]; cbn [shr_1 shr_r shr_s]; try lia;
    split; reflexivity.
Qed.

Lemma low_bits_split (m a b : Z) :
  0 <= m -> 1 <= a -> 0 <= b ->
  (m mod 2 ^ (a + b) =? 0)
  = negb (Z.testbit m (a - 1)) && (m mod 2 ^ (a - 1) =? 0)
    && (m / 2 ^ a mod 2 ^ b =? 0).
Proof.
  intros Hm Ha Hb.
  pose proof (Z.pow_pos_nonneg 2 a ltac:(lia) ltac:(lia)) as Hpa.
  pose proof (Z.pow_pos_nonneg 2 b ltac:(lia) ltac:(lia)) as Hpb.
  pose proof (Z.pow_pos_nonneg 2 (a - 1) ltac:(lia) ltac:(lia)) as Hpa1.
  rewrite Z.pow_add_r by lia.
  rewrite (Z.rem_mul_r m (2 ^ a) (2 ^ b)) by lia.
  replace (2 ^ a) with (2 ^ (a - 1) * 2) at 1
    by (rewrite Z.mul_comm, <- Z.pow_succ_r by lia; f_equal; lia).
  rewrite (Z.rem_mul_r m (2 ^ (a - 1)) 2) by lia.
  rewrite <- (Z.testbit_spec' m (a - 1)) by lia.
  pose proof (Z.mod_pos_bound m (2 ^ (a - 1)) ltac:(lia)) as H1.
  pose proof (Z.mod_pos_bound (m / 2 ^ a) (2 ^ b) ltac:(lia)) as H2.
  set (x := m mod 2 ^ (a - 1)) in *.
  set (y := m / 2 ^ a mod 2 ^ b) in *.
  assert (Hy : 0 <= 2 ^ a * y) by nia.
  destruct (Z.testbit m (a - 1)); cbn [Z.b2z negb andb].
  - apply Z.eqb_neq. nia.
  - rewrite Z.mul_0_r, Z.add_0_r.
    destruct (Z.eqb_spec x 0) as [Hx | Hx]; cbn [andb].
    + rewrite Hx, Z.add_0_l.
      destruct (Z.eqb_spec y 0) as [Hy0 | Hy0].
      * rewrite Hy0. apply Z.eqb_eq. lia.
      * apply Z.eqb_neq. nia.
    + apply Z.eqb_neq. nia.
Qed.

Lemma shifted_compose (k1 k2 : Z) (mrs r1 r2 : shr_record) :
  0 <= shr_m mrs -> 1 <= k1 -> 1 <= k2 ->
  shifted k1 mrs r1 -> shifted k2 r1 r2 -> shifted (k1 + k2) mrs r2.
Proof.
  intros Hm H1 H2 S1 S2.
  assert (Hk1 : 0 <= k1) by lia. assert (Hk2 : 0 <= k2) by lia.
  assert (Hk2' : 0 <= k2 - 1) by lia.
  pose proof (Z.pow_pos_nonneg 2 k1 ltac:(lia) Hk1) as Hp1.
  pose proof (Z.pow_pos_nonneg 2 k2 ltac:(lia) Hk2) as Hp2.
  assert (Hn1 : 2 ^ k1 <> 0) by lia.
  assert (Hsum : k1 + k2 - 1 = k1 + (k2 - 1)) by lia.
  assert (Hbit : k2 - 1 + k1 = k1 + k2 - 1) by lia.
  destruct S1 as (Hm1 & Hr1 & Hs1). destruct S2 as (Hm2 & Hr2 & Hs2).
  split; [| split].
  - rewrite Hm2, Hm1. rewrite Z.div_div by assumption.
    rewrite <- Z.pow_add_r by assumption. reflexivity.
  - rewrite Hr2, Hm1, Z.div_pow2_bits by assumption. now rewrite Hbit.
  - rewrite Hs2, Hr1, Hs1, Hm1, Hsum.
    rewrite (low_bits_split (shr_m mrs) k1 (k2 - 1)) by assumption.
    destruct (shr_r mrs), (shr_s mrs), (Z.testbit (shr_m mrs) (k1 - 1)),
      (shr_m mrs mod 2 ^ (k1 - 1) =? 0),
      (shr_m mrs / 2 ^ k1 mod 2 ^ (k2 - 1) =? 0); reflexivity.
Qed.

Lemma shifted_nonneg (k : Z) (mrs res : shr_record) :
  0 <= shr_m mrs -> 0 <= k -> shifted k mrs res -> 0 <= shr_m res.
Proof.
  intros Hm Hk (-> & _). apply Z.div_pos; [assumption |].
  apply Z.pow_pos_nonneg; lia.
Qed.

Lemma iter_shr_1_shifted (p : positive) :
  forall mrs, 0 <= shr_m mrs -> shifted (Zpos p) mrs (iter_pos shr_1 p mrs).
Proof.
  induction p as [p IH | p IH |]; intros mrs Hm; cbn [iter_pos].
  - pose proof (shifted_1 mrs Hm) as Ha.
    pose proof (shifted_nonneg 1 _ _ Hm ltac:(lia) Ha) as Hma.
    pose proof (IH _ Hma) as Hb.
    pose proof (shifted_nonneg (Zpos p) _ _ Hma ltac:(lia) Hb) as Hmb.
    pose proof (IH _ Hmb) as Hc.
    replace (Zpos p~1) with (1 + Zpos p + Zpos p) by lia.
    eapply shifted_compose; [assumption | lia | lia | | exact Hc].
    eapply shifted_compose; [assumption | lia | lia | exact Ha | exact Hb].
  - pose proof (IH _ Hm) as Hb.
    pose proof (shifted_nonneg (Zpos p) _ _ Hm ltac:(lia) Hb) as Hmb.
    pose proof (IH _ Hmb) as Hc.
    replace (Zpos p~0) with (Zpos p + Zpos p) by lia.
    eapply shifted_compose; [assumption | lia | lia | exact Hb | exact Hc].
  - apply shifted_1, Hm.
Qed.

(** Shifting [n] bits out of an exact mantissa and rounding to the nearest,
    the even one of two: the result is within half a unit of the mantissa. *)
Lemma shr_round_nearest (m e n : Z) :
  0 <= m -> 0 <= n ->
  let mrs := fst (shr (shr_record_of_loc m loc_Exact) e n) in
  let m' := round_nearest_even (shr_m mrs) (loc_of_shr_record mrs) in
  2 * Z.abs (m' * 2 ^ n - m) <= 2 ^ n
  /\ (m' = shr_m mrs \/ m' = shr_m mrs + 1)
  /\ shr_m mrs = m / 2 ^ n.
Proof.
  intros Hm Hn mrs m'. subst mrs m'.
  destruct n as [| p | p]; [| | lia].
  - cbn [shr fst shr_record_of_loc shr_m loc_of_shr_record round_nearest_even].
    rewrite Z.pow_0_r, Z.div_1_r. split; [lia |]. split; [auto | reflexivity].
  - cbn [shr fst shr_record_of_loc].
    pose proof (iter_shr_1_shifted p (Build_shr_record m false false) Hm)
      as (Hq & Hr & Hs).
    cbn [shr_m shr_r shr_s orb] in Hq, Hr, Hs.
    destruct (iter_pos shr_1 p {| shr_m := m; shr_r := false; shr_s := false |})
      as [q r s].
    cbn [shr_m shr_r shr_s] in *. subst q.
    pose proof (Z.pow_pos_nonneg 2 (Zpos p - 1) ltac:(lia) ltac:(lia)) as Hh.
    assert (Hpow : 2 ^ Zpos p = 2 ^ (Zpos p - 1) * 2)
      by (rewrite Z.mul_comm, <- Z.pow_succ_r by lia; f_equal; lia).
    assert (Hrem : m = m / 2 ^ Zpos p * 2 ^ Zpos p
                       + (m mod 2 ^ (Zpos p - 1)
                          + 2 ^ (Zpos p - 1) * Z.b2z (Z.testbit m (Zpos p - 1)))).
    { rewrite Z.testbit_spec' by lia.
      rewrite <- (Z.rem_mul_r m (2 ^ (Zpos p - 1)) 2) by lia.
      rewrite <- Hpow. pose proof (Z.div_mod m (2 ^ Zpos p)). lia. }
    pose proof (Z.mod_pos_bound m (2 ^ (Zpos p - 1)) ltac:(lia)) as Hlow.
    set (low := m mod 2 ^ (Zpos p - 1)) in *.
    set (h := 2 ^ (Zpos p - 1)) in *.
    set (q := m / 2 ^ Zpos p) in *.
    rewrite Hpow in *.
    split; [| split; [apply round_nearest_even_cases | reflexivity]].
    rewrite <- Hr in Hrem.
    destruct r, s; cbn [loc_of_shr_record round_nearest_even Z.b2z] in *.
    + (* above the half *) nia.
    + (* the half *)
      assert (Hz : low = 0) by (destruct (Z.eqb_spec low 0); [lia | discriminate]).
      destruct (Z.even q); nia.
    + (* below the half *) nia.
    + (* exact *)
      assert (Hz : low = 0) by (destruct (Z.eqb_spec low 0); [lia | discriminate]).
      nia.
Qed.

Lemma Zdigits2_carry (m : Z) :
  0 < m -> Zdigits2 m < Zdigits2 (m + 1) ->
  m + 1 = 2 ^ Zdigits2 m /\ Zdigits2 (m + 1) = Zdigits2 m + 1.
Proof.
  intros Hm Hd. rewrite !Zdigits2_log2 in * by lia.
  destruct (Z.log2_succ_or m) as [Hs | Hs]; unfold Z.succ in Hs; [| lia].
  split; [| lia].
  pose proof (Z.log2_spec (m + 1) ltac:(lia)) as [Hlo _].
  pose proof (Z.log2_spec m ltac:(lia)) as [_ Hhi].
  rewrite Hs in Hlo. unfold Z.succ in *. lia.
Qed.

Section Nearest.

Variables prec emax : Z.
Hypothesis prec_pos : 0 < prec.
Hypothesis emax_large : 2 <= emax.

Lemma shl_align_value (mx : positive) (ex ex' : Z) :
  let '(mz, ez) := shl_align mx ex ex' in
  ez <= ex /\ (ez = ex \/ ez = ex') /\ Zpos mz = Zpos mx * 2 ^ (ex - ez).
Proof.
  unfold shl_align. destruct (ex' - ex) as [| d | d] eqn:Hd.
  - rewrite Z.sub_diag. lia.
  - rewrite Z.sub_diag. lia.
  - rewrite iter_xO. split; [lia |]. split; [auto |]. f_equal. f_equal. lia.
Qed.

(** Rounding to a format gives the number nearest to the one rounded:
    with [c] an exponent below both, the mantissas at exponent [c] differ
    by half a unit of the result at most.  What rounds to zero is half the
    least number of the format at most, and what rounds to an infinity is
    the largest number of the format at least. *)
Lemma binary_round_nearest (sx : bool) (mx : positive) (ex : Z) :
  let c := Z.min ex (emin prec emax) in
  match binary_round prec emax sx mx ex with
  | S754_finite s m e =>
      s = sx /\ c <= e
      /\ 2 * Z.abs (Zpos m * 2 ^ (e - c) - Zpos mx * 2 ^ (ex - c))
         <= 2 ^ (e - c)
  | S754_zero s =>
      s = sx /\ 2 * (Zpos mx * 2 ^ (ex - c)) <= 2 ^ (emin prec emax - c)
  | S754_infinity s =>
      s = sx
      /\ (2 ^ prec - 1) * 2 ^ (emax - prec - c) <= Zpos mx * 2 ^ (ex - c)
  | S754_nan => False
  end.
Proof.
  intros c. unfold binary_round.
  pose proof (shl_align_fexp prec emax mx ex) as Halign.
  pose proof (shl_align_value mx ex
                (fexp prec emax (Zpos (digits2_pos mx) + ex))) as Hvalue.
  destruct (shl_align mx ex _) as [mz ez].
  destruct Hvalue as (Hez & Hez' & Hmz).
  assert (Hc : c <= ez) by (unfold fexp in *; lia).
  unfold binary_round_aux.
  pose proof (shr_fexp_canonical prec emax (Zpos mz) ez loc_Exact ltac:(lia)
                Halign) as H1.
  pose proof (shr_round_nearest (Zpos mz) ez
                (fexp prec emax (Zdigits2 (Zpos mz) + ez) - ez)
                ltac:(lia) ltac:(lia)) as Hround.
  unfold shr_fexp in *.
  destruct (shr (shr_record_of_loc (Zpos mz) loc_Exact) ez _) as [mrs1 e1].
  cbn [fst] in Hround. cbv zeta in Hround.
  destruct H1 as (He1 & Hm1 & Hd1).
  destruct Hround as (Herr & Hm2 & _).
  rewrite <- He1 in Herr.
  set (m2 := round_nearest_even (shr_m mrs1) (loc_of_shr_record mrs1)) in *.
  assert (Hm1pos : 0 <= shr_m mrs1).
  { rewrite Hm1. apply Z.div_pos; [lia |]. apply Z.pow_pos_nonneg; lia. }
  assert (Hn1 : 0 <= e1 - ez) by lia.
  pose proof (Z.pow_pos_nonneg 2 (e1 - ez) ltac:(lia) Hn1) as Hp1.
  pose proof (Z.pow_pos_nonneg 2 (ez - c) ltac:(lia) ltac:(lia)) as Hpc.
  assert (Hscale : forall e, ez <= e -> 2 ^ (e - c) = 2 ^ (e - ez) * 2 ^ (ez - c)).
  { intros e He. rewrite <- Z.pow_add_r by lia. f_equal. lia. }
  assert (Hv : Zpos mx * 2 ^ (ex - c) = Zpos mz * 2 ^ (ez - c)).
  { rewrite Hmz, (Hscale ex) by lia. ring. }
  (* the least exponent, when all the bits are shifted out *)
  assert (Hmin : shr_m mrs1 = 0 -> e1 = emin prec emax).
  { intros H0.
    assert (Hsmall : Zdigits2 (Zpos mz) <= e1 - ez).
    { apply Zdigits2_small; [lia | lia |]. rewrite <- Hm1. exact H0. }
    unfold fexp in *. lia. }
  destruct (Z.eq_dec m2 0) as [Hz | Hnz].
  { (* rounded to zero *)
    rewrite Hz.
    pose proof (shr_m_e (shr_record_of_loc 0 loc_Exact) e1
                  (fexp prec emax (Zdigits2 0 + e1) - e1) ltac:(cbn; lia)) as H.
    destruct (shr _ e1 _) as [mrs2 e2]. cbn [fst snd shr_m shr_record_of_loc] in H.
    destruct H as [-> _]. rewrite Z.div_0_l by (apply Z.pow_nonzero; lia).
    split; [reflexivity |].
    rewrite Hz in Herr. rewrite <- (Hmin ltac:(lia)), Hv, (Hscale e1) by lia.
    nia. }
  assert (Hpos2 : 0 < m2) by lia.
  assert (Hle : e1 <= fexp prec emax (Zdigits2 m2 + e1)).
  { destruct (Z.eq_dec (shr_m mrs1) 0) as [H0 | H0].
    - rewrite (Hmin H0). unfold fexp. lia.
    - rewrite He1 at 1. rewrite <- (Hd1 ltac:(lia)). apply fexp_mono.
      assert (Zdigits2 (shr_m mrs1) <= Zdigits2 m2)
        by (apply Zdigits2_mono; lia).
      lia. }
  pose proof (shr_fexp_canonical prec emax m2 e1 loc_Exact Hpos2 Hle) as H2.
  unfold shr_fexp in H2.
  destruct (shr (shr_record_of_loc m2 loc_Exact) e1 _) as [mrs2 e2].
  destruct H2 as (He2 & Hm3 & Hd2).
  (* the second shift loses no bit *)
  assert (Hexact : shr_m mrs2 * 2 ^ (e2 - e1) = m2).
  { destruct (Z.eq_dec e2 e1) as [-> | Hne].
    - rewrite Hm3, Z.sub_diag, Z.div_1_r. lia.
    - assert (Hm1nz : shr_m mrs1 <> 0).
      { intros H0. pose proof (Hmin H0) as Hemin.
        assert (H21 : m2 = 1) by lia.
        rewrite H21 in He2. change (Zdigits2 1) with 1 in He2.
        unfold fexp in He2. lia. }
      specialize (Hd1 ltac:(lia)).
      assert (Hup : m2 = shr_m mrs1 + 1).
      { destruct Hm2 as [Heq | Heq]; [| exact Heq].
        rewrite Heq in He2. unfold fexp in *. lia. }
      assert (Hdig : Zdigits2 (shr_m mrs1) < Zdigits2 (shr_m mrs1 + 1)).
      { rewrite Hup in He2. unfold fexp in *.
        pose proof (Zdigits2_mono (shr_m mrs1) (shr_m mrs1 + 1) ltac:(lia)
                      ltac:(lia)).
        lia. }
      destruct (Zdigits2_carry (shr_m mrs1) ltac:(lia) Hdig) as [Hpow Hsucc].
      assert (Hk : e2 - e1 = 1)
        by (rewrite Hup, Hsucc in He2; unfold fexp in *; lia).
      rewrite Hm3, Hk, Hup, Hpow.
      assert (Hd : 1 <= Zdigits2 (shr_m mrs1))
        by (rewrite Zdigits2_log2 by lia;
            pose proof (Z.log2_nonneg (shr_m mrs1)); lia).
      replace (Zdigits2 (shr_m mrs1)) with (Z.succ (Zdigits2 (shr_m mrs1) - 1))
        by lia.
      rewrite Z.pow_succ_r by lia. change (2 ^ 1) with 2.
      rewrite (Z.mul_comm 2), Z.div_mul by lia. reflexivity. }
  destruct (shr_m mrs2) as [| m3 | m3] eqn:Hm3';
    [| | exfalso; rewrite Hm3 in Hm3';
         pose proof (Z.div_pos m2 (2 ^ (e2 - e1)) ltac:(lia)
                       ltac:(apply Z.pow_pos_nonneg; lia)); lia].
  { (* no bit can be lost on the way to zero *)
    exfalso. lia. }
  assert (He21 : 0 <= e2 - e1) by lia.
  pose proof (Z.pow_pos_nonneg 2 (e2 - e1) ltac:(lia) He21) as Hp21.
  destruct (e2 <=? emax - prec) eqn:Hmax.
  2: { (* too large for the format *)
    split; [reflexivity |].
    apply Z.leb_gt in Hmax. specialize (Hd2 ltac:(lia)).
    assert (Hdig : Zdigits2 (Zpos m3) = prec) by (unfold fexp, emin in *; lia).
    assert (Hm3lo : 2 ^ (prec - 1) <= Zpos m3).
    { rewrite Zdigits2_log2 in Hdig by lia.
      pose proof (Z.log2_spec (Zpos m3) ltac:(lia)) as [Hlo _].
      replace (prec - 1) with (Z.log2 (Zpos m3)) by lia. exact Hlo. }
    assert (Hpp : 2 ^ prec = 2 * 2 ^ (prec - 1))
      by (rewrite <- Z.pow_succ_r by lia; f_equal; lia).
    rewrite Hv.
    assert (Hbig : 2 * 2 ^ (emax - prec - c) <= 2 ^ (e2 - c)).
    { rewrite <- Z.pow_succ_r by (unfold emin in *; lia).
      apply Z.pow_le_mono_r; lia. }
    rewrite (Hscale e2) in Hbig by lia.
    replace (2 ^ (e2 - ez)) with (2 ^ (e2 - e1) * 2 ^ (e1 - ez)) in Hbig
      by (rewrite <- Z.pow_add_r by lia; f_equal; lia).
    pose proof (Z.pow_pos_nonneg 2 (emax - prec - c) ltac:(lia)
                  ltac:(unfold emin in *; lia)) as Hpe.
    set (P := 2 ^ (e1 - ez)) in *. set (Q := 2 ^ (ez - c)) in *.
    set (R := 2 ^ (e2 - e1)) in *. set (T := 2 ^ (emax - prec - c)) in *.
    set (U := 2 ^ (prec - 1)) in *.
    assert (Hmz2 : (2 * Zpos m3 * R - 1) * P <= 2 * Zpos mz).
    { rewrite <- Hexact in Herr. lia. }
    assert (H1 : (2 * U - 1) * (R * P) <= (2 * Zpos m3 * R - 1) * P) by nia.
    assert (H2 : (2 * U - 1) * (R * P) * Q <= 2 * Zpos mz * Q)
      by (apply Z.mul_le_mono_nonneg_r; lia).
    assert (H3 : (2 * U - 1) * (2 * T) <= (2 * U - 1) * (R * P * Q))
      by (apply Z.mul_le_mono_nonneg_l; lia).
    rewrite Hpp. lia. }
  split; [reflexivity |]. split; [lia |].
  rewrite Hv, (Hscale e2) by lia.
  replace (2 ^ (e2 - ez)) with (2 ^ (e2 - e1) * 2 ^ (e1 - ez))
    by (rewrite <- Z.pow_add_r by lia; f_equal; lia).
  replace (Zpos m3 * (2 ^ (e2 - e1) * 2 ^ (e1 - ez) * 2 ^ (ez - c))
           - Zpos mz * 2 ^ (ez - c))
    with ((m2 * 2 ^ (e1 - ez) - Zpos mz) * 2 ^ (ez - c))
    by (rewrite <- Hexact; ring).
  rewrite Z.abs_mul, (Z.abs_eq (2 ^ (ez - c))) by lia.
  set (A := Z.abs (m2 * 2 ^ (e1 - ez) - Zpos mz)) in *.
  set (P := 2 ^ (e1 - ez)) in *. set (Q := 2 ^ (ez - c)) in *.
  set (R := 2 ^ (e2 - e1)) in *.
  assert (H1 : 2 * A * Q <= P * Q) by (apply Z.mul_le_mono_nonneg_r; lia).
  assert (H2 : 1 * (P * Q) <= R * (P * Q))
    by (apply Z.mul_le_mono_nonneg_r; [apply Z.mul_nonneg_nonneg |]; lia).
  lia.
Qed.

End Nearest.

(** ** The numeric fields *)

Lemma narrow32_binary32 (f : spec_float) : binary32 (narrow32 f) = true.
Proof.
  destruct f as [s | s | | s m e]; try reflexivity.
  apply binary_round_valid. lia.
Qed.

Lemma narrow32_exact (f : spec_float) : binary32 f = true -> narrow32 f = f.
Proof.
  destruct f as [s | s | | s m e]; try reflexivity.
  apply binary_round_exact.
Qed.

(** A number of binary32 has a mantissa of 24 bits at most and an exponent
    from -149 to 104. *)
Lemma binary32_bounds (s : bool) (m : positive) (e : Z) :
  binary32 (S754_finite s m e) = true ->
  Zpos m < 2 ^ 24 /\ - 149 <= e <= 104.
Proof.
  unfold binary32, valid_binary, bounded, canonical_mantissa, fexp, emin.
  rewrite digits2_log2. intros H.
  apply andb_prop in H. destruct H as [Hc Hb].
  apply Z.eqb_eq in Hc. apply Z.leb_le in Hb.
  split; [| lia].
  apply Z.log2_lt_pow2; lia.
Qed.

(** [float32(f)] is within half a unit of its last place of [f]. *)
Lemma narrow32_nearest (s : bool) (m : positive) (e : Z) :
  let c := Z.min e (- 149) in
  match narrow32 (S754_finite s m e) with
  | S754_finite s' m' e' =>
      s' = s /\ c <= e'
      /\ 2 * Z.abs (Zpos m' * 2 ^ (e' - c) - Zpos m * 2 ^ (e - c))
         <= 2 ^ (e' - c)
  | S754_zero s' =>
      s' = s /\ 2 * (Zpos m * 2 ^ (e - c)) <= 2 ^ (- 149 - c)
  | S754_infinity s' =>
      s' = s /\ (2 ^ 24 - 1) * 2 ^ (104 - c) <= Zpos m * 2 ^ (e - c)
  | S754_nan => False
  end.
Proof.
  pose proof (binary_round_nearest 24 128 ltac:(lia) ltac:(lia) s m e) as H.
  cbv zeta in H |- *. cbn [narrow32].
  change (emin 24 128) with (- 149) in H.
  change (128 - 24 - Z.min e (-149)) with (104 - Z.min e (-149)) in H.
  exact H.
Qed.

Lemma parseInt_value (s : string) :
  parseInt s
  = if numeric_text s && (- 2 ^ 63 <=? signed_value s)
       && (signed_value s <? 2 ^ 63)
    then int32 (signed_value s) else 0.
Proof.
  destruct (numeric_text s) eqn:Hs; cbn [andb].
  - unfold parseInt. rewrite (Atoi_numeric s Hs). compare_cases.
  - apply parseInt_default, Atoi_not_numeric, Hs.
Qed.

(** C9, as amended.  Whatever the text of an integer field, the decoded
    value is in the signed 32-bit range, and the line is not rejected for
    it.  The text of an integer of the 64-bit [int] gives the low 32 bits of
    that integer: a value outside the 32-bit range wraps into it.  A text
    that is no integer, or one too large for [int], gives 0.  A float field
    is [float32(f)] of the [float64] that [ParseFloat] returned at size 32,
    or zero when that failed: a number of binary32, within half a unit of
    its last place of [f], and [f] itself when [f] is one; an infinity only
    when [f] is the largest number of binary32 at least.  The [float64]
    nearest to 0.1 is not kept: it becomes [13421773 * 2^-27]. *)
Theorem numeric_fields_are_32_bit
    (ParseFloat : string -> Z -> spec_float * option strconv.Err)
    (now : Z) (msg : string) :
  let rec := fst (Parse (FL := go_floats ParseFloat) now msg) in
  let parts := strings.Split (strings.TrimSpace msg) "," in
  Forall (fun get : @SBS1Message (go_floats ParseFloat) -> Z =>
            - 2 ^ 31 <= get rec < 2 ^ 31)
    [TransmissionType; Altitude; VerticalRate; Squawk]
  /\ (forall s,
        parseInt s
        = if numeric_text s && (- 2 ^ 63 <=? signed_value s)
             && (signed_value s <? 2 ^ 63)
          then int32 (signed_value s) else 0)
  /\ (forall i, - 2 ^ 31 <= int32 i < 2 ^ 31
                /\ (int32 i - i) mod 2 ^ 32 = 0
                /\ (- 2 ^ 31 <= i < 2 ^ 31 -> int32 i = i))
  /\ parseInt "2147483647" = 2147483647
  /\ parseInt "2147483648" = - 2147483648
  /\ parseInt "4294967297" = 1
  /\ parseInt "-2147483649" = 2147483647
  /\ parseInt "9223372036854775807" = - 1
  /\ parseInt "9223372036854775808" = 0
  /\ (snd (Parse (FL := go_floats ParseFloat) now msg) = true <->
      (22 <= List.length parts)%nat /\ hd_error parts = Some "MSG")
  /\ (snd (Parse (FL := go_floats ParseFloat) now msg) = true ->
      Forall (fun '(get, i) => get rec = parseInt (nth i parts ""))
        [(TransmissionType, 1%nat); (Altitude, 11%nat);
         (VerticalRate, 16%nat); (Squawk, 17%nat)]
      /\ Forall (fun '(get, i) =>
                   get rec
                   = match ParseFloat (nth i parts "") 32 with
                     | (f, None) => narrow32 f
                     | (_, Some _) => S754_zero false
                     end)
           [(GroundSpeed, 12%nat); (Track, 13%nat); (Lat, 14%nat);
            (Lon, 15%nat)])
  /\ Forall (fun get : @SBS1Message (go_floats ParseFloat) -> spec_float =>
               binary32 (get rec) = true)
       [GroundSpeed; Track; Lat; Lon]
  /\ (forall f, binary32 (narrow32 f) = true)
  /\ (forall f, binary32 f = true -> narrow32 f = f)
  /\ (forall s m e, binary32 (S754_finite s m e) = true ->
                    Zpos m < 2 ^ 24 /\ - 149 <= e <= 104)
  /\ (forall s m e,
        let c := Z.min e (- 149) in
        match narrow32 (S754_finite s m e) with
        | S754_finite s' m' e' =>
            s' = s /\ c <= e'
            /\ 2 * Z.abs (Zpos m' * 2 ^ (e' - c) - Zpos m * 2 ^ (e - c))
               <= 2 ^ (e' - c)
        | S754_zero s' =>
            s' = s /\ 2 * (Zpos m * 2 ^ (e - c)) <= 2 ^ (- 149 - c)
        | S754_infinity s' =>
            s' = s /\ (2 ^ 24 - 1) * 2 ^ (104 - c) <= Zpos m * 2 ^ (e - c)
        | S754_nan => False
        end)
  /\ binary64 (float64_of 7205759403792794 (-56)) = true
  /\ narrow32 (float64_of 7205759403792794 (-56))
     = S754_finite false 13421773 (-27)
  /\ narrow32 (float64_of 7205759403792794 (-56))
     <> float64_of 7205759403792794 (-56)
  /\ narrow32 (float64_of 16777217 0) = S754_finite false 8388608 1
  /\ narrow32 (float64_of 16777219 0) = S754_finite false 8388610 1
  /\ narrow32 (float64_of 1 128) = S754_infinity false
  /\ narrow32 (float64_of (-3) (-150)) = S754_finite true 2 (-149).
Proof.
  intros rec parts.
  assert (Hr : forall s, - 2 ^ 31 <= parseInt s < 2 ^ 31).
  { intros s. unfold parseInt.
    destruct (strconv.Atoi s) as [i [e |]]; [lia | apply int32_range]. }
  assert (Hf : forall s, binary32 (parseFloat (FL := go_floats ParseFloat) s)
                         = true).
  { intros s. unfold parseFloat. cbn [strconv_ParseFloat go_floats].
    destruct (ParseFloat s 32) as [f [e |]]; [reflexivity |].
    apply narrow32_binary32. }
  split.
  { subst rec. rewrite Parse_unfold. cbv zeta.
    destruct (_ || _); cbn [fst]; repeat constructor; cbn; try apply Hr; lia. }
  split; [exact parseInt_value |].
  split; [intros i; auto using int32_range, int32_congruent, int32_small |].
  do 6 (split; [vm_compute; reflexivity |]).
  split; [apply Parse_accepted |].
  split.
  { intros Hok. subst rec. rewrite (Parse_accepted_record now msg Hok).
    split; repeat constructor. }
  split.
  { subst rec. rewrite Parse_unfold. cbv zeta.
    destruct (_ || _); cbn [fst]; repeat constructor;
      cbn [GroundSpeed Track Lat Lon NewSBS1Message]; try apply Hf;
      reflexivity. }
  split; [exact narrow32_binary32 |].
  split; [exact narrow32_exact |].
  split; [exact binary32_bounds |].
  split; [exact narrow32_nearest |].
  repeat split; try (vm_compute; reflexivity).
  intros H. vm_compute in H. discriminate.
Qed.

Lemma Parse_field_positions_witness :
  snd (Parse (FL := no_floats) 1682942400000000000 sample_line) = true
  /\ Callsign (fst (Parse (FL := no_floats) 1682942400000000000 sample_line))
     = "UAL123"
  /\ Altitude (fst (Parse (FL := no_floats) 1682942400000000000 sample_line))
     = 35000.
Proof.
  split; [vm_compute; reflexivity |].
  pose proof (Parse_field_positions (FL := no_floats) 1682942400000000000
                sample_line eq_refl) as H.
  cbv zeta in H.
  destruct H as (_ & _ & _ & _ & _ & _ & _ & _ & Hcall & Halt & _).
  rewrite Hcall, Halt. split; vm_compute; reflexivity.
Defined.

Lemma Parse_rejected_record_witness :
  snd (Parse (FL := no_floats) 5 other_line) = false
  /\ fst (Parse (FL := no_floats) 5 other_line) = NewSBS1Message 5.
Proof.
  split; [vm_compute; reflexivity |].
  exact (proj1 (Parse_rejected_record (FL := no_floats) 5 other_line eq_refl)).
Defined.

Lemma parseDateTime_layout_witness :
  snd (Parse (FL := no_floats) 1682942400000000000 sample_line) = true
  /\ GeneratedDate (fst (Parse (FL := no_floats) 1682942400000000000 sample_line))
     = Some (time.Date 2023 5 1 12 0 0 0)
  /\ LoggedDate (fst (Parse (FL := no_floats) 1682942400000000000 sample_line))
     = Some (time.Date 2023 5 1 12 0 1 250000000).
Proof.
  split; [vm_compute; reflexivity |].
  pose proof (parseDateTime_layout (FL := no_floats) 1682942400000000000
                sample_line eq_refl) as H.
  cbv zeta in H. destruct H as (Hg & Hl & _).
  rewrite Hg, Hl. split; vm_compute; reflexivity.
Defined.

(** C4 as it is stated fails: the pairs [("2023/05/01", "12:00:00.250")],
    [("2023/05/01", "9:00:00")] and [("2023/05/01 ", "12:00:00")] are no
    texts of the pattern [YYYY/MM/DD HH:MM:SS], and none decodes to null. *)
Lemma parseDateTime_pattern_counterexample :
  matches_pattern ("2023/05/01" ++ " " ++ "12:00:00.250") = false
  /\ parseDateTime "2023/05/01" "12:00:00.250"
     = Some (time.Date 2023 5 1 12 0 0 250000000)
  /\ matches_pattern ("2023/05/01" ++ " " ++ "9:00:00") = false
  /\ parseDateTime "2023/05/01" "9:00:00" = Some (time.Date 2023 5 1 9 0 0 0)
  /\ matches_pattern ("2023/05/01 " ++ " " ++ "12:00:00") = false
  /\ parseDateTime "2023/05/01 " "12:00:00" = Some (time.Date 2023 5 1 12 0 0 0)
  /\ ~ (forall date timeStr,
          matches_pattern (date ++ " " ++ timeStr) = false ->
          parseDateTime date timeStr = None).
Proof.
  do 6 (split; [vm_compute; reflexivity |]).
  intros H. specialize (H "2023/05/01" "12:00:00.250" eq_refl).
  vm_compute in H. discriminate.
Defined.

(** C9 as it is stated fails: the text ["9223372036854775809"] is an
    integer outside the 32-bit range, and the field is not that integer
    narrowed, which would be 1, but the default 0 of a text that does not
    parse: [Atoi] reports a range error past the 64-bit [int]. *)
Lemma parseInt_beyond_int_counterexample :
  numeric_text "9223372036854775809" = true
  /\ signed_value "9223372036854775809" = 2 ^ 63 + 1
  /\ int32 (2 ^ 63 + 1) = 1
  /\ snd (strconv.Atoi "9223372036854775809") = Some strconv.ErrRange
  /\ parseInt "9223372036854775809" = 0
  /\ ~ (forall s, numeric_text s = true ->
                  parseInt s = int32 (signed_value s)).
Proof.
  do 5 (split; [vm_compute; reflexivity |]).
  intros H. specialize (H "9223372036854775809" eq_refl).
  vm_compute in H. discriminate.
Defined.

Lemma numeric_fields_are_32_bit_witness :
  snd (Parse (FL := go_floats sample_ParseFloat) 1682942400000000000
         position_line) = true
  /\ Altitude (fst (Parse (FL := go_floats sample_ParseFloat)
                      1682942400000000000 position_line)) = 35000
  /\ GroundSpeed (fst (Parse (FL := go_floats sample_ParseFloat)
                         1682942400000000000 position_line))
     = S754_finite false 14794752 (-15)
  /\ Lon (fst (Parse (FL := go_floats sample_ParseFloat)
                 1682942400000000000 position_line))
     = S754_finite true 13421773 (-27)
  /\ binary32 (Lon (fst (Parse (FL := go_floats sample_ParseFloat)
                           1682942400000000000 position_line))) = true.
Proof.
  pose proof (numeric_fields_are_32_bit sample_ParseFloat 1682942400000000000
                position_line) as H.
  cbv zeta in H.
  destruct H as (_ & _ & _ & _ & _ & _ & _ & _ & _ & Hacc & Hfields & Hbin & _).
  assert (Hok : snd (Parse (FL := go_floats sample_ParseFloat)
                       1682942400000000000 position_line) = true)
    by (apply Hacc; split; [apply Nat.leb_le |]; vm_compute; reflexivity).
  split; [exact Hok |].
  destruct (Hfields Hok) as [Hint Hfloat].
  inversion Hint as [| ? ? _ Hint1]; subst.
  inversion Hint1 as [| ? ? Halt _]; subst.
  inversion Hfloat as [| ? ? Hgs Hfloat1]; subst.
  inversion Hfloat1 as [| ? ? _ Hfloat2]; subst.
  inversion Hfloat2 as [| ? ? _ Hfloat3]; subst.
  inversion Hfloat3 as [| ? ? Hlon _]; subst.
  inversion Hbin as [| ? ? _ Hbin1]; subst.
  inversion Hbin1 as [| ? ? _ Hbin2]; subst.
  inversion Hbin2 as [| ? ? _ Hbin3]; subst.
  inversion Hbin3 as [| ? ? Hlonb _]; subst.
  split; [rewrite Halt; vm_compute; reflexivity |].
  split; [rewrite Hgs; vm_compute; reflexivity |].
  split; [rewrite Hlon; vm_compute; reflexivity | exact Hlonb].
Defined.

(** ** Cutting a stream into batches *)

Section Cut.

Context {A : Type}.

Implicit Types (buffer records batch : list A).

(** Fewer records than it takes to fill the buffer: no batch. *)
Lemma cut_short (B : Z) records :
  forall buffer,
  Z.of_nat (List.length buffer + List.length records) < B ->
  cut B buffer records = ([], (buffer ++ records)%list).
Proof.
  induction records as [| r records IH]; intros buffer Hlen; cbn [cut].
  - now rewrite app_nil_r.
  - cbn [List.length] in Hlen.
    replace (_ >=? B) with false
      by (rewrite length_app; cbn [List.length]; lia).
    rewrite IH by (rewrite length_app; cbn [List.length]; lia).
    now rewrite <- app_assoc.
Qed.

(** The records that fill the buffer make the first batch, and the buffer
    is empty for what follows. *)
Lemma cut_full (B : Z) records :
  forall buffer rest,
  Z.of_nat (List.length buffer) < B ->
  Z.of_nat (List.length (buffer ++ records)) = B ->
  cut B buffer (records ++ rest)
  = ((buffer ++ records)%list :: fst (cut B [] rest), snd (cut B [] rest)).
Proof.
  induction records as [| r records IH]; intros buffer rest Hbuf Hlen.
  - rewrite app_nil_r in Hlen. lia.
  - cbn [app cut].
    rewrite length_app in Hlen. cbn [List.length] in Hlen.
    destruct (Z.of_nat (List.length (buffer ++ [r])) >=? B) eqn:HB;
      rewrite length_app in HB; cbn [List.length] in HB.
    + assert (records = []) as -> by (destruct records; cbn in *; [easy | lia]).
      cbn [app]. destruct (cut B [] rest). reflexivity.
    + rewrite IH.
      * now rewrite <- app_assoc.
      * rewrite length_app. cbn [List.length]. lia.
      * rewrite <- app_assoc, length_app. cbn [app List.length]. lia.
Qed.

(** The batches and what is left are the records, each once and in order. *)
Lemma cut_concat (B : Z) records :
  forall buffer,
  (List.concat (fst (cut B buffer records)) ++ snd (cut B buffer records))%list
  = (buffer ++ records)%list.
Proof.
  induction records as [| r records IH]; intros buffer; cbn [cut].
  - cbn. now rewrite app_nil_r.
  - destruct (_ >=? B).
    + specialize (IH []). destruct (cut B [] records) as [batches rest].
      cbn [fst snd List.concat] in *. rewrite <- app_assoc, IH.
      now rewrite <- app_assoc.
    + rewrite IH. now rewrite <- app_assoc.
Qed.

Lemma cut_rest_bound (B : Z) records :
  0 <= B ->
  forall buffer,
  Z.of_nat (List.length buffer) <= B ->
  Z.of_nat (List.length (snd (cut B buffer records))) <= B
  /\ (1 <= B -> Z.of_nat (List.length buffer) < B ->
      Z.of_nat (List.length (snd (cut B buffer records))) < B).
Proof.
  intros HB.
  induction records as [| r records IH]; intros buffer Hbuf; cbn [cut].
  - cbn [snd]. lia.
  - destruct (_ >=? B) eqn:Hge.
    + specialize (IH [] ltac:(cbn; lia)).
      destruct (cut B [] records) as [batches rest]. cbn [snd] in *.
      split; [apply IH |]. intros H1 _. apply IH; cbn; lia.
    + rewrite length_app in Hge. cbn [List.length] in Hge.
      assert (Hlt : Z.of_nat (List.length (buffer ++ [r])) < B)
        by (rewrite length_app; cbn [List.length]; lia).
      destruct (IH (buffer ++ [r])%list ltac:(lia)) as [IH1 IH2].
      split; [exact IH1 | intros H1 _; apply IH2; assumption].
Qed.

Lemma cut_batches_full (B : Z) records :
  1 <= B ->
  forall buffer,
  Z.of_nat (List.length buffer) < B ->
  Forall (fun batch => Z.of_nat (List.length batch) = B)
    (fst (cut B buffer records)).
Proof.
  intros HB.
  induction records as [| r records IH]; intros buffer Hbuf; cbn [cut].
  - constructor.
  - destruct (_ >=? B) eqn:Hge.
    + specialize (IH [] ltac:(cbn; lia)).
      destruct (cut B [] records) as [batches rest]. cbn [fst] in *.
      constructor; [| exact IH].
      rewrite length_app in Hge |- *. cbn [List.length] in *. lia.
    + apply IH. rewrite length_app in Hge |- *. cbn [List.length] in *. lia.
Qed.

End Cut.

(** ** The batch forwarder *)

Section ForwarderFacts.

Context {FL : Floats}.

Lemma flushes_app (t1 t2 : list Effect) :
  flushes (t1 ++ t2) = (flushes t1 ++ flushes t2)%list.
Proof.
  induction t1 as [| e t1 IH]; [reflexivity |].
  destruct e; cbn [flushes app]; rewrite IH; reflexivity.
Qed.

Lemma flushes_log_error (prefix : string) (err : option string) :
  flushes (log_error prefix err) = [].
Proof. destruct err; reflexivity. Qed.

Lemma flushes_sendToService (w : World) (n : nat) (batch : list SBS1Message) :
  flushes (fst (sendToService w n batch)) = [payload_of (uuid_New w n) batch].
Proof.
  unfold sendToService. destruct (sink w n _); reflexivity.
Qed.

Lemma records_of_payload (uuid : string) (batch : list SBS1Message) :
  records_of (payload_of uuid batch) = batch.
Proof.
  unfold records_of, payload_of. cbn [events]. rewrite map_map. cbn.
  apply map_id.
Qed.

(** One turn of the loop on a line that is rejected, that fills the buffer
    short of [BATCH_SIZE], and that fills it up to [BATCH_SIZE]. *)
Lemma read_line_rejected (w : World) (B : Z) (st : State) (msg : string) :
  snd (Parse (clock w (lines_read st)) msg) = false ->
  read_line w B st msg =
  {| messages := messages st; lines_read := S (lines_read st);
     sends_done := sends_done st; trace := trace st |}.
Proof.
  unfold read_line. destruct (Parse _ msg) as [parsed ok]. cbn [snd].
  intros ->. reflexivity.
Qed.

Lemma read_line_buffered (w : World) (B : Z) (st : State) (msg : string) :
  snd (Parse (clock w (lines_read st)) msg) = true ->
  Z.of_nat (List.length (messages st)) + 1 < B ->
  read_line w B st msg =
  {| messages := messages st ++ [fst (Parse (clock w (lines_read st)) msg)];
     lines_read := S (lines_read st);
     sends_done := sends_done st; trace := trace st |}.
Proof.
  unfold read_line. destruct (Parse _ msg) as [parsed ok]. cbn [snd fst].
  intros -> Hlen.
  replace (_ >=? B) with false; [reflexivity |].
  rewrite length_app. cbn [List.length]. lia.
Qed.

Lemma read_line_flushed (w : World) (B : Z) (st : State) (msg : string) :
  snd (Parse (clock w (lines_read st)) msg) = true ->
  B <= Z.of_nat (List.length (messages st)) + 1 ->
  let batch := (messages st
                ++ [fst (Parse (clock w (lines_read st)) msg)])%list in
  read_line w B st msg =
  {| messages := [];
     lines_read := S (lines_read st);
     sends_done := S (sends_done st);
     trace := trace st ++ fst (sendToService w (sends_done st) batch)
              ++ log_error "Error sending messages:"
                   (snd (sendToService w (sends_done st) batch)) |}.
Proof.
  unfold read_line. destruct (Parse _ msg) as [parsed ok]. cbn [snd fst].
  intros -> Hlen. cbv zeta.
  replace (_ >=? B) with true; [| rewrite length_app; cbn [List.length]; lia].
  destruct (sendToService w (sends_done st) _). reflexivity.
Qed.

(** The loop cuts the accepted records of its lines into batches. *)
Lemma read_loop_cut (w : World) (B : Z) (lines : list string) :
  forall st : State,
  let records := accepted_records (clock w) (lines_read st) lines in
  let st' := read_loop w B st lines in
  messages st' = snd (cut B (messages st) records)
  /\ flushes (trace st')
     = (flushes (trace st)
        ++ payloads w (sends_done st) (fst (cut B (messages st) records)))%list
  /\ sends_done st'
     = (sends_done st + List.length (fst (cut B (messages st) records)))%nat
  /\ lines_read st' = (lines_read st + List.length lines)%nat.
Proof.
  induction lines as [| msg lines IH]; intros st; cbv zeta.
  - cbn. rewrite app_nil_r, !Nat.add_0_r. auto.
  - cbn [read_loop fold_left accepted_records List.length].
    fold (read_loop w B (read_line w B st msg) lines).
    specialize (IH (read_line w B st msg)). cbv zeta in IH.
    destruct (Parse (clock w (lines_read st)) msg) as [parsed ok] eqn:HP.
    destruct ok.
    + cbn [cut].
      destruct (Z.of_nat (List.length (messages st ++ [parsed])) >=? B) eqn:HB.
      * rewrite read_line_flushed in IH |- *
          by (rewrite ?HP; cbn [snd]; rewrite ?length_app in HB;
              cbn [List.length] in HB; try reflexivity; lia).
        cbn [messages lines_read sends_done trace] in IH |- *.
        rewrite HP in IH |- *. cbn [fst] in IH |- *.
        destruct (cut B [] (accepted_records (clock w) (S (lines_read st)) lines))
          as [batches rest].
        cbn [fst snd payloads List.length] in IH |- *.
        destruct IH as (Hm & Hf & Hs & Hl).
        rewrite Hm, Hf, Hs, Hl.
        rewrite !flushes_app, flushes_sendToService, flushes_log_error.
        rewrite <- !app_assoc. cbn [app].
        repeat split; try reflexivity; lia.
      * rewrite read_line_buffered in IH |- *
          by (rewrite ?HP; cbn [snd]; rewrite ?length_app in HB;
              cbn [List.length] in HB; try reflexivity; lia).
        cbn [messages lines_read sends_done trace] in IH |- *.
        rewrite HP in IH |- *. cbn [fst] in IH |- *.
        destruct IH as (Hm & Hf & Hs & Hl).
        rewrite Hm, Hf, Hs, Hl. repeat split; try reflexivity; lia.
    + rewrite read_line_rejected in IH |- * by (rewrite HP; reflexivity).
      cbn [messages lines_read sends_done trace] in IH |- *.
      destruct IH as (Hm & Hf & Hs & Hl).
      rewrite Hm, Hf, Hs, Hl. repeat split; try reflexivity; lia.
Qed.

Lemma records_of_payloads (w : World) (batches : list (list SBS1Message)) :
  forall n, map records_of (payloads w n batches) = batches.
Proof.
  induction batches as [| b batches IH]; intros n; [reflexivity |].
  cbn [payloads map]. now rewrite records_of_payload, IH.
Qed.

Lemma flushes_flush_rest (w : World) (st : State) :
  flushes (flush_rest w st)
  = if (0 <? List.length (messages st))%nat
    then [payload_of (uuid_New w (sends_done st)) (messages st)] else [].
Proof.
  unfold flush_rest. destruct (0 <? _)%nat; [| reflexivity].
  pose proof (flushes_sendToService w (sends_done st) (messages st)) as Hs.
  destruct (sendToService w (sends_done st) (messages st)) as [effects err].
  cbn [fst] in Hs.
  now rewrite flushes_app, flushes_log_error, app_nil_r.
Qed.

(** A run that has its connection and a capacity that is not negative. *)
Lemma runApp_connected (w : World) (B : Z) (lines : list string) :
  dial w = inr lines -> 0 <= B <= max_cap w ->
  let st := read_loop w B (start [Log "Starting application..."]) lines in
  runApp w B
  = ((trace st ++ flush_rest w st ++ [Log "Exiting application..."; Close])%list,
     Return None).
Proof.
  intros Hdial HB. unfold runApp. rewrite Hdial.
  replace ((B <? 0) || (max_cap w <? B)) with false by lia. reflexivity.
Qed.

Lemma runApp_flushes (w : World) (B : Z) (lines : list string) :
  dial w = inr lines -> 0 <= B <= max_cap w ->
  let st := read_loop w B (start [Log "Starting application..."]) lines in
  flushes (fst (runApp w B))
  = (flushes (trace st) ++ flushes (flush_rest w st))%list.
Proof.
  intros Hdial HB. rewrite (runApp_connected w B lines Hdial HB).
  cbv zeta. cbn [fst]. rewrite !flushes_app. cbn [flushes].
  now rewrite app_nil_r.
Qed.

Lemma run_cut (w : World) (B : Z) (t : list Effect) (lines : list string) :
  flushes t = [] ->
  let records := accepted_records (clock w) 0 lines in
  let st := read_loop w B (start t) lines in
  messages st = snd (cut B [] records)
  /\ flushes (trace st) = payloads w 0 (fst (cut B [] records))
  /\ sends_done st = List.length (fst (cut B [] records)).
Proof.
  intros Ht. pose proof (read_loop_cut w B lines (start t)) as H.
  cbv zeta in H |- *. cbn [start messages lines_read sends_done trace] in H.
  rewrite Ht in H. cbn [app Nat.add] in H. tauto.
Qed.

(** C5. In a run that has its connection and its buffer, when the accepted
    records are exactly [batchSize], at least one, [sendToService] is called
    once, in the loop and not at the end of the stream; its payload has one
    event for each record, in arrival order; and the buffer is empty at
    every point of the loop from the offer of the last record on. *)
Theorem exact_batch_flushes_once (w : World) (B : Z) (lines : list string) :
  dial w = inr lines -> 1 <= B <= max_cap w ->
  let records := accepted_records (clock w) 0 lines in
  Z.of_nat (List.length records) = B ->
  let t0 := [Log "Starting application..."] in
  let payload := payload_of (uuid_New w 0) records in
  flushes (fst (runApp w B)) = [payload]
  /\ flushes (trace (read_loop w B (start t0) lines)) = [payload]
  /\ flush_rest w (read_loop w B (start t0) lines) = []
  /\ events payload = map event_of records
  /\ records_of payload = records
  /\ map event_ts (events payload) = map Timestamp records
  /\ (forall pre post,
        lines = (pre ++ post)%list ->
        List.length (accepted_records (clock w) 0 pre) = List.length records ->
        messages (read_loop w B (start t0) pre) = []).
Proof.
  intros Hdial HB records Hlen t0 payload.
  assert (Hcut : forall rs : list SBS1Message,
            Z.of_nat (List.length rs) = B -> cut B [] rs = ([rs], [])).
  { intros rs Hrs.
    pose proof (cut_full B rs [] [] ltac:(cbn; lia) Hrs) as H.
    now rewrite app_nil_r in H. }
  destruct (run_cut w B t0 lines eq_refl) as (Hm & Hf & _).
  fold records in Hm, Hf. rewrite (Hcut records Hlen) in Hm, Hf.
  cbn [fst snd payloads] in Hm, Hf.
  assert (Hrest : flush_rest w (read_loop w B (start t0) lines) = []).
  { unfold flush_rest. now rewrite Hm. }
  split.
  { rewrite (runApp_flushes w B lines Hdial) by lia. cbv zeta.
    fold t0. rewrite Hf, Hrest. reflexivity. }
  split; [exact Hf |]. split; [exact Hrest |].
  split; [reflexivity |].
  split; [apply records_of_payload |].
  split.
  { unfold payload, payload_of. cbn [events]. rewrite map_map. reflexivity. }
  intros pre post _ Hpre.
  destruct (run_cut w B t0 pre eq_refl) as (Hm' & _).
  rewrite Hm', Hcut by lia. reflexivity.
Qed.

(** C6. With a capacity that is not negative, the buffer holds at most
    [batchSize] records whenever a turn of the read loop returns, after any
    part of any stream: the bound holds at the start and every turn keeps
    it.  From [batchSize >= 1] on the buffer is even short of [batchSize],
    because the turn that fills it sends it before it returns, and every
    batch sent from the loop has exactly [batchSize] records. *)
Theorem buffer_within_batch_size (w : World) (B : Z) (lines : list string) :
  0 <= B ->
  let t0 := [Log "Starting application..."] in
  Z.of_nat (List.length (messages (start t0))) <= B
  /\ (forall st msg,
        Z.of_nat (List.length (messages st)) <= B ->
        Z.of_nat (List.length (messages (read_line w B st msg))) <= B)
  /\ (forall pre post,
        lines = (pre ++ post)%list ->
        let st := read_loop w B (start t0) pre in
        Z.of_nat (List.length (messages st)) <= B
        /\ (1 <= B -> Z.of_nat (List.length (messages st)) < B)
        /\ (1 <= B ->
            Forall (fun p => Z.of_nat (List.length (events p)) = B)
              (flushes (trace st)))).
Proof.
  intros HB t0. split; [cbn; lia |]. split.
  - intros st msg Hst.
    destruct (snd (Parse (clock w (lines_read st)) msg)) eqn:Hok.
    + destruct (Z_lt_ge_dec (Z.of_nat (List.length (messages st)) + 1) B).
      * rewrite read_line_buffered by assumption. cbn [messages].
        rewrite length_app. cbn [List.length]. lia.
      * rewrite read_line_flushed by (try assumption; lia). cbn. lia.
    + rewrite read_line_rejected by assumption. exact Hst.
  - intros pre post _ st.
    destruct (run_cut w B t0 pre eq_refl) as (Hm & Hf & _). fold st in Hm, Hf.
    rewrite Hm, Hf.
    pose proof (cut_rest_bound B (accepted_records (clock w) 0 pre) HB []
                  ltac:(cbn; lia)) as [Hle Hlt].
    split; [exact Hle |]. split; [intros H1; apply Hlt; cbn; lia |].
    intros H1.
    pose proof (cut_batches_full B (accepted_records (clock w) 0 pre) H1 []
                  ltac:(cbn; lia)) as Hfull.
    revert Hfull. generalize (fst (cut B [] (accepted_records (clock w) 0 pre))).
    generalize 0%nat.
    intros n batches. revert n.
    induction batches as [| b batches IH]; intros n Hall; [constructor |].
    inversion Hall; subst. cbn [payloads]. constructor; [| now apply IH].
    cbn [payload_of events]. now rewrite length_map.
Qed.

(** C7, as amended.  In a run that has its connection and its buffer, with
    [batchSize >= 1]: one record short of a batch of two or more gives no
    flush in the loop and one at the end of the stream, with those records;
    two batches and [k] records more, [0 < k < batchSize], give two flushes
    of [batchSize] records in the loop and one of [k] records at the end; an
    empty buffer at the end of the stream gives no flush there. *)
Theorem flush_counts (w : World) (B : Z) (lines : list string) :
  dial w = inr lines -> 1 <= B <= max_cap w ->
  let records := accepted_records (clock w) 0 lines in
  let st := read_loop w B (start [Log "Starting application..."]) lines in
  (2 <= B -> Z.of_nat (List.length records) = B - 1 ->
   flushes (trace st) = []
   /\ flushes (flush_rest w st) = [payload_of (uuid_New w 0) records]
   /\ flushes (fst (runApp w B)) = [payload_of (uuid_New w 0) records])
  /\ (forall k, 0 < k < B -> Z.of_nat (List.length records) = 2 * B + k ->
      let b1 := firstn (Z.to_nat B) records in
      let b2 := firstn (Z.to_nat B) (skipn (Z.to_nat B) records) in
      let b3 := skipn (Z.to_nat B) (skipn (Z.to_nat B) records) in
      records = (b1 ++ b2 ++ b3)%list
      /\ Z.of_nat (List.length b1) = B
      /\ Z.of_nat (List.length b2) = B
      /\ Z.of_nat (List.length b3) = k
      /\ flushes (trace st)
         = [payload_of (uuid_New w 0) b1; payload_of (uuid_New w 1) b2]
      /\ flushes (flush_rest w st) = [payload_of (uuid_New w 2) b3]
      /\ flushes (fst (runApp w B))
         = [payload_of (uuid_New w 0) b1; payload_of (uuid_New w 1) b2;
            payload_of (uuid_New w 2) b3])
  /\ (messages st = [] ->
      flush_rest w st = []
      /\ flushes (fst (runApp w B)) = flushes (trace st)).
Proof.
  intros Hdial HB records st.
  destruct (run_cut w B [Log "Starting application..."] lines eq_refl)
    as (Hm & Hf & Hs).
  fold records in Hm, Hf, Hs. fold st in Hm, Hf, Hs.
  pose proof (runApp_flushes w B lines Hdial ltac:(lia)) as Hrun.
  cbv zeta in Hrun. fold st in Hrun.
  split; [| split].
  - intros H2 Hlen.
    rewrite (cut_short B records []) in Hm, Hf, Hs by (cbn; lia).
    cbn [fst snd payloads app List.length] in Hm, Hf, Hs.
    assert (Hrest : flushes (flush_rest w st)
                    = [payload_of (uuid_New w 0) records]).
    { rewrite flushes_flush_rest, Hm, Hs.
      destruct records; [cbn in Hlen; lia | reflexivity]. }
    rewrite Hrun, Hf, Hrest. auto.
  - intros k Hk Hlen b1 b2 b3.
    set (n := Z.to_nat B) in *.
    assert (Hn : Z.of_nat n = B) by (subst n; lia).
    assert (Hl1 : List.length b1 = n)
      by (subst b1; rewrite length_firstn; lia).
    assert (Hl2 : List.length b2 = n)
      by (subst b2; rewrite length_firstn, length_skipn; lia).
    assert (Hl3 : Z.of_nat (List.length b3) = k)
      by (subst b3; rewrite !length_skipn; lia).
    assert (Hrec : records = (b1 ++ b2 ++ b3)%list)
      by (subst b1 b2 b3; now rewrite !firstn_skipn).
    assert (Hcut : cut B [] records = ([b1; b2], b3)).
    { rewrite Hrec.
      rewrite (cut_full B b1 [] (b2 ++ b3)) by (cbn [app List.length]; lia).
      rewrite (cut_full B b2 [] b3) by (cbn [app List.length]; lia).
      rewrite (cut_short B b3 []) by (cbn [List.length]; lia).
      reflexivity. }
    rewrite Hcut in Hm, Hf, Hs. cbn [fst snd payloads List.length] in Hm, Hf, Hs.
    assert (Hrest : flushes (flush_rest w st) = [payload_of (uuid_New w 2) b3]).
    { rewrite flushes_flush_rest, Hm, Hs.
      destruct b3; [cbn in Hl3; lia | reflexivity]. }
    rewrite Hrun, Hf, Hrest.
    repeat split; try assumption; lia.
  - intros Hempty. unfold flush_rest in *. rewrite Hempty in *.
    cbn in Hrun |- *. rewrite app_nil_r in Hrun. auto.
Qed.

Lemma end_of_stream_trace (w : World) (st : State) :
  trace (end_of_stream w st) = (trace st ++ flush_rest w st)%list.
Proof.
  unfold end_of_stream, flush_rest.
  destruct (0 <? _)%nat; [| now rewrite app_nil_r].
  destruct (sendToService w _ _); reflexivity.
Qed.

Lemma end_of_stream_messages (w : World) (st : State) :
  messages (end_of_stream w st) = messages st.
Proof.
  unfold end_of_stream. destruct (0 <? _)%nat; [| reflexivity].
  destruct (sendToService w _ _); reflexivity.
Qed.

(** C8, as amended.  Whatever the sink answers, a run that has its
    connection and its buffer returns [nil].  A flush in the loop leaves the
    buffer empty whether the sink answered or failed; a failure is logged
    and nothing is sent again: the batches handed to the sink are the
    accepted records cut by [batchSize], each record in one batch and in
    order, whatever the sink answers.  The flush at the end of the stream
    does not clear the buffer: after it the buffer still holds the records
    it has just sent; nothing follows but the exit line and the close. *)
Theorem sink_failure_drops_batch (w : World) (B : Z) (lines : list string) :
  dial w = inr lines -> 0 <= B <= max_cap w ->
  let records := accepted_records (clock w) 0 lines in
  snd (runApp w B) = Return None
  /\ (forall st msg,
        snd (Parse (clock w (lines_read st)) msg) = true ->
        B <= Z.of_nat (List.length (messages st)) + 1 ->
        let st' := read_line w B st msg in
        let batch := (messages st
                      ++ [fst (Parse (clock w (lines_read st)) msg)])%list in
        let payload := payload_of (uuid_New w (sends_done st)) batch in
        let sending :=
          Log ("Sending " ++ strconv.FormatInt (Z.of_nat (List.length batch))
               ++ " messages to the service")%string in
        messages st' = []
        /\ match sink w (sends_done st) payload with
           | SendError err =>
               trace st'
               = (trace st
                  ++ [sending; Send payload (SendError err);
                      Log ("Error sending messages: " ++ err)%string])%list
           | Response body =>
               trace st'
               = (trace st
                  ++ [sending; Send payload (Response body);
                      Log ("Response: " ++ body)%string])%list
           end)
  /\ (let st := read_loop w B (start [Log "Starting application..."]) lines in
      let st' := end_of_stream w st in
      fst (runApp w B)
      = (trace st' ++ [Log "Exiting application..."; Close])%list
      /\ messages st' = messages st
      /\ messages st = snd (cut B [] records)
      /\ flushes (trace st')
         = (flushes (trace st)
            ++ match messages st with
               | [] => []
               | rest => [payload_of (uuid_New w (sends_done st)) rest]
               end)%list)
  /\ map records_of (flushes (fst (runApp w B)))
     = (fst (cut B [] records)
        ++ match snd (cut B [] records) with
           | [] => []
           | rest => [rest]
           end)%list
  /\ List.concat (map records_of (flushes (fst (runApp w B)))) = records.
Proof.
  intros Hdial HB records.
  destruct (run_cut w B [Log "Starting application..."] lines eq_refl)
    as (Hm & Hf & Hs).
  fold records in Hm, Hf, Hs.
  split; [now rewrite (runApp_connected w B lines Hdial HB) |].
  split.
  { intros st msg Hok Hfull st' batch payload sending.
    subst st'. rewrite read_line_flushed by assumption.
    cbv zeta. cbn [messages trace]. split; [reflexivity |].
    fold batch. unfold sendToService. fold payload. fold sending.
    destruct (sink w (sends_done st) payload); reflexivity. }
  split.
  { cbv zeta. rewrite (runApp_connected w B lines Hdial HB). cbn [fst].
    rewrite end_of_stream_trace, end_of_stream_messages, <- app_assoc.
    split; [reflexivity |]. split; [reflexivity |]. split; [exact Hm |].
    rewrite flushes_app, flushes_flush_rest.
    destruct (messages _); reflexivity. }
  pose proof (runApp_flushes w B lines Hdial HB) as Hrun. cbv zeta in Hrun.
  assert (Hmap : map records_of (flushes (fst (runApp w B)))
                 = (fst (cut B [] records)
                    ++ match snd (cut B [] records) with
                       | [] => []
                       | rest => [rest]
                       end)%list).
  { rewrite Hrun, map_app, Hf, records_of_payloads, flushes_flush_rest, Hm.
    destruct (snd (cut B [] records)); cbn [List.length Nat.ltb Nat.leb map];
      [reflexivity |].
    now rewrite records_of_payload. }
  split; [exact Hmap |].
  rewrite Hmap, concat_app.
  pose proof (cut_concat B records []) as Hc. cbn [app] in Hc.
  etransitivity; [| exact Hc]. f_equal.
  destruct (snd (cut B [] records)); cbn [List.concat];
    now rewrite ?app_nil_r.
Qed.

End ForwarderFacts.

Example Parse_garbled_line :
  Parse (FL := no_floats) 7 garbled_line =
  (@Build_SBS1Message no_floats
     "7" "MSG" 0 "1" "1" "A1B2C3" "1"
     None (Some (time.Date 2023 5 1 12 0 0 0))
     "" 0 tt tt tt tt 0 0 false false true false,
   true).
Proof. vm_compute. reflexivity. Qed.

Example Parse_long_line :
  List.length (strings.Split (strings.TrimSpace long_line) ",") = 23%nat
  /\ snd (Parse (FL := no_floats) 0 long_line) = true.
Proof. split; vm_compute; reflexivity. Qed.

Lemma field_defaults_witness :
  snd (Parse (FL := no_floats) 7 garbled_line) = true
  /\ Altitude (fst (Parse (FL := no_floats) 7 garbled_line)) = 0
  /\ Alert (fst (Parse (FL := no_floats) 7 garbled_line)) = false.
Proof.
  destruct (field_defaults (FL := no_floats) 7 garbled_line)
    as (H & _).
  cbv zeta in H.
  specialize (H ltac:(vm_compute; lia) ltac:(vm_compute; reflexivity)).
  destruct H as (Hok & Hints & _ & Hflags).
  split; [exact Hok |]. split.
  - inversion Hints as [| ? ? _ Hrest]; subst.
    inversion Hrest as [| ? ? Halt _]; subst.
    apply Halt. vm_compute. discriminate.
  - inversion Hflags as [| ? ? Halert _]; subst.
    apply (proj1 (proj2 Halert)). vm_compute. reflexivity.
Defined.

(** A run of three accepted lines among five with batches of two, against
    a sink that is down: two flushes, of two records and of one, and the
    run returns [nil]. *)
Example run_against_dead_sink :
  map (fun p => List.length (events p))
    (flushes (fst (runApp (feed lines_three sink_down) 2)))
  = [2%nat; 1%nat]
  /\ map session (flushes (fst (runApp (feed lines_three sink_down) 2)))
     = ["session-0"; "session-1"]
  /\ snd (runApp (feed lines_three sink_down) 2) = Return None
  /\ snd (runApp (feed lines_three sink_down) (-1))
     = Panic "makeslice: cap out of range"
  /\ snd (runApp (feed lines_three sink_down) (2 ^ 62))
     = Panic "makeslice: cap out of range".
Proof. repeat split; vm_compute; reflexivity. Qed.

Lemma exact_batch_flushes_once_witness :
  dial (feed lines_two sink_ok) = inr lines_two
  /\ 1 <= 2 <= max_cap (feed lines_two sink_ok)
  /\ Z.of_nat (List.length
                 (accepted_records (FL := no_floats)
                    (clock (feed lines_two sink_ok)) 0 lines_two)) = 2
  /\ List.length (flushes (fst (runApp (feed lines_two sink_ok) 2))) = 1%nat.
Proof.
  split; [reflexivity |]. split; [cbn [max_cap feed]; lia |].
  split; [vm_compute; reflexivity |].
  pose proof (exact_batch_flushes_once (feed lines_two sink_ok) 2 lines_two
                eq_refl ltac:(cbn [max_cap feed]; lia)
                ltac:(vm_compute; reflexivity)) as H.
  cbv zeta in H. destruct H as (H & _). rewrite H. reflexivity.
Defined.

Lemma buffer_within_batch_size_witness :
  0 <= 2
  /\ Z.of_nat (List.length
                 (messages
                    (read_loop (feed lines_two sink_ok) 2
                       (start [Log "Starting application..."])
                       [sample_line; other_line]))) <= 2.
Proof.
  split; [lia |].
  pose proof (buffer_within_batch_size (feed lines_two sink_ok) 2 lines_two
                ltac:(lia)) as H.
  cbv zeta in H. destruct H as (_ & _ & H).
  apply (H [sample_line; other_line] [long_line] eq_refl).
Defined.

Lemma flush_counts_witness :
  dial (feed lines_five sink_ok) = inr lines_five
  /\ 1 <= 2 <= max_cap (feed lines_five sink_ok)
  /\ Z.of_nat (List.length
                 (accepted_records (FL := no_floats)
                    (clock (feed lines_five sink_ok)) 0 lines_five))
     = 2 * 2 + 1
  /\ List.length (flushes (fst (runApp (feed lines_five sink_ok) 2))) = 3%nat.
Proof.
  split; [reflexivity |]. split; [cbn [max_cap feed]; lia |].
  split; [vm_compute; reflexivity |].
  pose proof (flush_counts (feed lines_five sink_ok) 2 lines_five eq_refl
                ltac:(cbn [max_cap feed]; lia)) as H.
  cbv zeta in H. destruct H as (_ & H & _).
  specialize (H 1 ltac:(lia) ltac:(vm_compute; reflexivity)).
  destruct H as (_ & _ & _ & _ & _ & _ & H). rewrite H. reflexivity.
Defined.

(** C7 as it is stated fails at [batchSize = 1]: the stream ends after
    [batchSize - 1 = 0] accepted records, and there is no flush at all. *)
Lemma flush_counts_counterexample :
  1 <= 1 <= max_cap (feed [other_line] sink_ok)
  /\ Z.of_nat (List.length
                 (accepted_records (FL := no_floats)
                    (clock (feed [other_line] sink_ok)) 0 [other_line]))
     = 1 - 1
  /\ flushes (fst (runApp (feed [other_line] sink_ok) 1)) = []
  /\ List.length (flushes (fst (runApp (feed [other_line] sink_ok) 1)))
     <> 1%nat.
Proof.
  split; [cbn [max_cap feed]; lia |]. split; [vm_compute; reflexivity |].
  split; [vm_compute; reflexivity |]. vm_compute. discriminate.
Defined.

(** C8 as it is stated fails at the flush that ends the stream: of three
    accepted lines with batches of two, the third is sent when the stream
    has ended, the sink fails, and the buffer still holds that record after
    the flush. *)
Lemma buffer_after_last_flush_counterexample :
  flushes (flush_rest (feed lines_three sink_down)
             (read_loop (feed lines_three sink_down) 2
                (start [Log "Starting application..."]) lines_three))
  = [payload_of "session-1"
       [fst (Parse (FL := no_floats) 1682942400000000004 sample_line)]]
  /\ sink (feed lines_three sink_down) 1
       (payload_of "session-1"
          [fst (Parse (FL := no_floats) 1682942400000000004 sample_line)])
     = SendError "connection refused"
  /\ messages (end_of_stream (feed lines_three sink_down)
                 (read_loop (feed lines_three sink_down) 2
                    (start [Log "Starting application..."]) lines_three))
     = [fst (Parse (FL := no_floats) 1682942400000000004 sample_line)]
  /\ messages (end_of_stream (feed lines_three sink_down)
                 (read_loop (feed lines_three sink_down) 2
                    (start [Log "Starting application..."]) lines_three))
     <> [].
Proof.
  split; [vm_compute; reflexivity |]. split; [reflexivity |].
  split; [vm_compute; reflexivity |]. vm_compute. discriminate.
Defined.

Lemma sink_failure_drops_batch_witness :
  dial (feed lines_three sink_down) = inr lines_three
  /\ 0 <= 2 <= max_cap (feed lines_three sink_down)
  /\ snd (runApp (feed lines_three sink_down) 2) = Return None
  /\ messages (read_line (feed lines_three sink_down) 2
                 (read_loop (feed lines_three sink_down) 2
                    (start [Log "Starting application..."])
                    [sample_line; other_line])
                 long_line) = []
  /\ trace (read_line (feed lines_three sink_down) 2
              (read_loop (feed lines_three sink_down) 2
                 (start [Log "Starting application..."])
                 [sample_line; other_line])
              long_line)
     = [Log "Starting application...";
        Log "Sending 2 messages to the service";
        Send (payload_of "session-0"
                [fst (Parse (FL := no_floats) 1682942400000000000 sample_line);
                 fst (Parse (FL := no_floats) 1682942400000000002 long_line)])
             (SendError "connection refused");
        Log "Error sending messages: connection refused"]
  /\ List.concat
       (map records_of (flushes (fst (runApp (feed lines_three sink_down) 2))))
     = accepted_records (FL := no_floats)
         (clock (feed lines_three sink_down)) 0 lines_three.
Proof.
  split; [reflexivity |]. split; [cbn [max_cap feed]; lia |].
  pose proof (sink_failure_drops_batch (feed lines_three sink_down) 2
                lines_three eq_refl ltac:(cbn [max_cap feed]; lia)) as H.
  cbv zeta in H. destruct H as (Hret & Hflush & _ & _ & Hall).
  split; [exact Hret |].
  specialize (Hflush
                (read_loop (feed lines_three sink_down) 2
                   (start [Log "Starting application..."])
                   [sample_line; other_line])
                long_line
                ltac:(vm_compute; reflexivity)
                ltac:(vm_compute; discriminate)).
  destruct Hflush as [Hempty Htrace].
  split; [exact Hempty |].
  split; [| exact Hall].
  change (sink (feed lines_three sink_down) _ _)
    with (SendError "connection refused") in Htrace.
  rewrite Htrace. vm_compute. reflexivity.
Defined.

(** * Further properties *)

(** ** The decoder: the lines it accepts and the fields it reads *)

Lemma Split_length_count (s : string) (sep : ascii) :
  List.length (strings.Split s sep) = S (count_byte sep s).
Proof.
  induction s as [| c s IH]; [reflexivity |].
  cbn [strings.Split count_byte].
  destruct (Ascii.eqb c sep); cbn [List.length Nat.add].
  - now rewrite IH.
  - destruct (strings.Split s sep) as [| f fs] eqn:E;
      cbn [List.length] in *; lia.
Qed.

Lemma Split_first_field (s : string) (sep : ascii) :
  hd_error (strings.Split s sep) = Some (first_field sep s).
Proof.
  induction s as [| c s IH]; [reflexivity |].
  cbn [strings.Split first_field]. destruct (Ascii.eqb c sep); [reflexivity |].
  destruct (strings.Split s sep); cbn [hd_error] in *; congruence.
Qed.

(** The first field is [f] when the text is [f] or goes on after [f] with a
    separator. *)
Lemma first_field_iff (sep : ascii) (s : string) :
  forall f, has_byte sep f = false ->
  first_field sep s = f
  <-> s = f \/ exists rest, s = (f ++ String sep rest)%string.
Proof.
  induction s as [| c s IH]; intros f Hf; cbn [first_field].
  - destruct f as [| c' f]; cbn [append].
    + split; [now left | reflexivity].
    + split; [discriminate | intros [H | [rest H]]; discriminate].
  - destruct (Ascii.eqb c sep) eqn:Hc.
    + apply Ascii.eqb_eq in Hc. subst c.
      destruct f as [| c' f]; cbn [append has_byte] in *.
      * split; [intros _; right; now exists s | reflexivity].
      * apply orb_false_iff in Hf. destruct Hf as [Hc' _].
        apply Ascii.eqb_neq in Hc'.
        split; [discriminate | intros [H | [rest H]]; congruence].
    + destruct f as [| c' f]; cbn [append has_byte] in *.
      * apply Ascii.eqb_neq in Hc.
        split; [discriminate | intros [H | [rest H]]; congruence].
      * apply orb_false_iff in Hf. destruct Hf as [_ Hf].
        specialize (IH f Hf). split.
        -- intros [= -> H]. apply IH in H.
           destruct H as [-> | [rest ->]]; [now left | right; now exists rest].
        -- intros [[= -> ->] | [rest [= -> ->]]]; f_equal; apply IH;
             [now left | right; now exists rest].
Qed.

Lemma count_byte_app (sep : ascii) (a b : string) :
  count_byte sep (a ++ b) = (count_byte sep a + count_byte sep b)%nat.
Proof.
  induction a as [| c a IH]; cbn [append count_byte]; [reflexivity |].
  rewrite IH. lia.
Qed.

Lemma Split_no_sep (s : string) (sep : ascii) :
  Forall (fun f => has_byte sep f = false) (strings.Split s sep).
Proof.
  induction s as [| c s IH]; cbn [strings.Split].
  - repeat constructor.
  - destruct (Ascii.eqb c sep) eqn:Hc; [constructor; [reflexivity | exact IH] |].
    destruct (strings.Split s sep) as [| f fs].
    + constructor; [| constructor]. cbn [has_byte]. now rewrite Hc.
    + inversion IH; subst. constructor; [| assumption].
      cbn [has_byte]. rewrite Hc. assumption.
Qed.

Lemma has_byte_drop (c : ascii) (n : nat) :
  forall s, has_byte c s = false -> has_byte c (utf8.drop n s) = false.
Proof.
  induction n as [| n IH]; intros [| x s] H; cbn [utf8.drop]; auto.
  cbn [has_byte] in H. apply orb_false_iff in H. apply IH, H.
Qed.

Lemma has_byte_take (c : ascii) (n : nat) :
  forall s, has_byte c s = false -> has_byte c (utf8.take n s) = false.
Proof.
  induction n as [| n IH]; intros [| x s] H; cbn [utf8.take has_byte]; auto.
  cbn [has_byte] in H. apply orb_false_iff in H. destruct H as [-> H].
  now apply IH.
Qed.

(** What [TrimSpace] returns is a part of its argument. *)
Lemma has_byte_TrimSpace (c : ascii) (s : string) :
  has_byte c s = false -> has_byte c (strings.TrimSpace s) = false.
Proof.
  intros H.
  assert (HL : forall t f, has_byte c t = false ->
                 has_byte c (strings.TrimLeftFunc t f) = false).
  { intros t f Ht. unfold strings.TrimLeftFunc.
    destruct (strings.indexFunc t f false); [now apply has_byte_drop |].
    reflexivity. }
  assert (HR : forall t f, has_byte c t = false ->
                 has_byte c (strings.TrimRightFunc t f) = false).
  { intros t f Ht. unfold strings.TrimRightFunc.
    destruct (strings.lastIndexFunc t f false);
      [| now apply has_byte_take].
    destruct (_ <=? _); [| now apply has_byte_take].
    destruct (utf8.DecodeRuneInString _). now apply has_byte_take. }
  unfold strings.TrimSpace, strings.TrimFunc.
  destruct (strings.scan_start s 0) as [start | start].
  - destruct (strings.scan_stop s start _) as [stop | stop].
    + now apply has_byte_drop, has_byte_take.
    + now apply HR, has_byte_drop, has_byte_take.
  - now apply HR, HL, has_byte_drop.
Qed.

Section DecoderMore.

Context {FL : Floats}.

(** X1. A line is accepted exactly when, trimmed, it begins with ["MSG,"]
    and has 20 commas or more after that. *)
Theorem Parse_accepts_MSG_lines (now : Z) (msg : string) :
  snd (Parse now msg) = true
  <-> exists rest,
        strings.TrimSpace msg = ("MSG," ++ rest)%string
        /\ (20 <= count_byte "," rest)%nat.
Proof.
  rewrite Parse_accepted, Split_length_count, Split_first_field.
  split.
  - intros [Hlen [= Hf]].
    apply (first_field_iff "," _ "MSG" eq_refl) in Hf.
    destruct Hf as [Hf | [rest Hf]]; rewrite Hf in Hlen |- *.
    + cbn in Hlen. lia.
    + exists rest. split; [reflexivity |].
      cbn [append count_byte Ascii.eqb Bool.eqb Nat.add] in Hlen. lia.
  - intros (rest & -> & Hcount). split.
    + cbn [append count_byte Ascii.eqb Bool.eqb Nat.add]. lia.
    + reflexivity.
Qed.


(** X2. [Parse] reads the first 22 fields of the trimmed line and nothing
    after them: two lines that agree on these fields, at the same clock
    reading, give the same result. *)
Theorem Parse_reads_22_fields (now : Z) (msg msg' : string) :
  let parts := strings.Split (strings.TrimSpace msg) "," in
  let parts' := strings.Split (strings.TrimSpace msg') "," in
  (22 <= List.length parts)%nat ->
  firstn 22 parts' = firstn 22 parts ->
  Parse now msg' = Parse now msg.
Proof.
  intros parts parts' Hlen Hsame.
  assert (Hlen' : (22 <= List.length parts')%nat).
  { apply (f_equal (@List.length string)) in Hsame.
    rewrite !length_firstn in Hsame. lia. }
  assert (Hidx : forall i, (i < 22)%nat -> index parts' i = index parts i).
  { intros i Hi. unfold index.
    pose proof (nth_firstn 22 parts i "") as H1.
    pose proof (nth_firstn 22 parts' i "") as H2.
    replace (i <? 22)%nat with true in H1, H2 by lia.
    rewrite <- H1, <- H2, Hsame. reflexivity. }
  rewrite !Parse_unfold. cbv zeta. fold parts parts'.
  replace (List.length parts' <? 22)%nat with false by lia.
  replace (List.length parts <? 22)%nat with false by lia.
  rewrite !Hidx by lia. reflexivity.
Qed.

(** X3. No text field of an accepted record holds a comma. *)
Theorem fields_hold_no_comma (now : Z) (msg : string) :
  snd (Parse now msg) = true ->
  Forall (fun get : SBS1Message -> string =>
            has_byte "," (get (fst (Parse now msg))) = false)
    [MessageType; SessionID; AircraftID; Icao24; FlightID; Callsign].
Proof.
  intros Hok. rewrite (Parse_accepted_record now msg Hok). cbv zeta.
  pose proof (Split_no_sep (strings.TrimSpace msg) ",") as Hall.
  rewrite Forall_forall in Hall.
  assert (Hidx : forall i, has_byte ","
            (index (strings.Split (strings.TrimSpace msg) ",") i) = false).
  { intros i. unfold index.
    destruct (nth_in_or_default i (strings.Split (strings.TrimSpace msg) ",") "")
      as [Hin | ->]; [now apply Hall | reflexivity]. }
  repeat constructor; cbn [SessionID AircraftID Icao24 FlightID Callsign];
    auto using has_byte_TrimSpace.
Qed.

(** X5. A flag field is true exactly when its text is an integer that is
    not zero: an optional sign and decimal digits, whose value fits the
    64-bit [int].  Every other text, ["true"] and ["yes"] among them, gives
    false. *)
Theorem parseBool_true_iff (s : string) :
  parseBool s = true
  <-> numeric_text s = true
      /\ signed_value s <> 0
      /\ - 2 ^ 63 <= signed_value s < 2 ^ 63.
Proof.
  destruct (numeric_text s) eqn:Hn.
  - unfold parseBool. rewrite (Atoi_numeric s Hn).
    destruct (signed_value s <? - 2 ^ 63) eqn:Hlo.
    { split; [discriminate | lia]. }
    destruct (2 ^ 63 <=? signed_value s) eqn:Hhi.
    { split; [discriminate | lia]. }
    split.
    + intros H. repeat split; lia.
    + intros (_ & H & _). lia.
  - rewrite (parseBool_default s (Atoi_not_numeric s Hn)).
    split; [discriminate | intros [H _]; discriminate].
Qed.

End DecoderMore.

(** ** The decoder: white space around a line *)

Lemma asciiSpace_ascii (b : Z) :
  strings.asciiSpace b = true -> b < utf8.RuneSelf.
Proof. unfold strings.asciiSpace, utf8.RuneSelf. lia. Qed.

Lemma asciiSpace_IsSpace (b : Z) :
  strings.asciiSpace b = true -> unicode.IsSpace b = true.
Proof.
  unfold strings.asciiSpace, unicode.IsSpace. intros H.
  replace ((0 <=? b) && (b <=? 255)) with true by lia. lia.
Qed.

Lemma length_append (s t : string) :
  String.length (s ++ t) = (String.length s + String.length t)%nat.
Proof. induction s as [| c s IH]; cbn; [| rewrite IH]; reflexivity. Qed.

Lemma at_append (s t : string) (i : nat) :
  (i < String.length s)%nat -> utf8.at_ (s ++ t) i = utf8.at_ s i.
Proof.
  revert i. induction s as [| c s IH]; intros i Hi; cbn in Hi; [lia |].
  destruct i as [| i]; [reflexivity |].
  unfold utf8.at_ in *. cbn [String.append String.get].
  apply IH. lia.
Qed.

Lemma at_end (s t : string) (c : ascii) :
  utf8.at_ (s ++ String c t) (String.length s) = byte_val c.
Proof.
  induction s as [| c0 s IH]; [reflexivity |].
  unfold utf8.at_ in *. cbn [String.append String.get String.length]. exact IH.
Qed.

Lemma take_append (s t : string) (i : nat) :
  (i <= String.length s)%nat -> utf8.take i (s ++ t) = utf8.take i s.
Proof.
  revert i. induction s as [| c s IH]; intros i Hi; cbn in Hi.
  - replace i with 0%nat by lia. reflexivity.
  - destruct i as [| i]; [reflexivity |].
    cbn [String.append utf8.take]. rewrite IH by lia. reflexivity.
Qed.

Lemma drop_append (s t : string) (i : nat) :
  (i <= String.length s)%nat -> utf8.drop i (s ++ t) = utf8.drop i s ++ t.
Proof.
  revert i. induction s as [| c s IH]; intros i Hi; cbn in Hi.
  - replace i with 0%nat by lia. reflexivity.
  - destruct i as [| i]; [reflexivity |].
    cbn [String.append utf8.drop]. apply IH. lia.
Qed.

Lemma drop_all (s : string) : utf8.drop (String.length s) s = "".
Proof. induction s as [| c s IH]; cbn; auto. Qed.

Lemma scan_start_S (rest : string) :
  forall k,
  strings.scan_start rest (S k)
  = match strings.scan_start rest k with
    | strings.Stopped i => strings.Stopped (S i)
    | strings.NonASCII i => strings.NonASCII (S i)
    end.
Proof.
  induction rest as [| c rest IH]; intros k; cbn [strings.scan_start];
    [reflexivity |].
  destruct (utf8.RuneSelf <=? byte_val c); [reflexivity |].
  destruct (strings.asciiSpace (byte_val c)); [apply IH | reflexivity].
Qed.

Lemma scan_stop_cons (c : ascii) (s : string) (a : nat) :
  forall b,
  strings.scan_stop (String c s) (S a) (S b)
  = match strings.scan_stop s a b with
    | strings.Stopped i => strings.Stopped (S i)
    | strings.NonASCII i => strings.NonASCII (S i)
    end.
Proof.
  induction b as [| b IH].
  - cbn [strings.scan_stop]. destruct a; reflexivity.
  - cbn [strings.scan_stop] in *.
    change (S a <? S (S b))%nat with (a <? S b)%nat.
    destruct (a <? S b)%nat; [| reflexivity].
    change (utf8.at_ (String c s) (S b)) with (utf8.at_ s b).
    destruct (utf8.RuneSelf <=? utf8.at_ s b); [reflexivity |].
    destruct (strings.asciiSpace (utf8.at_ s b)); [exact IH | reflexivity].
Qed.

(** A white-space byte in front changes nothing. *)
Lemma TrimSpace_cons (c : ascii) (s : string) :
  strings.asciiSpace (byte_val c) = true ->
  strings.TrimSpace (String c s) = strings.TrimSpace s.
Proof.
  intros Hc. pose proof (asciiSpace_ascii _ Hc) as Ha.
  unfold strings.TrimSpace. cbn [strings.scan_start].
  replace (utf8.RuneSelf <=? byte_val c) with false by lia. rewrite Hc.
  rewrite scan_start_S.
  destruct (strings.scan_start s 0) as [start | start]; [| reflexivity].
  cbn [String.length]. rewrite scan_stop_cons.
  destruct (strings.scan_stop s start (String.length s)) as [stop | stop];
    reflexivity.
Qed.

Lemma TrimSpace_prefix (pre s : string) :
  ascii_spaces pre = true ->
  strings.TrimSpace (pre ++ s) = strings.TrimSpace s.
Proof.
  induction pre as [| c pre IH]; cbn [ascii_spaces String.append];
    [reflexivity |].
  intros H. apply andb_prop in H. destruct H as [Hc Hpre].
  rewrite TrimSpace_cons by exact Hc. auto.
Qed.

(** The first loop of [TrimSpace] with a white-space byte at the end. *)
Lemma scan_start_snoc (c : ascii) :
  strings.asciiSpace (byte_val c) = true ->
  forall s k,
  match strings.scan_start s k with
  | strings.NonASCII i =>
      (k <= i < k + String.length s)%nat
      /\ strings.scan_start (s ++ String c "") k = strings.NonASCII i
  | strings.Stopped i =>
      ((k <= i < k + String.length s)%nat
       /\ strings.scan_start (s ++ String c "") k = strings.Stopped i)
      \/ (i = (k + String.length s)%nat
          /\ strings.scan_start (s ++ String c "") k = strings.Stopped (S i))
  end.
Proof.
  intros Hc. pose proof (asciiSpace_ascii _ Hc) as Ha.
  induction s as [| c0 s IH]; intros k.
  - cbn [strings.scan_start String.append String.length].
    replace (utf8.RuneSelf <=? byte_val c) with false by lia. rewrite Hc.
    right. split; [lia | reflexivity].
  - cbn [strings.scan_start String.append String.length].
    destruct (utf8.RuneSelf <=? byte_val c0); [split; [lia | reflexivity] |].
    destruct (strings.asciiSpace (byte_val c0)).
    + specialize (IH (S k)).
      destruct (strings.scan_start s (S k)) as [i | i].
      * destruct IH as [[Hi Heq] | [Hi Heq]]; [left | right];
          (split; [lia | exact Heq]).
      * destruct IH as [Hi Heq]. split; [lia | exact Heq].
    + left. split; [lia | reflexivity].
Qed.

Lemma scan_stop_app (s t : string) (a : nat) :
  forall b, (b <= String.length s)%nat ->
  strings.scan_stop (s ++ t) a b = strings.scan_stop s a b.
Proof.
  induction b as [| b IH]; intros Hb; cbn [strings.scan_stop];
    [reflexivity |].
  rewrite at_append by lia. rewrite IH by lia. reflexivity.
Qed.

Lemma scan_stop_le (s : string) (a : nat) :
  forall b,
  match strings.scan_stop s a b with
  | strings.Stopped i | strings.NonASCII i => (i <= b)%nat
  end.
Proof.
  induction b as [| b IH]; cbn [strings.scan_stop]; [lia |].
  destruct (a <? S b)%nat; [| lia].
  destruct (utf8.RuneSelf <=? utf8.at_ s b); [lia |].
  destruct (strings.asciiSpace (utf8.at_ s b)); [| lia].
  destruct (strings.scan_stop s a b); lia.
Qed.

Lemma first_Seq (b : Z) (sz : nat) (lo hi : Z) :
  utf8.first b = utf8.Seq sz lo hi ->
  (sz = 2 \/ sz = 3 \/ sz = 4)%nat /\ 0x80 <= lo.
Proof.
  unfold utf8.first.
  repeat match goal with
         | |- context [if ?c then _ else _] => destruct c
         end; intros H; inversion H; subst; lia.
Qed.

(** The bytes of a rune stop before an ASCII byte: what follows the text
    does not change its first rune. *)
Lemma DecodeRuneInString_app (r t : string) (c : ascii) :
  r <> "" -> byte_val c < utf8.RuneSelf ->
  utf8.DecodeRuneInString (r ++ String c t) = utf8.DecodeRuneInString r.
Proof.
  intros Hr Hc. unfold utf8.RuneSelf in Hc.
  destruct r as [| c0 r]; [congruence |].
  unfold utf8.DecodeRuneInString. cbn [String.append].
  destruct (utf8.first (byte_val c0)) as [| | sz lo hi] eqn:Hf;
    [reflexivity .. |].
  apply first_Seq in Hf. destruct Hf as [Hsz Hlo].
  change (String c0 (r ++ String c t)) with (String c0 r ++ String c t).
  assert (Hcont : utf8.cont (byte_val c) = false)
    by (unfold utf8.cont; lia).
  unfold utf8.cont in Hcont.
  destruct Hsz as [-> | [-> | ->]];
    destruct r as [| c1 [| c2 [| c3 r]]];
    cbn [String.append String.length utf8.at_ String.get];
    repeat match goal with
           | |- context [if ?b then _ else _] => destruct b eqn:?
           end;
    try reflexivity; exfalso; unfold utf8.cont in *; lia.
Qed.

Section TrimFacts.

Variable f : Z -> bool.
Variable c : ascii.
Hypothesis c_ascii : byte_val c < utf8.RuneSelf.
Hypothesis c_space : f (byte_val c) = true.

Lemma indexFunc_from_snoc (fuel : nat) :
  forall rest i,
  (String.length rest <= fuel)%nat ->
  match strings.indexFunc_from fuel rest i f false with
  | Some j =>
      (j < i + String.length rest)%nat
      /\ strings.indexFunc_from (S fuel) (rest ++ String c "") i f false
         = Some j
  | None =>
      strings.indexFunc_from (S fuel) (rest ++ String c "") i f false = None
  end.
Proof.
  induction fuel as [fuel IH] using lt_wf_ind. intros rest i Hlen.
  destruct rest as [| c0 rest].
  - assert (Hnone : strings.indexFunc_from fuel "" i f false = None)
      by (destruct fuel; reflexivity).
    rewrite Hnone. cbn [String.append strings.indexFunc_from].
    unfold utf8.DecodeRuneInString.
    unfold utf8.first. unfold utf8.RuneSelf in c_ascii.
    replace (byte_val c <? 128) with true by lia.
    rewrite c_space. cbn [Bool.eqb utf8.drop]. destruct fuel; reflexivity.
  - destruct fuel as [| fuel]; [cbn in Hlen; lia |].
    cbn [strings.indexFunc_from String.append].
    change (String c0 (rest ++ String c "")) with (String c0 rest ++ String c "").
    rewrite DecodeRuneInString_app by (congruence || assumption).
    pose proof (DecodeRuneInString_size (String c0 rest) ltac:(congruence))
      as [Hsz Hle].
    destruct (utf8.DecodeRuneInString (String c0 rest)) as [r size].
    cbn [snd] in Hsz, Hle.
    destruct (Bool.eqb (f r) false).
    + split; [cbn [String.length] in *; lia | reflexivity].
    + rewrite drop_append by exact Hle.
      assert (Hd : (String.length (utf8.drop size (String c0 rest)) <= fuel)%nat)
        by (rewrite drop_length; cbn [String.length] in *; lia).
      pose proof (IH fuel ltac:(lia) _ (i + size)%nat Hd) as H.
      destruct (strings.indexFunc_from fuel _ (i + size) f false) as [j |].
      * destruct H as [Hj Heq]. split; [| exact Heq].
        rewrite drop_length in Hj. lia.
      * exact H.
Qed.

Lemma lastIndexFunc_from_S (fuel : nat) (s : string) (i : nat) :
  strings.lastIndexFunc_from (S fuel) s i f false
  = if (0 <? i)%nat then
      let '(r, size) := utf8.DecodeLastRuneInString (utf8.take i s) in
      if Bool.eqb (f r) false then Some (i - size)%nat
      else strings.lastIndexFunc_from fuel s (i - size) f false
    else None.
Proof. reflexivity. Qed.

Lemma lastIndexFunc_from_app (u v : string) (fuel : nat) :
  forall i, (i <= String.length u)%nat ->
  strings.lastIndexFunc_from fuel (u ++ v) i f false
  = strings.lastIndexFunc_from fuel u i f false.
Proof.
  induction fuel as [| fuel IH]; intros i Hi; cbn [strings.lastIndexFunc_from];
    [reflexivity |].
  rewrite take_append by exact Hi.
  destruct (0 <? i)%nat; [| reflexivity].
  destruct (utf8.DecodeLastRuneInString (utf8.take i u)) as [r size].
  rewrite IH by lia. reflexivity.
Qed.

Lemma lastIndexFunc_from_lt (u : string) (fuel : nat) :
  forall i j, (i <= String.length u)%nat ->
  strings.lastIndexFunc_from fuel u i f false = Some j -> (j < i)%nat.
Proof.
  induction fuel as [| fuel IH]; intros i j Hi; cbn [strings.lastIndexFunc_from];
    [discriminate |].
  destruct (0 <? i)%nat eqn:H0; [| discriminate].
  assert (Hne : utf8.take i u <> "").
  { intros Heq. apply (f_equal String.length) in Heq.
    rewrite take_length in Heq. cbn in Heq. lia. }
  pose proof (DecodeLastRuneInString_size _ Hne) as Hsz.
  destruct (utf8.DecodeLastRuneInString (utf8.take i u)) as [r size].
  cbn [snd] in Hsz.
  destruct (Bool.eqb (f r) false).
  - intros H. inversion H. lia.
  - intros H. apply IH in H; lia.
Qed.

Lemma DecodeLastRuneInString_snoc (u : string) :
  utf8.DecodeLastRuneInString (u ++ String c "") = (byte_val c, 1%nat).
Proof.
  unfold utf8.DecodeLastRuneInString. rewrite length_append.
  cbn [String.length].
  replace (Z.of_nat (String.length u + 1) =? 0) with false by lia.
  replace (Z.to_nat (Z.of_nat (String.length u + 1) - 1))
    with (String.length u) by lia.
  rewrite at_end.
  replace (byte_val c <? utf8.RuneSelf) with true by lia. reflexivity.
Qed.

Lemma lastIndexFunc_snoc (u : string) :
  strings.lastIndexFunc (u ++ String c "") f false
  = strings.lastIndexFunc u f false.
Proof.
  unfold strings.lastIndexFunc. rewrite length_append. cbn [String.length].
  replace (String.length u + 1)%nat with (S (String.length u)) by lia.
  rewrite (lastIndexFunc_from_S (S (String.length u)) (u ++ String c "")).
  replace (0 <? S (String.length u))%nat with true by lia.
  assert (Htake : utf8.take (S (String.length u)) (u ++ String c "")
                  = u ++ String c "").
  { replace (S (String.length u)) with (String.length (u ++ String c ""))
      by (rewrite length_append; cbn; lia).
    apply take_all. }
  rewrite Htake, DecodeLastRuneInString_snoc, c_space. cbn [Bool.eqb].
  replace (S (String.length u) - 1)%nat with (String.length u) by lia.
  apply lastIndexFunc_from_app. lia.
Qed.

Lemma TrimRightFunc_snoc (u : string) :
  strings.TrimRightFunc (u ++ String c "") f = strings.TrimRightFunc u f.
Proof.
  unfold strings.TrimRightFunc. rewrite lastIndexFunc_snoc.
  destruct (strings.lastIndexFunc u f false) as [j |] eqn:Hj.
  - apply lastIndexFunc_from_lt in Hj; [| lia].
    rewrite at_append by exact Hj.
    rewrite drop_append by lia.
    assert (Hne : utf8.drop j u <> "").
    { intros Heq. apply (f_equal String.length) in Heq.
      rewrite drop_length in Heq. cbn in Heq. lia. }
    rewrite DecodeRuneInString_app by assumption.
    pose proof (DecodeRuneInString_size _ Hne) as [_ Hle].
    rewrite drop_length in Hle.
    destruct (utf8.DecodeRuneInString (utf8.drop j u)) as [r wid].
    cbn [snd] in Hle.
    rewrite !take_append by lia. reflexivity.
  - destruct u; reflexivity.
Qed.

Lemma TrimFunc_snoc (t : string) :
  strings.TrimFunc (t ++ String c "") f = strings.TrimFunc t f.
Proof.
  unfold strings.TrimFunc, strings.TrimLeftFunc, strings.indexFunc.
  rewrite length_append. cbn [String.length].
  replace (String.length t + 1)%nat with (S (String.length t)) by lia.
  pose proof (indexFunc_from_snoc (String.length t) t 0%nat (le_n _)) as H.
  destruct (strings.indexFunc_from (String.length t) t 0 f false) as [j |].
  - destruct H as [Hj ->]. rewrite drop_append by lia. apply TrimRightFunc_snoc.
  - rewrite H. reflexivity.
Qed.

End TrimFacts.

(** A white-space byte at the end changes nothing. *)
Lemma TrimSpace_snoc (c : ascii) (s : string) :
  strings.asciiSpace (byte_val c) = true ->
  strings.TrimSpace (s ++ String c "") = strings.TrimSpace s.
Proof.
  intros Hc. pose proof (asciiSpace_ascii _ Hc) as Ha.
  pose proof (asciiSpace_IsSpace _ Hc) as Hs.
  unfold strings.TrimSpace.
  pose proof (scan_start_snoc c Hc s 0%nat) as Hstart.
  destruct (strings.scan_start s 0) as [start | start].
  - destruct Hstart as [[Hi ->] | [Hi ->]].
    + rewrite length_append. cbn [String.length].
      replace (String.length s + 1)%nat with (S (String.length s)) by lia.
      cbn [strings.scan_stop].
      replace (start <? S (String.length s))%nat with true by lia.
      rewrite at_end.
      replace (utf8.RuneSelf <=? byte_val c) with false by lia. rewrite Hc.
      rewrite scan_stop_app by lia.
      pose proof (scan_stop_le s start (String.length s)) as Hle.
      destruct (strings.scan_stop s start (String.length s)) as [stop | stop];
        rewrite take_append by lia; reflexivity.
    + subst start. cbn [Nat.add].
      rewrite length_append. cbn [String.length].
      replace (String.length s + 1)%nat with (S (String.length s)) by lia.
      assert (H1 : strings.scan_stop (s ++ String c "") (S (String.length s))
                     (S (String.length s)) = strings.Stopped (S (String.length s))).
      { cbn [strings.scan_stop]. rewrite Nat.ltb_irrefl. reflexivity. }
      assert (H2 : strings.scan_stop s (String.length s) (String.length s)
                   = strings.Stopped (String.length s)).
      { destruct (String.length s) as [| n]; [reflexivity |].
        cbn [strings.scan_stop]. rewrite Nat.ltb_irrefl. reflexivity. }
      rewrite H1, H2, take_all, drop_all.
      replace (S (String.length s)) with (String.length (s ++ String c ""))
        by (rewrite length_append; cbn; lia).
      rewrite take_all, drop_all. reflexivity.
  - destruct Hstart as [Hi ->]. rewrite drop_append by lia.
    apply TrimFunc_snoc; assumption.
Qed.

Lemma TrimSpace_suffix (post : string) :
  ascii_spaces post = true ->
  forall s, strings.TrimSpace (s ++ post) = strings.TrimSpace s.
Proof.
  induction post as [| c post IH]; cbn [ascii_spaces]; intros H s.
  - replace (s ++ "") with s; [reflexivity |].
    induction s as [| x s IHs]; cbn; [| rewrite <- IHs]; reflexivity.
  - apply andb_prop in H. destruct H as [Hc Hpost].
    change (String c post) with (String c "" ++ post).
    rewrite <- string_app_assoc. rewrite IH by exact Hpost.
    apply TrimSpace_snoc. exact Hc.
Qed.

Section DecoderSpace.

Context {FL : Floats}.

(** X4. ASCII white space around a line (tab, line feed, vertical tab, form
    feed, carriage return, space) does not change how it decodes: the line
    is accepted or rejected alike, and the record is the same. *)
Theorem Parse_ignores_surrounding_space (now : Z) (pre msg post : string) :
  ascii_spaces pre = true -> ascii_spaces post = true ->
  Parse now (pre ++ msg ++ post) = Parse now msg.
Proof.
  intros Hpre Hpost. unfold Parse.
  rewrite TrimSpace_prefix by exact Hpre.
  rewrite TrimSpace_suffix by exact Hpost. reflexivity.
Qed.

End DecoderSpace.

(** ** The decoder: dates *)

Lemma leadingInt_loop_bound (s : string) :
  forall x q rem,
  time.leadingInt_loop s x = Some (q, rem) -> 0 <= x ->
  x <= q /\ q + 1 <= (x + 1) * 10 ^ Z.of_nat (String.length s).
Proof.
  induction s as [| c s IH]; intros x q rem H Hx.
  - cbn in H. injection H as <- <-. cbn. lia.
  - cbn [time.leadingInt_loop String.length] in H |- *.
    rewrite Nat2Z.inj_succ, Z.pow_succ_r by lia.
    pose proof (Z.pow_pos_nonneg 10 (Z.of_nat (String.length s)) ltac:(lia)
                  ltac:(lia)) as Hpow.
    destruct (isDigit c) eqn:Hc; cbn [negb] in H.
    + destruct (_ <? x); [discriminate |].
      destruct (2 ^ 63 <? _); [discriminate |].
      apply isDigit_spec in Hc.
      destruct (IH _ _ _ H ltac:(lia)) as [H1 H2]. split; nia.
    + injection H as <- <-. split; nia.
Qed.

(** [atoi] of package time reads a number of fewer digits than the text has
    bytes, and none below zero from a text that begins with a digit. *)
Lemma time_atoi_bound (s : string) (v : Z) :
  time.atoi s = Some v ->
  Z.abs v < 10 ^ Z.of_nat (String.length s)
  /\ (time.isDigit_at s 0 = true -> 0 <= v).
Proof.
  unfold time.atoi, time.leadingInt.
  destruct s as [| c s].
  - cbn. intros [= <-]. cbn. lia.
  - destruct (Ascii.eqb c "-" || Ascii.eqb c "+") eqn:Hsign.
    + destruct (time.leadingInt_loop s 0) as [[q rem] |] eqn:HL;
        [| discriminate].
      destruct rem; [| discriminate]. intros [= <-].
      destruct (leadingInt_loop_bound s 0 q "" HL ltac:(lia)) as [H1 H2].
      cbn [String.length]. rewrite Nat2Z.inj_succ, Z.pow_succ_r by lia.
      split.
      * destruct (Ascii.eqb c "-"); lia.
      * unfold time.isDigit_at. cbn [String.get]. intros Hd.
        apply isDigit_spec in Hd.
        apply orb_true_iff in Hsign.
        destruct Hsign as [E | E]; apply Ascii.eqb_eq in E; subst c;
          unfold byte_val in Hd; cbn in Hd; lia.
    + destruct (time.leadingInt_loop (String c s) 0) as [[q rem] |] eqn:HL;
        [| discriminate].
      destruct rem; [| discriminate]. intros [= <-].
      destruct (leadingInt_loop_bound _ 0 q "" HL ltac:(lia)) as [H1 H2].
      split; [lia | intros _; lia].
Qed.

Lemma isDigit_at_val (s : string) (i : nat) :
  time.isDigit_at s i = true -> 0 <= utf8.at_ s i - 48 <= 9.
Proof.
  unfold time.isDigit_at, utf8.at_. destruct (String.get i s); [| discriminate].
  intros H. apply isDigit_spec in H. lia.
Qed.

Lemma getnum_bound (s : string) (fixed : bool) (n : Z) (rest : string) :
  time.getnum s fixed = Some (n, rest) -> 0 <= n <= 99.
Proof.
  unfold time.getnum.
  destruct (time.isDigit_at s 0) eqn:H0; cbn [negb]; [| discriminate].
  apply isDigit_at_val in H0.
  destruct (time.isDigit_at s 1) eqn:H1; cbn [negb].
  - apply isDigit_at_val in H1. intros [= <- _]. lia.
  - destruct fixed; [discriminate |]. intros [= <- _]. lia.
Qed.

Lemma digits_end_ge (fuel : nat) (value : string) :
  forall n, (n <= time.digits_end fuel value n)%nat.
Proof.
  induction fuel as [| fuel IH]; intros n; cbn [time.digits_end]; [lia |].
  destruct (_ && _); [| lia]. specialize (IH (S n)). lia.
Qed.

Lemma parseNanoseconds_bound (value : string) (n : nat) (ns : Z) :
  (2 <= n)%nat ->
  time.parseNanoseconds value n = Some ns -> 0 <= ns < 10 ^ 9.
Proof.
  intros Hn. unfold time.parseNanoseconds.
  destruct (negb _); [discriminate |].
  set (value' := if (10 <? n)%nat then utf8.take 10 value else value).
  set (n' := if (10 <? n)%nat then 10%nat else n).
  assert (Hn' : (2 <= n' <= 10)%nat)
    by (subst n'; destruct (10 <? n)%nat eqn:E; lia).
  destruct (time.atoi _) as [a |] eqn:Ha; [| discriminate].
  destruct (a <? 0) eqn:Hneg; [discriminate |]. intros [= <-].
  apply time_atoi_bound in Ha. destruct Ha as [Ha _].
  rewrite take_length in Ha.
  assert (Hlen : a < 10 ^ Z.of_nat (n' - 1)).
  { eapply Z.lt_le_trans; [replace a with (Z.abs a) by lia; exact Ha |].
    apply Z.pow_le_mono_r; lia. }
  assert (Hpow : 10 ^ Z.of_nat (n' - 1) * 10 ^ Z.of_nat (10 - n') = 10 ^ 9).
  { rewrite <- Z.pow_add_r by lia. f_equal. lia. }
  pose proof (Z.pow_pos_nonneg 10 (Z.of_nat (10 - n')) ltac:(lia) ltac:(lia)).
  split; [apply Z.mul_nonneg_nonneg; lia |].
  rewrite <- Hpow. apply Z.mul_lt_mono_pos_r; assumption.
Qed.

(** X6. A date that is not null is a date of the calendar and a time of
    the day: a year of four digits, a month of the year, a day of that
    month, an hour below 24, a minute and a second below 60 and less than
    a second of nanoseconds. *)
Theorem parseDateTime_valid (date timeStr : string) (t : time.Time) :
  parseDateTime date timeStr = Some t ->
  valid_time t = true
  /\ 0 <= time.Year t <= 9999
  /\ 0 <= time.Hour t /\ 0 <= time.Minute t /\ 0 <= time.Second t
  /\ 0 <= time.Nanosecond t < 10 ^ 9.
Proof.
  unfold parseDateTime, time.Parse, time.layout.
  generalize (date ++ " " ++ timeStr)%string. intros s.
  cbn [time.parse_chunks].
  repeat match goal with
  | |- context [match time.skip ?v ?p with _ => _ end] =>
      destruct (time.skip v p); [| discriminate]
  | |- context [match time.parse_std ?std ?v ?t0 with _ => _ end] =>
      let E := fresh "E" in
      destruct (time.parse_std std v t0) as [[? ?] |] eqn:E; [| discriminate]
  end.
  destruct (_ =? 0)%nat; [| discriminate].
  destruct (_ || _) eqn:Hday; [discriminate |]. intros [= <-].
  (* the year *)
  cbn [time.parse_std] in E.
  destruct (_ || _) eqn:Hy in E; [discriminate |].
  destruct (time.atoi _) as [y |] eqn:Ha in E; [| discriminate].
  injection E as <- <-.
  apply orb_false_iff in Hy. destruct Hy as [Hy1 Hy2].
  apply negb_false_iff in Hy2.
  apply time_atoi_bound in Ha. destruct Ha as [Hya Hyd].
  rewrite take_length in Hya.
  assert (Hyear : 0 <= y <= 9999).
  { assert (time.isDigit_at (utf8.take 4 s0) 0 = true) as Hd0.
    { destruct s0; [discriminate | exact Hy2]. }
    specialize (Hyd Hd0).
    assert (Z.abs y < 10 ^ 4).
    { eapply Z.lt_le_trans; [exact Hya |]. apply Z.pow_le_mono_r; lia. }
    change (10 ^ 4) with 10000 in *. lia. }
  (* the month *)
  cbn [time.parse_std] in E0.
  destruct (time.getnum _ true) as [[m ?] |] eqn:Hm in E0; [| discriminate].
  destruct (_ || _) eqn:Hmr in E0; [discriminate |]. injection E0 as <- <-.
  (* the day *)
  cbn [time.parse_std] in E1.
  destruct (time.getnum _ true) as [[d ?] |] eqn:Hd in E1; [| discriminate].
  injection E1 as <- <-.
  (* the hour *)
  cbn [time.parse_std] in E2.
  destruct (time.getnum _ false) as [[h ?] |] eqn:Hh in E2; [| discriminate].
  destruct (_ || _) eqn:Hhr in E2; [discriminate |]. injection E2 as <- <-.
  (* the minute *)
  cbn [time.parse_std] in E3.
  destruct (time.getnum _ true) as [[mi ?] |] eqn:Hmi in E3; [| discriminate].
  destruct (_ || _) eqn:Hmir in E3; [discriminate |]. injection E3 as <- <-.
  (* the second and its fraction *)
  cbn [time.parse_std] in E4.
  destruct (time.getnum _ true) as [[sec rest] |] eqn:Hs in E4; [| discriminate].
  destruct (_ || _) eqn:Hsr in E4; [discriminate |].
  apply getnum_bound in Hm, Hd, Hh, Hmi, Hs.
  destruct (_ && _) eqn:Hfrac in E4.
  - destruct (time.parseNanoseconds _ _) as [ns |] eqn:Hns in E4;
      [| discriminate].
    injection E4 as <- <-.
    apply parseNanoseconds_bound in Hns; [| apply digits_end_ge].
    unfold valid_time. cbn [time.Year time.Month time.Day time.Hour
                            time.Minute time.Second time.Nanosecond] in *.
    change (10 ^ 9) with 1000000000 in *.
    repeat split; lia.
  - injection E4 as <- <-.
    unfold valid_time. cbn [time.Year time.Month time.Day time.Hour
                            time.Minute time.Second time.Nanosecond] in *.
    change (10 ^ 9) with 1000000000.
    repeat split; lia.
Qed.

(** ** The forwarder: what is sent, in what sizes and in what order *)

Section ForwarderMore.

Context {FL : Floats}.

(** The records of all the flushes of a run are the accepted records. *)
Lemma runApp_records (w : World) (B : Z) (lines : list string) :
  dial w = inr lines -> 0 <= B <= max_cap w ->
  List.concat (map records_of (flushes (fst (runApp w B))))
  = accepted_records (clock w) 0 lines.
Proof.
  intros Hdial HB.
  destruct (run_cut w B [Log "Starting application..."] lines eq_refl)
    as (Hm & Hf & Hs).
  rewrite (runApp_flushes w B lines Hdial HB). cbv zeta.
  rewrite map_app, concat_app, Hf, records_of_payloads, flushes_flush_rest, Hm.
  pose proof (cut_concat B (accepted_records (clock w) 0 lines) []) as Hc.
  cbn [app] in Hc. etransitivity; [| exact Hc].
  f_equal.
  destruct (snd (cut B [] (accepted_records (clock w) 0 lines)));
    cbn [List.length Nat.ltb Nat.leb map List.concat];
    now rewrite ?records_of_payload, ?app_nil_r.
Qed.

Lemma runApp_stopped (w : World) (B : Z) :
  (exists err, dial w = inl err) \/ ~ 0 <= B <= max_cap w ->
  flushes (fst (runApp w B)) = [] /\ snd (runApp w B) <> Return None.
Proof.
  unfold runApp. intros [[err ->] | HB]; [split; [reflexivity | discriminate] |].
  destruct (dial w); [split; [reflexivity | discriminate] |].
  replace ((B <? 0) || (max_cap w <? B)) with true by lia.
  split; [reflexivity | discriminate].
Qed.

(** Every accepted record is the decoding of a line of the stream at the
    clock reading of that line. *)
Lemma accepted_records_decoded (clock : nat -> Z) (lines : list string) :
  forall k,
  Forall (fun m => exists i msg,
            nth_error lines i = Some msg
            /\ Parse (clock (k + i)%nat) msg = (m, true))
    (accepted_records clock k lines).
Proof.
  induction lines as [| msg lines IH]; intros k; cbn [accepted_records];
    [constructor |].
  assert (Hshift : Forall (fun m => exists i msg0,
                      nth_error (msg :: lines) i = Some msg0
                      /\ Parse (clock (k + i)%nat) msg0 = (m, true))
                     (accepted_records clock (S k) lines)).
  { eapply Forall_impl; [| apply (IH (S k))].
    intros m (i & msg0 & Hn & HP). exists (S i), msg0. split; [exact Hn |].
    now replace (k + S i)%nat with (S k + i)%nat by lia. }
  destruct (Parse (clock k) msg) as [parsed ok] eqn:HP.
  destruct ok; [| exact Hshift].
  constructor; [| exact Hshift].
  exists 0%nat, msg. split; [reflexivity |].
  now rewrite Nat.add_0_r.
Qed.


Lemma events_of_payloads (w : World) (batches : list (list SBS1Message)) :
  forall n,
  List.concat (map events (payloads w n batches))
  = map event_of (List.concat batches).
Proof.
  induction batches as [| b batches IH]; intros n; [reflexivity |].
  cbn [payloads map List.concat]. rewrite IH, map_app. reflexivity.
Qed.

(** The events of all the flushes of a run, in order, are those of the
    accepted records. *)
Lemma runApp_events (w : World) (B : Z) (lines : list string) :
  dial w = inr lines -> 0 <= B <= max_cap w ->
  List.concat (map events (flushes (fst (runApp w B))))
  = map event_of (accepted_records (clock w) 0 lines).
Proof.
  intros Hdial HB.
  destruct (run_cut w B [Log "Starting application..."] lines eq_refl)
    as (Hm & Hf & Hs).
  rewrite (runApp_flushes w B lines Hdial HB). cbv zeta.
  rewrite map_app, concat_app, Hf, events_of_payloads, flushes_flush_rest, Hm.
  pose proof (cut_concat B (accepted_records (clock w) 0 lines) []) as Hc.
  cbn [app] in Hc.
  etransitivity; [| apply (f_equal (map event_of)); exact Hc].
  rewrite map_app. f_equal.
  destruct (snd (cut B [] (accepted_records (clock w) 0 lines)));
    cbn [List.length Nat.ltb Nat.leb map List.concat payload_of events];
    now rewrite ?app_nil_r.
Qed.

(** X7. Whatever the world and the batch size, every record of every
    payload handed to the sink is the decoding of a line of the feed, made
    at the clock reading of that line, and has the kind ["MSG"]: a rejected
    line never reaches the sink. *)
Theorem only_decoded_lines_are_sent (w : World) (B : Z) :
  Forall (fun p =>
    Forall (fun m =>
      MessageType m = "MSG"
      /\ exists lines i msg,
           dial w = inr lines
           /\ nth_error lines i = Some msg
           /\ Parse (clock w i) msg = (m, true))
      (records_of p))
    (flushes (fst (runApp w B))).
Proof.
  destruct (dial w) as [err | lines] eqn:Hdial.
  { rewrite (proj1 (runApp_stopped w B (or_introl (ex_intro _ err Hdial)))).
    constructor. }
  destruct (Z_le_dec 0 B) as [H0 | H0];
    [destruct (Z_le_dec B (max_cap w)) as [H1 | H1] |].
  2, 3: assert (Hout : ~ 0 <= B <= max_cap w) by lia;
        rewrite (proj1 (runApp_stopped w B (or_intror Hout))); constructor.
  pose proof (runApp_records w B lines Hdial (conj H0 H1)) as Hrec.
  pose proof (accepted_records_decoded (clock w) lines 0) as Hdec.
  rewrite <- Hrec in Hdec.
  assert (Hall : forall fl : list Payload,
            Forall (fun m => exists i msg,
                      nth_error lines i = Some msg
                      /\ Parse (clock w (0 + i)) msg = (m, true))
              (List.concat (map records_of fl)) ->
            Forall (fun p => Forall (fun m => exists i msg,
                      nth_error lines i = Some msg
                      /\ Parse (clock w (0 + i)) msg = (m, true))
                      (records_of p)) fl).
  { induction fl as [| p fl IHfl]; cbn [map List.concat]; intros Hfl;
      [constructor |].
    apply Forall_app in Hfl. destruct Hfl. constructor; auto. }
  apply Hall in Hdec.
  eapply Forall_impl; [| exact Hdec]. intros p Hp.
  eapply Forall_impl; [| exact Hp]. intros m (i & msg & Hn & HP).
  split.
  - pose proof (Parse_accepted_record (clock w (0 + i)) msg) as Hr.
    rewrite HP in Hr. cbn [fst snd] in Hr. rewrite (Hr eq_refl). reflexivity.
  - exists lines, i, msg. auto.
Qed.


(** From an empty buffer, [n] records make [n / b] batches of [b] records
    and leave [n mod b] in the buffer. *)
Lemma cut_sizes {A : Type} (B : Z) :
  1 <= B ->
  forall (n : nat) (records : list A),
  List.length records = n ->
  map (@List.length A) (fst (cut B [] records))
  = repeat (Z.to_nat B) (n / Z.to_nat B)
  /\ List.length (snd (cut B [] records)) = (n mod Z.to_nat B)%nat.
Proof.
  intros HB. set (b := Z.to_nat B). assert (Hb : Z.of_nat b = B) by lia.
  induction n as [n IH] using lt_wf_ind. intros records Hlen.
  destruct (Nat.lt_ge_cases n b) as [Hlt | Hge].
  - rewrite (cut_short B records []) by (cbn [List.length]; lia).
    cbn [fst snd app map].
    rewrite Nat.div_small, Nat.mod_small by lia. auto.
  - rewrite <- (firstn_skipn b records).
    assert (Hl1 : List.length (firstn b records) = b)
      by (rewrite length_firstn; lia).
    assert (Hl2 : List.length (skipn b records) = (n - b)%nat)
      by (rewrite length_skipn; lia).
    rewrite (cut_full B (firstn b records) [] (skipn b records))
      by (cbn [app List.length]; lia).
    cbn [fst snd app map].
    destruct (IH (n - b)%nat ltac:(lia) (skipn b records) Hl2) as [IH1 IH2].
    rewrite IH1, IH2, Hl1.
    assert (Hdiv : (n / b = S ((n - b) / b))%nat).
    { replace (n / b)%nat with ((1 * b + (n - b)) / b)%nat by (f_equal; lia).
      rewrite Nat.div_add_l by lia. reflexivity. }
    assert (Hmod : (n mod b = (n - b) mod b)%nat).
    { replace (n mod b)%nat with (((n - b) + 1 * b) mod b)%nat
        by (f_equal; lia).
      apply Nat.Div0.mod_add. }
    rewrite Hdiv, Hmod. split; reflexivity.
Qed.

(** X8. With [batchSize >= 1], [n] accepted records give [n / batchSize]
    flushes of [batchSize] events each, and one more of the
    [n mod batchSize] events that are left when that is not zero. *)
Theorem flush_sizes (w : World) (B : Z) (lines : list string) :
  dial w = inr lines -> 1 <= B <= max_cap w ->
  let n := List.length (accepted_records (clock w) 0 lines) in
  let b := Z.to_nat B in
  map (fun p => List.length (events p)) (flushes (fst (runApp w B)))
  = (repeat b (n / b)
     ++ if (n mod b =? 0)%nat then [] else [(n mod b)%nat])%list
  /\ List.length (flushes (fst (runApp w B)))
     = (n / b + if (n mod b =? 0)%nat then 0 else 1)%nat.
Proof.
  intros Hdial HB n b.
  destruct (run_cut w B [Log "Starting application..."] lines eq_refl)
    as (Hm & Hf & Hs).
  destruct (cut_sizes B ltac:(lia) n (accepted_records (clock w) 0 lines)
              eq_refl) as [Hsz Hrest].
  fold b in Hsz, Hrest.
  assert (Hmap : forall k batches,
            map (fun p => List.length (events p)) (payloads w k batches)
            = map (@List.length SBS1Message) batches).
  { intros k batches. revert k.
    induction batches as [| x batches IHb]; intros k; [reflexivity |].
    cbn [payloads map payload_of events]. now rewrite length_map, IHb. }
  assert (Hsizes : map (fun p => List.length (events p))
                     (flushes (fst (runApp w B)))
                   = (repeat b (n / b)
                      ++ if (n mod b =? 0)%nat then [] else [(n mod b)%nat])%list).
  { rewrite (runApp_flushes w B lines Hdial ltac:(lia)). cbv zeta.
    rewrite map_app, Hf, Hmap, Hsz, flushes_flush_rest, Hm. f_equal.
    destruct (snd (cut B [] (accepted_records (clock w) 0 lines))) as [| x rest];
      cbn [List.length] in Hrest |- *.
    - rewrite <- Hrest. reflexivity.
    - rewrite <- Hrest.
      cbn [Nat.ltb Nat.leb Nat.eqb map payload_of events List.length].
      now rewrite length_map. }
  split; [exact Hsizes |].
  apply (f_equal (@List.length nat)) in Hsizes.
  rewrite length_map, length_app, repeat_length in Hsizes.
  rewrite Hsizes. destruct (n mod b =? 0)%nat; reflexivity.
Qed.

Lemma read_line_0_1 (w : World) (st : State) (msg : string) :
  read_line w 0 st msg = read_line w 1 st msg.
Proof.
  unfold read_line. destruct (Parse _ msg) as [parsed [|]]; [| reflexivity].
  replace (Z.of_nat (List.length (messages st ++ [parsed])) >=? 0) with true
    by lia.
  replace (Z.of_nat (List.length (messages st ++ [parsed])) >=? 1) with true
    by (rewrite length_app; cbn [List.length]; lia).
  reflexivity.
Qed.

(** X9. A batch size of zero is a batch size of one: the two runs are the
    same, and every accepted record is sent at once in a payload of its
    own. *)
Theorem batch_size_zero_is_one (w : World) :
  1 <= max_cap w ->
  runApp w 0 = runApp w 1
  /\ (forall lines, dial w = inr lines ->
        map records_of (flushes (fst (runApp w 0)))
        = map (fun m => [m]) (accepted_records (clock w) 0 lines)).
Proof.
  intros Hcap.
  assert (Hloop : forall lines st, read_loop w 0 st lines = read_loop w 1 st lines).
  { induction lines as [| msg lines IH]; intros st; [reflexivity |].
    cbn [read_loop fold_left]. rewrite read_line_0_1. apply IH. }
  assert (Heq : runApp w 0 = runApp w 1).
  { unfold runApp. destruct (dial w) as [err | lines]; [reflexivity |].
    replace ((0 <? 0) || (max_cap w <? 0)) with false by lia.
    replace ((1 <? 0) || (max_cap w <? 1)) with false by lia.
    now rewrite Hloop. }
  split; [exact Heq |].
  intros lines Hdial. rewrite Heq.
  destruct (run_cut w 1 [Log "Starting application..."] lines eq_refl)
    as (Hm & Hf & Hs).
  assert (Hone : forall records : list SBS1Message,
            cut 1 [] records = (map (fun m => [m]) records, [])).
  { induction records as [| r records IHr]; [reflexivity |].
    cbn [cut app List.length]. rewrite IHr. reflexivity. }
  rewrite Hone in Hm, Hf. cbn [fst snd] in Hm, Hf.
  rewrite (runApp_flushes w 1 lines Hdial ltac:(lia)). cbv zeta.
  rewrite flushes_flush_rest, Hm, Hf. cbn [List.length Nat.ltb Nat.leb].
  now rewrite app_nil_r, records_of_payloads.
Qed.


Lemma Parse_Timestamp (now : Z) (msg : string) :
  Timestamp (fst (Parse now msg)) = strconv.FormatInt now.
Proof.
  rewrite Parse_unfold. cbv zeta. destruct (_ || _); reflexivity.
Qed.

(** The timestamps of the accepted records are the clock readings of their
    lines, whose numbers go up. *)
Lemma accepted_records_stamps (clock : nat -> Z) (lines : list string) :
  forall k, exists ks,
    map Timestamp (accepted_records clock k lines)
    = map (fun i => strconv.FormatInt (clock i)) ks
    /\ StronglySorted lt ks
    /\ Forall (fun i => (k <= i < k + List.length lines)%nat) ks.
Proof.
  induction lines as [| msg lines IH]; intros k; cbn [accepted_records].
  - exists []. repeat split; constructor.
  - destruct (IH (S k)) as (ks & Hts & Hsorted & Hrange).
    assert (Hrange' : Forall (fun i => (k <= i < k + S (List.length lines))%nat) ks).
    { eapply Forall_impl; [| exact Hrange]. cbn beta. intros; lia. }
    pose proof (Parse_Timestamp (clock k) msg) as HT.
    destruct (Parse (clock k) msg) as [parsed ok]. cbn [fst] in HT.
    destruct ok.
    + exists (k :: ks). cbn [map List.length]. rewrite HT, Hts.
      split; [reflexivity |]. split.
      * constructor; [exact Hsorted |].
        eapply Forall_impl; [| exact Hrange]. cbn beta. intros; lia.
      * constructor; [lia | exact Hrange'].
    + exists ks. cbn [List.length]. auto.
Qed.

(** X10. When the clock does not go back while the stream is read and stays
    an [int64], the timestamps of the events, through all the payloads of the
    run in order, are decimal numbers that never decrease. *)
Theorem timestamps_in_arrival_order (w : World) (B : Z) (lines : list string) :
  dial w = inr lines ->
  (forall i, (i < List.length lines)%nat -> - 2 ^ 63 <= clock w i < 2 ^ 63) ->
  (forall i j, (i <= j < List.length lines)%nat -> clock w i <= clock w j) ->
  let stamps :=
    map event_ts (List.concat (map events (flushes (fst (runApp w B))))) in
  Forall (fun ts => snd (strconv.Atoi ts) = None) stamps
  /\ StronglySorted Z.le (map (fun ts => fst (strconv.Atoi ts)) stamps).
Proof.
  intros Hdial Hrange Hmono stamps.
  destruct (Z_le_dec 0 B) as [H0 | H0];
    [destruct (Z_le_dec B (max_cap w)) as [H1 | H1] |].
  2, 3: assert (Hout : ~ 0 <= B <= max_cap w) by lia;
        subst stamps;
        rewrite (proj1 (runApp_stopped w B (or_intror Hout)));
        split; constructor.
  subst stamps. rewrite (runApp_events w B lines Hdial (conj H0 H1)).
  rewrite map_map. cbn [event_of event_ts].
  destruct (accepted_records_stamps (clock w) lines 0)
    as (ks & Hts & Hsorted & Hks).
  change (map (fun x : SBS1Message => Timestamp x)
            (accepted_records (clock w) 0 lines))
    with (map Timestamp (accepted_records (clock w) 0 lines)).
  rewrite Hts. clear Hts.
  induction ks as [| k ks IH]; [split; constructor |].
  inversion Hsorted as [| ? ? Hs' Hk]; subst.
  inversion Hks as [| ? ? Hk0 Hks']; subst.
  destruct (IH Hs' Hks') as [IH1 IH2].
  cbn [map]. rewrite (Atoi_FormatInt (clock w k)) by (apply Hrange; lia).
  cbn [fst snd]. split.
  { constructor; [| exact IH1].
    rewrite (Atoi_FormatInt (clock w k)) by (apply Hrange; lia). reflexivity. }
  constructor; [exact IH2 |].
  rewrite Forall_forall in Hk, Hks'. apply Forall_forall. intros v Hv.
  apply in_map_iff in Hv. destruct Hv as (ts & <- & Hts).
  apply in_map_iff in Hts. destruct Hts as (j & <- & Hj).
  specialize (Hk j Hj). specialize (Hks' j Hj).
  rewrite (Atoi_FormatInt (clock w j)) by (apply Hrange; lia).
  cbn [fst]. apply Hmono. lia.
Qed.


Lemma outcomes_logged_app (t1 t2 : list Effect) :
  outcomes_logged t1 -> outcomes_logged t2 -> outcomes_logged (t1 ++ t2).
Proof.
  intros H1 H2. induction H1; cbn [app]; try (constructor; assumption).
  exact H2.
Qed.

Lemma sendToService_logged (w : World) (n : nat) (batch : list SBS1Message)
    (prefix : string) :
  prefix = "Error sending messages:"
  \/ prefix = "Error sending remaining messages:" ->
  outcomes_logged (fst (sendToService w n batch)
                   ++ log_error prefix (snd (sendToService w n batch))).
Proof.
  intros Hprefix. unfold sendToService.
  destruct (sink w n _) as [body | err]; cbn [fst snd log_error app].
  - repeat constructor.
  - constructor. now constructor; [| constructor].
Qed.

Lemma read_line_logged (w : World) (B : Z) (st : State) (msg : string) :
  outcomes_logged (trace st) -> outcomes_logged (trace (read_line w B st msg)).
Proof.
  intros Hst. unfold read_line.
  destruct (Parse _ msg) as [parsed [|]]; [| exact Hst].
  destruct (_ >=? B); [| exact Hst].
  pose proof (sendToService_logged w (sends_done st) (messages st ++ [parsed])
                "Error sending messages:" (or_introl eq_refl)) as Hs.
  destruct (sendToService w (sends_done st) (messages st ++ [parsed]))
    as [effects err].
  cbn [trace fst snd] in *. now apply outcomes_logged_app.
Qed.

Lemma read_loop_logged (w : World) (B : Z) (lines : list string) :
  forall st,
  outcomes_logged (trace st) -> outcomes_logged (trace (read_loop w B st lines)).
Proof.
  induction lines as [| msg lines IH]; intros st Hst; [exact Hst |].
  cbn [read_loop fold_left]. apply IH, read_line_logged, Hst.
Qed.

(** X11. In every run, whatever the world and the batch size, each answer
    of the sink is followed at once by its line in the log: a response by
    its body, an error by its text.  No failed delivery is silent. *)
Theorem every_outcome_is_logged (w : World) (B : Z) :
  outcomes_logged (fst (runApp w B)).
Proof.
  unfold runApp. destruct (dial w) as [err | lines]; [repeat constructor |].
  destruct (_ || _); [repeat constructor |]. cbn [fst].
  apply outcomes_logged_app.
  - apply read_loop_logged. repeat constructor.
  - apply outcomes_logged_app; [| repeat constructor].
    unfold flush_rest. destruct (0 <? _)%nat; [| constructor].
    pose proof (sendToService_logged w
                  (sends_done (read_loop w B (start [Log "Starting application..."]) lines))
                  (messages (read_loop w B (start [Log "Starting application..."]) lines))
                  "Error sending remaining messages:" (or_intror eq_refl)) as Hs.
    destruct (sendToService w _ _) as [effects err]. exact Hs.
Qed.

End ForwarderMore.

(** ** The configuration *)

Section MainFacts.

Context {FL : Floats}.

Lemma runApp_returns_nil (w : World) (B : Z) (err : string) :
  snd (runApp w B) <> Return (Some err).
Proof.
  unfold runApp. destruct (dial w); [discriminate |].
  destruct (_ || _); discriminate.
Qed.

Lemma main_configured (env : Env) (cfg : Config) :
  DATASET_API_WRITE_TOKEN cfg <> "" -> DUMP1090_HOST cfg <> "" ->
  main env (Configured cfg)
  = runApp (env (DUMP1090_HOST cfg ++ ":" ++ DUMP1090_PORT cfg)%string
                (DATASET_API_WRITE_TOKEN cfg))
           (BATCH_SIZE cfg).
Proof.
  intros Ht Hh. unfold main, initializeConfiguration, Action.
  apply String.eqb_neq in Ht, Hh. rewrite Ht, Hh.
  pose proof (runApp_returns_nil
                (env (DUMP1090_HOST cfg ++ ":" ++ DUMP1090_PORT cfg)%string
                     (DATASET_API_WRITE_TOKEN cfg)) (BATCH_SIZE cfg)) as Hr.
  destruct (runApp _ _) as [t [[err |] | |]]; cbn [snd] in Hr;
    [now destruct (Hr err) | reflexivity ..].
Qed.

(** X12. The pipeline starts only with a token and a host.  Without the
    token the program logs that the token is not set and exits with status
    1, whatever the host; with the token and without the host it logs that
    the host is not set; in both cases it dials nothing and sends nothing.
    With both it is the run of [runApp] at the address [host:port].  So a
    payload is sent only from a configuration that has both. *)
Theorem main_needs_token_and_host (env : Env) (parsed : Parsed) :
  (forall cfg, parsed = Configured cfg ->
     (DATASET_API_WRITE_TOKEN cfg = "" ->
      main env parsed = ([Log token_error], Fatal))
     /\ (DATASET_API_WRITE_TOKEN cfg <> "" -> DUMP1090_HOST cfg = "" ->
         main env parsed = ([Log host_error], Fatal))
     /\ (DATASET_API_WRITE_TOKEN cfg <> "" -> DUMP1090_HOST cfg <> "" ->
         main env parsed
         = runApp (env (DUMP1090_HOST cfg ++ ":" ++ DUMP1090_PORT cfg)%string
                       (DATASET_API_WRITE_TOKEN cfg))
                  (BATCH_SIZE cfg)))
  /\ (flushes (fst (main env parsed)) <> [] ->
      exists cfg,
        parsed = Configured cfg
        /\ DATASET_API_WRITE_TOKEN cfg <> ""
        /\ DUMP1090_HOST cfg <> "").
Proof.
  split.
  - intros cfg ->. repeat split.
    + intros Ht. unfold main, initializeConfiguration, Action.
      now rewrite Ht.
    + intros Ht Hh. unfold main, initializeConfiguration, Action.
      apply String.eqb_neq in Ht. now rewrite Ht, Hh.
    + apply main_configured.
  - destruct parsed as [err | | cfg]; cbn; try congruence.
    intros Hsent. exists cfg. split; [reflexivity |].
    unfold main, initializeConfiguration, Action in Hsent.
    destruct (String.eqb (DATASET_API_WRITE_TOKEN cfg) "") eqn:Ht;
      [cbn in Hsent; congruence |].
    destruct (String.eqb (DUMP1090_HOST cfg) "") eqn:Hh;
      [cbn in Hsent; congruence |].
    now apply String.eqb_neq in Ht, Hh.
Qed.

(** X13. The variable [COLLECTOR_SOURCE] is read nowhere: the program
    behaves the same whatever it holds, and every event it sends carries
    the source ["dump1090-fa"]. *)
Theorem collector_source_is_unused (env : Env) (cfg : Config) (source : string) :
  main env (Configured
              {| BATCH_SIZE := BATCH_SIZE cfg;
                 DATASET_API_WRITE_TOKEN := DATASET_API_WRITE_TOKEN cfg;
                 DUMP1090_HOST := DUMP1090_HOST cfg;
                 DUMP1090_PORT := DUMP1090_PORT cfg;
                 COLLECTOR_SOURCE := source |})
  = main env (Configured cfg)
  /\ Forall (fun p =>
       Forall (fun e => attrs_source (event_attrs e) = "dump1090-fa")
         (events p))
       (flushes (fst (main env (Configured cfg)))).
Proof.
  split; [reflexivity |].
  unfold main, initializeConfiguration, Action.
  destruct (String.eqb (DATASET_API_WRITE_TOKEN cfg) ""); [constructor |].
  destruct (String.eqb (DUMP1090_HOST cfg) ""); [constructor |].
  set (w := env _ _). set (B := BATCH_SIZE cfg).
  pose proof (runApp_returns_nil w B) as Hr.
  assert (Hall : Forall (fun p =>
             Forall (fun e => attrs_source (event_attrs e) = "dump1090-fa")
               (events p)) (flushes (fst (runApp w B)))).
  { destruct (dial w) as [err | lines] eqn:Hdial.
    { rewrite (proj1 (runApp_stopped w B (or_introl (ex_intro _ err Hdial)))).
      constructor. }
    destruct (Z_le_dec 0 B) as [H0 | H0];
      [destruct (Z_le_dec B (max_cap w)) as [H1 | H1] |].
    2, 3: assert (Hout : ~ 0 <= B <= max_cap w) by lia;
          rewrite (proj1 (runApp_stopped w B (or_intror Hout))); constructor.
    pose proof (runApp_events w B lines Hdial (conj H0 H1)) as Hev.
    assert (Hsrc : Forall (fun e => attrs_source (event_attrs e) = "dump1090-fa")
                     (List.concat (map events (flushes (fst (runApp w B)))))).
    { rewrite Hev. apply Forall_forall. intros e He.
      apply in_map_iff in He. destruct He as (m & <- & _). reflexivity. }
    revert Hsrc. generalize (flushes (fst (runApp w B))).
    induction l as [| p l IH]; cbn [map List.concat]; intros Hsrc;
      [constructor |].
    apply Forall_app in Hsrc. destruct Hsrc. constructor; auto. }
  destruct (runApp w B) as [t [[err |] | |]]; cbn [snd fst] in *;
    [now destruct (Hr err) | exact Hall ..].
Qed.

End MainFacts.

(** ** The further properties on the sample feed *)

Lemma Parse_reads_22_fields_witness :
  (22 <= List.length (strings.Split (strings.TrimSpace sample_line) ","))%nat
  /\ firstn 22 (strings.Split (strings.TrimSpace long_line) ",")
     = firstn 22 (strings.Split (strings.TrimSpace sample_line) ",")
  /\ Parse (FL := no_floats) 1682942400000000000 long_line
     = Parse (FL := no_floats) 1682942400000000000 sample_line.
Proof.
  split; [apply Nat.leb_le; vm_compute; reflexivity |].
  split; [vm_compute; reflexivity |].
  pose proof (Parse_reads_22_fields (FL := no_floats) 1682942400000000000
                sample_line long_line) as H.
  cbv zeta in H. apply H.
  - apply Nat.leb_le. vm_compute. reflexivity.
  - vm_compute. reflexivity.
Defined.

Lemma fields_hold_no_comma_witness :
  snd (Parse (FL := no_floats) 1682942400000000000 sample_line) = true
  /\ Forall (fun get : SBS1Message (FL := no_floats) -> string =>
               has_byte ","
                 (get (fst (Parse (FL := no_floats) 1682942400000000000
                              sample_line))) = false)
       [MessageType; SessionID; AircraftID; Icao24; FlightID; Callsign].
Proof.
  split; [vm_compute; reflexivity |].
  apply (fields_hold_no_comma (FL := no_floats) 1682942400000000000
           sample_line).
  vm_compute. reflexivity.
Defined.

Lemma Parse_ignores_surrounding_space_witness :
  ascii_spaces (bytes [32; 9]) = true
  /\ ascii_spaces (bytes [13; 10]) = true
  /\ Parse (FL := no_floats) 1682942400000000000
       (bytes [32; 9] ++ sample_line ++ bytes [13; 10])
     = Parse (FL := no_floats) 1682942400000000000 sample_line.
Proof.
  split; [vm_compute; reflexivity |]. split; [vm_compute; reflexivity |].
  apply (Parse_ignores_surrounding_space (FL := no_floats)
           1682942400000000000 (bytes [32; 9]) sample_line (bytes [13; 10]));
    vm_compute; reflexivity.
Defined.

Lemma parseDateTime_valid_witness :
  parseDateTime "2023/05/01" "12:00:01.250"
  = Some (time.Date 2023 5 1 12 0 1 250000000)
  /\ valid_time (time.Date 2023 5 1 12 0 1 250000000) = true
  /\ 0 <= time.Nanosecond (time.Date 2023 5 1 12 0 1 250000000) < 10 ^ 9.
Proof.
  split; [vm_compute; reflexivity |].
  pose proof (parseDateTime_valid "2023/05/01" "12:00:01.250"
                (time.Date 2023 5 1 12 0 1 250000000)
                ltac:(vm_compute; reflexivity)) as H.
  destruct H as (Hv & _ & _ & _ & _ & Hn). split; assumption.
Defined.

Lemma flush_sizes_witness :
  dial (feed lines_five sink_ok) = inr lines_five
  /\ 1 <= 2 <= max_cap (feed lines_five sink_ok)
  /\ map (fun p => List.length (events p))
       (flushes (fst (runApp (feed lines_five sink_ok) 2)))
     = [2; 2; 1]%nat.
Proof.
  split; [reflexivity |]. split; [cbn [max_cap feed]; lia |].
  pose proof (flush_sizes (feed lines_five sink_ok) 2 lines_five eq_refl
                ltac:(cbn [max_cap feed]; lia)) as H.
  cbv zeta in H. destruct H as [H _]. rewrite H. vm_compute. reflexivity.
Defined.

Lemma batch_size_zero_is_one_witness :
  1 <= max_cap (feed lines_two sink_ok)
  /\ runApp (feed lines_two sink_ok) 0 = runApp (feed lines_two sink_ok) 1.
Proof.
  split; [cbn [max_cap feed]; lia |].
  apply (batch_size_zero_is_one (feed lines_two sink_ok)).
  cbn [max_cap feed]. lia.
Defined.

Lemma timestamps_in_arrival_order_witness :
  dial (feed lines_three sink_ok) = inr lines_three
  /\ StronglySorted Z.le
       (map (fun ts => fst (strconv.Atoi ts))
          (map event_ts
             (List.concat
                (map events
                   (flushes (fst (runApp (feed lines_three sink_ok) 2))))))).
Proof.
  split; [reflexivity |].
  pose proof (timestamps_in_arrival_order (feed lines_three sink_ok) 2
                lines_three eq_refl) as H.
  cbv zeta in H. apply H.
  - intros i Hi. unfold lines_three in Hi. cbn [List.length] in Hi.
    cbn [clock feed]. lia.
  - intros i j Hij. cbn [clock feed]. lia.
Defined.
